(** * eqvnc: frame-data replication, canvas fit, input mapping and screen geometry

    A shallow embedding of [eqvnc.cpp].  The C++ types are modelled as the
    program has them:
    - [int] is a 32-bit two's complement integer carried by [Z]; every
      arithmetic operation wraps ([wrap32]).  Signed overflow is undefined
      in C++; the theorems carry the range hypotheses under which no
      operation of the model wraps.
    - [float] is IEEE 754 binary32, carried by [spec_float] with the
      operations of [SpecFloat] at precision 24 and maximal exponent 128.
    - [std::vector<unsigned int>] is a [list Z]; [operator[]] out of range
      is undefined in C++ and [None] here.
    - [co::DataOStream] / [co::DataIStream] are FIFO sequences of typed
      values; reading a value of another type, or from an empty stream,
      is [None].
    - OpenGL is an output device: a drawing function returns the sequence
      of calls it makes.
    - Constants of foreign headers (key codes, button masks) and the
      functions of the C math library are parameters. *)

From Stdlib Require Import ZArith List Lia Bool.
From Stdlib Require Import Floats.SpecFloat.
From stdpp Require Import base option list.

Local Open Scope Z_scope.

(** ** 32-bit integers *)

Definition int_min : Z := - 2 ^ 31.
Definition int_max : Z := 2 ^ 31 - 1.

Definition int_range (z : Z) : Prop := int_min <= z <= int_max.

Definition wrap32 (z : Z) : Z := (z + 2 ^ 31) mod 2 ^ 32 - 2 ^ 31.

Definition int_add (a b : Z) : Z := wrap32 (a + b).
Definition int_sub (a b : Z) : Z := wrap32 (a - b).
Definition int_mul (a b : Z) : Z := wrap32 (a * b).

(** ** binary32 floats *)

Definition float : Type := spec_float.

Definition f_prec : Z := 24.
Definition f_emax : Z := 128.

Definition fadd : float -> float -> float := SFadd f_prec f_emax.
Definition fsub : float -> float -> float := SFsub f_prec f_emax.
Definition fmul : float -> float -> float := SFmul f_prec f_emax.
Definition fdiv : float -> float -> float := SFdiv f_prec f_emax.
Definition fsqrt : float -> float := SFsqrt f_prec f_emax.
Definition fneg : float -> float := SFopp.

(** [a <= b], [a >= b], [a < b], [a > b] on floats; all false on NaN. *)
Definition fle (a b : float) : bool := SFleb a b.
Definition fge (a b : float) : bool := SFleb b a.
Definition flt (a b : float) : bool := SFltb a b.
Definition fgt (a b : float) : bool := SFltb b a.

(** [static_cast<float>(i)] for an [int] [i]: round to nearest even. *)
Definition float_of_int (i : Z) : float := binary_normalize f_prec f_emax i 0 false.

(** Float literals used by the program. *)
Definition f0 : float := S754_zero false.
Definition f1 : float := float_of_int 1.
Definition f2 : float := float_of_int 2.
Definition f90 : float := float_of_int 90.
Definition f180 : float := float_of_int 180.
Definition f0_5 : float := S754_finite false 8388608 (-24).

(** A finite, strictly positive, well-formed binary32 value. *)
Definition fpositive (x : float) : Prop :=
  match x with
  | S754_finite false m e => bounded f_prec f_emax m e = true
  | _ => False
  end.

(** The integral part of a finite float (truncation toward zero);
    infinities and NaN have none. *)
Definition ftrunc (x : float) : option Z :=
  match x with
  | S754_zero _ => Some 0
  | S754_finite s m e =>
      let a := if 0 <=? e then Z.shiftl (Zpos m) e else Z.shiftr (Zpos m) (- e) in
      Some (if s then - a else a)
  | _ => None
  end.

(** Conversion of a float to [int] (an assignment [int x = f]): the
    value is truncated toward zero.  When the truncated value does not
    fit, or the float is an infinity or a NaN, C++ leaves the result
    undefined; the model returns [int_min], the value the x86 conversion
    instruction produces. *)
Definition int_of_float (x : float) : Z :=
  match ftrunc x with
  | Some t => if (int_min <=? t) && (t <=? int_max) then t else int_min
  | None => int_min
  end.

(** ** Vectors *)

Definition vec_get {A} (v : list A) (i : Z) : option A :=
  if i <? 0 then None else v !! Z.to_nat i.

Definition vec_set {A} (v : list A) (i : Z) (x : A) : option (list A) :=
  if (0 <=? i) && (i <? Z.of_nat (length v)) then Some (<[Z.to_nat i := x]> v) else None.

(** [v.resize(n)] with an [int] argument: the argument becomes a
    [size_t], so a negative one asks for more than [max_size()] elements
    and the call throws; otherwise the vector keeps its first elements and
    is padded with zeros. *)
Definition vec_resize (v : list Z) (n : Z) : option (list Z) :=
  if n <? 0 then None else Some (resize (Z.to_nat n) 0 v).

(** ** Counted loops: [for (int i = lo; i < hi; i++) body]

    The loop runs [hi - lo] times when [lo < hi] and not at all
    otherwise; the counter stays below [hi], so its increment never
    wraps.  A [None] from the body (undefined behaviour, an exhausted
    stream) ends the loop with [None]. *)

Fixpoint for_loop {S} (n : nat) (i : Z) (body : Z -> S -> option S) (s : S) : option S :=
  match n with
  | O => Some s
  | Datatypes.S n' =>
      match body i s with
      | Some s' => for_loop n' (i + 1) body s'
      | None => None
      end
  end.

Definition for_range {S} (lo hi : Z) (body : Z -> S -> option S) (s : S) : option S :=
  for_loop (Z.to_nat (hi - lo)) lo body s.

(** ** Data streams *)

Inductive datum :=
| d_int (z : Z)
| d_uint (p : Z)
| d_size (n : nat)
| d_float (f : float).

Definition stream := list datum.

Definition read_int (ins : stream) : option (Z * stream) :=
  match ins with d_int z :: ins' => Some (z, ins') | _ => None end.

Definition read_uint (ins : stream) : option (Z * stream) :=
  match ins with d_uint p :: ins' => Some (p, ins') | _ => None end.

Definition read_size (ins : stream) : option (nat * stream) :=
  match ins with d_size n :: ins' => Some (n, ins') | _ => None end.

Definition read_float (ins : stream) : option (float * stream) :=
  match ins with d_float f :: ins' => Some (f, ins') | _ => None end.

(** ** Types of the program *)

Record rectangle_t := { r_x : Z; r_y : Z; r_w : Z; r_h : Z }.

Inductive screen_t := screen_canvas | screen_wall | screen_cylinder.

(** [float canvas[6]]: width, height, and relative rectangle x, y, w, h. *)
Record canvas_t := {
  canvas0 : float; canvas1 : float; canvas2 : float;
  canvas3 : float; canvas4 : float; canvas5 : float }.

Record eq_frame_data := {
  vnc_width : Z;
  vnc_height : Z;
  canvas : canvas_t;
  vnc_framebuffer : list Z;
  vnc_dirty_rectangles : list rectangle_t }.

Definition write_canvas (c : canvas_t) : stream :=
  [d_float (canvas0 c); d_float (canvas1 c); d_float (canvas2 c);
   d_float (canvas3 c); d_float (canvas4 c); d_float (canvas5 c)].

Definition read_canvas (ins : stream) : option (canvas_t * stream) :=
  '(a0, ins) ← read_float ins;
  '(a1, ins) ← read_float ins;
  '(a2, ins) ← read_float ins;
  '(a3, ins) ← read_float ins;
  '(a4, ins) ← read_float ins;
  '(a5, ins) ← read_float ins;
  Some ({| canvas0 := a0; canvas1 := a1; canvas2 := a2;
           canvas3 := a3; canvas4 := a4; canvas5 := a5 |}, ins).

(** ** eq_frame_data::getInstanceData *)

Definition put_pixel (fd : eq_frame_data) (y x : Z) (os : stream) : option stream :=
  p ← vec_get (vnc_framebuffer fd) (int_add (int_mul y (vnc_width fd)) x);
  Some (os ++ [d_uint p]).

Definition put_rectangle (fd : eq_frame_data) (os : stream) (r : rectangle_t) : option stream :=
  let os := os ++ [d_int (r_x r); d_int (r_y r); d_int (r_w r); d_int (r_h r)] in
  for_range (r_y r) (int_add (r_y r) (r_h r))
    (fun y os =>
       for_range (r_x r) (int_add (r_x r) (r_w r))
         (fun x os => put_pixel fd y x os) os) os.

Fixpoint put_rectangles (fd : eq_frame_data) (rs : list rectangle_t) (os : stream) : option stream :=
  match rs with
  | [] => Some os
  | r :: rs' =>
      match put_rectangle fd os r with
      | Some os' => put_rectangles fd rs' os'
      | None => None
      end
  end.

Definition getInstanceData (fd : eq_frame_data) (os : stream) : option stream :=
  let os := os ++ [d_int (vnc_width fd); d_int (vnc_height fd)] in
  let os := os ++ write_canvas (canvas fd) in
  let n := length (vnc_dirty_rectangles fd) in
  let os := os ++ [d_size n] in
  put_rectangles fd (vnc_dirty_rectangles fd) os.

(** ** eq_frame_data::applyInstanceData *)

Definition get_pixel (width : Z) (y x : Z) (st : list Z * stream) : option (list Z * stream) :=
  let '(fb, ins) := st in
  '(p, ins) ← read_uint ins;
  fb ← vec_set fb (int_add (int_mul y width) x) p;
  Some (fb, ins).

Definition get_rectangle (width : Z) (st : list Z * stream) : option (list Z * stream) :=
  let '(fb, ins) := st in
  '(x0, ins) ← read_int ins;
  '(y0, ins) ← read_int ins;
  '(w0, ins) ← read_int ins;
  '(h0, ins) ← read_int ins;
  for_range y0 (int_add y0 h0)
    (fun y st => for_range x0 (int_add x0 w0) (fun x st => get_pixel width y x st) st)
    (fb, ins).

Fixpoint get_rectangles (width : Z) (n : nat) (st : list Z * stream) : option (list Z * stream) :=
  match n with
  | O => Some st
  | Datatypes.S n' =>
      match get_rectangle width st with
      | Some st' => get_rectangles width n' st'
      | None => None
      end
  end.

Definition applyInstanceData (fd : eq_frame_data) (ins : stream) : option (eq_frame_data * stream) :=
  '(w, ins) ← read_int ins;
  '(h, ins) ← read_int ins;
  fb ← (if negb (w =? vnc_width fd) || negb (h =? vnc_height fd)
        then vec_resize (vnc_framebuffer fd) (int_mul w h)
        else Some (vnc_framebuffer fd));
  '(c, ins) ← read_canvas ins;
  '(n, ins) ← read_size ins;
  '(fb, ins) ← get_rectangles w n (fb, ins);
  Some ({| vnc_width := w; vnc_height := h; canvas := c;
           vnc_framebuffer := fb;
           vnc_dirty_rectangles := vnc_dirty_rectangles fd |}, ins).

(** ** libvncclient callbacks *)

(** [client->frameBuffer = ...&(frame_data.vnc_framebuffer[0])] subscripts
    the resized buffer at 0, which is out of range when the buffer is
    empty. *)
Definition vnc_resize (fd : eq_frame_data) (width height : Z) : option eq_frame_data :=
  fb ← vec_resize (vnc_framebuffer fd) (int_mul width height);
  _ ← vec_get fb 0;
  Some {| vnc_width := width; vnc_height := height; canvas := canvas fd;
          vnc_framebuffer := fb;
          vnc_dirty_rectangles := [ {| r_x := 0; r_y := 0; r_w := width; r_h := height |} ] |}.

Definition vnc_update (fd : eq_frame_data) (x y w h : Z) : eq_frame_data :=
  {| vnc_width := vnc_width fd; vnc_height := vnc_height fd; canvas := canvas fd;
     vnc_framebuffer := vnc_framebuffer fd;
     vnc_dirty_rectangles := vnc_dirty_rectangles fd ++ [ {| r_x := x; r_y := y; r_w := w; r_h := h |} ] |}.

(** ** eq_config::startFrame: the canvas fit *)

(** The block that fits the desktop into the canvas: it assigns
    [canvas[4]], [canvas[5]] and then [canvas[2]], [canvas[3]] from the
    aspect ratio [ar] of the desktop and [canvas_ar] of the canvas. *)
Definition canvas_fit (c : canvas_t) (ar canvas_ar : float) : canvas_t :=
  let '(c4, c5) :=
    if fge ar canvas_ar then (f1, fdiv canvas_ar ar) else (fdiv ar canvas_ar, f1) in
  {| canvas0 := canvas0 c; canvas1 := canvas1 c;
     canvas2 := fdiv (fsub f1 c4) f2;
     canvas3 := fdiv (fsub f1 c5) f2;
     canvas4 := c4; canvas5 := c5 |}.

(** The part of [startFrame] that changes the frame data, before it is
    committed.  [wall_w], [wall_h]: [getCanvases()[0]->getWall().getWidth()]
    and [getHeight()], read from the Equalizer configuration every frame. *)
Definition startFrame (screen : screen_t) (wall_w wall_h : float) (fd : eq_frame_data) : eq_frame_data :=
  match screen with
  | screen_canvas =>
      let c := {| canvas0 := wall_w; canvas1 := wall_h;
                  canvas2 := canvas2 (canvas fd); canvas3 := canvas3 (canvas fd);
                  canvas4 := canvas4 (canvas fd); canvas5 := canvas5 (canvas fd) |} in
      let ar := fdiv (float_of_int (vnc_width fd)) (float_of_int (vnc_height fd)) in
      let canvas_ar := fdiv (canvas0 c) (canvas1 c) in
      {| vnc_width := vnc_width fd; vnc_height := vnc_height fd;
         canvas := canvas_fit c ar canvas_ar;
         vnc_framebuffer := vnc_framebuffer fd;
         vnc_dirty_rectangles := vnc_dirty_rectangles fd |}
  | _ => fd
  end.

(** ** The viewer loop of [main]

    The remote-desktop client calls [vnc_resize] and [vnc_update] while a
    server message is handled; then the loop commits the frame data
    ([startFrame]), finishes the frame and clears the dirty list. *)

Inductive event :=
| ev_resize (width height : Z)
| ev_update (x y w h : Z)
| ev_frame (wall_w wall_h : float).

Definition clear_dirty (fd : eq_frame_data) : eq_frame_data :=
  {| vnc_width := vnc_width fd; vnc_height := vnc_height fd; canvas := canvas fd;
     vnc_framebuffer := vnc_framebuffer fd; vnc_dirty_rectangles := [] |}.

(** One event; the second component is the frame data committed by it,
    if any: the state [frame_data.commit()] hands to [getInstanceData]. *)
Definition step (screen : screen_t) (fd : eq_frame_data) (ev : event)
  : option (eq_frame_data * list eq_frame_data) :=
  match ev with
  | ev_resize w h => fd' ← vnc_resize fd w h; Some (fd', [])
  | ev_update x y w h => Some (vnc_update fd x y w h, [])
  | ev_frame ww wh =>
      let committed := startFrame screen ww wh fd in
      Some (clear_dirty committed, [committed])
  end.

Fixpoint run (screen : screen_t) (evs : list event) (fd : eq_frame_data)
  : option (eq_frame_data * list eq_frame_data) :=
  match evs with
  | [] => Some (fd, [])
  | ev :: evs' =>
      '(fd1, c1) ← step screen fd ev;
      '(fd2, c2) ← run screen evs' fd1;
      Some (fd2, c1 ++ c2)
  end.

(** [eq_frame_data()]: zero dimensions, empty vectors; the canvas array
    is left uninitialised, so it is a parameter here. *)
Definition new_frame_data (c : canvas_t) : eq_frame_data :=
  {| vnc_width := 0; vnc_height := 0; canvas := c;
     vnc_framebuffer := []; vnc_dirty_rectangles := [] |}.

(** ** Key mapping *)

(** The key constants of [eq::KeyCode] and of the X11 keysym table come
    from headers outside this program; they are parameters. *)
Record key_constants := {
  KC_ESCAPE : Z; KC_BACKSPACE : Z; KC_RETURN : Z; KC_TAB : Z; KC_HOME : Z;
  KC_LEFT : Z; KC_UP : Z; KC_RIGHT : Z; KC_DOWN : Z; KC_PAGE_UP : Z;
  KC_PAGE_DOWN : Z; KC_END : Z;
  KC_F1 : Z; KC_F2 : Z; KC_F3 : Z; KC_F4 : Z; KC_F5 : Z; KC_F6 : Z;
  KC_F7 : Z; KC_F8 : Z; KC_F9 : Z; KC_F10 : Z; KC_F11 : Z; KC_F12 : Z;
  KC_F13 : Z; KC_F14 : Z; KC_F15 : Z; KC_F16 : Z; KC_F17 : Z; KC_F18 : Z;
  KC_F19 : Z; KC_F20 : Z; KC_F21 : Z; KC_F22 : Z; KC_F23 : Z; KC_F24 : Z;
  XK_Escape : Z; XK_BackSpace : Z; XK_Return : Z; XK_Tab : Z; XK_Home : Z;
  XK_Left : Z; XK_Up : Z; XK_Right : Z; XK_Down : Z; XK_Page_Up : Z;
  XK_Page_Down : Z; XK_End : Z;
  XK_F1 : Z; XK_F2 : Z; XK_F3 : Z; XK_F4 : Z; XK_F5 : Z; XK_F6 : Z;
  XK_F7 : Z; XK_F8 : Z; XK_F9 : Z; XK_F10 : Z; XK_F11 : Z; XK_F12 : Z;
  XK_F13 : Z; XK_F14 : Z; XK_F15 : Z; XK_F16 : Z; XK_F17 : Z; XK_F18 : Z;
  XK_F19 : Z; XK_F20 : Z; XK_F21 : Z; XK_F22 : Z; XK_F23 : Z; XK_F24 : Z }.

(** The [case] labels of the [switch] with their results, in source order. *)
Definition key_cases (K : key_constants) : list (Z * Z) :=
  [ (KC_ESCAPE K, XK_Escape K); (KC_BACKSPACE K, XK_BackSpace K);
    (KC_RETURN K, XK_Return K); (KC_TAB K, XK_Tab K); (KC_HOME K, XK_Home K);
    (KC_LEFT K, XK_Left K); (KC_UP K, XK_Up K); (KC_RIGHT K, XK_Right K);
    (KC_DOWN K, XK_Down K); (KC_PAGE_UP K, XK_Page_Up K);
    (KC_PAGE_DOWN K, XK_Page_Down K); (KC_END K, XK_End K);
    (KC_F1 K, XK_F1 K); (KC_F2 K, XK_F2 K); (KC_F3 K, XK_F3 K);
    (KC_F4 K, XK_F4 K); (KC_F5 K, XK_F5 K); (KC_F6 K, XK_F6 K);
    (KC_F7 K, XK_F7 K); (KC_F8 K, XK_F8 K); (KC_F9 K, XK_F9 K);
    (KC_F10 K, XK_F10 K); (KC_F11 K, XK_F11 K); (KC_F12 K, XK_F12 K);
    (KC_F13 K, XK_F13 K); (KC_F14 K, XK_F14 K); (KC_F15 K, XK_F15 K);
    (KC_F16 K, XK_F16 K); (KC_F17 K, XK_F17 K); (KC_F18 K, XK_F18 K);
    (KC_F19 K, XK_F19 K); (KC_F20 K, XK_F20 K); (KC_F21 K, XK_F21 K);
    (KC_F22 K, XK_F22 K); (KC_F23 K, XK_F23 K); (KC_F24 K, XK_F24 K) ].

(** A [switch]: the first matching label decides, otherwise [default]. *)
Fixpoint switch (cases : list (Z * Z)) (default key : Z) : Z :=
  match cases with
  | [] => default
  | (label, k) :: cases' => if key =? label then k else switch cases' default key
  end.

Definition eqkey_to_rfbkey (K : key_constants) (key : Z) : Z :=
  switch (key_cases K) key key.

(** A C++ [switch] compiles only when its labels are pairwise distinct. *)
Definition distinct_labels (K : key_constants) : Prop :=
  List.NoDup (map fst (key_cases K)).

(** ** Pointer mapping *)

Record PointerEvent := {
  pe_x : Z; pe_y : Z; pe_buttons : Z; pe_xAxis : Z; pe_yAxis : Z }.

Record PixelViewport := { pvp_x : Z; pvp_y : Z; pvp_w : Z; pvp_h : Z }.

Record Viewport := { vp_x : float; vp_y : float; vp_w : float; vp_h : float }.

(** Button constants of Equalizer and of libvncclient (foreign headers). *)
Record button_constants := {
  PTR_BUTTON1 : Z; PTR_BUTTON2 : Z; PTR_BUTTON3 : Z;
  rfbButton1Mask : Z; rfbButton2Mask : Z; rfbButton3Mask : Z;
  rfbWheelUpMask : Z; rfbWheelDownMask : Z }.

(** [if (x < 0) x = 0; if (x > size - 1) x = size - 1;] *)
Definition clamp_coordinate (x size : Z) : Z :=
  let x := if x <? 0 then 0 else x in
  if x >? int_sub size 1 then int_sub size 1 else x.

Definition or_if (c : bool) (mask buttons : Z) : Z :=
  if c then Z.lor buttons mask else buttons.

Definition eqptr_to_rfbptr (B : button_constants) (e : PointerEvent)
    (pvp : PixelViewport) (vp : Viewport) (cv : canvas_t)
    (vnc_w vnc_h : Z) : Z * Z * Z :=
  (* Event position relative to channel *)
  let event_channel_x := fdiv (float_of_int (pe_x e)) (float_of_int (pvp_w pvp)) in
  let event_channel_y := fdiv (float_of_int (pe_y e)) (float_of_int (pvp_h pvp)) in
  (* Event position relative to canvas *)
  let event_canvas_x := fadd (vp_x vp) (fmul event_channel_x (vp_w vp)) in
  let event_canvas_y := fadd (vp_y vp) (fmul (fsub f1 event_channel_y) (vp_h vp)) in
  let event_canvas_y := fsub f1 event_canvas_y in
  (* Event position relative to canvas drawing area *)
  let event_canvas_area_x := fdiv (fsub event_canvas_x (canvas2 cv)) (canvas4 cv) in
  let event_canvas_area_y := fdiv (fsub event_canvas_y (canvas3 cv)) (canvas5 cv) in
  (* Event pixel position in VNC *)
  let event_x := fmul event_canvas_area_x (float_of_int vnc_w) in
  let event_y := fmul event_canvas_area_y (float_of_int vnc_h) in
  (* Integer event position in VNC *)
  let x := clamp_coordinate (int_of_float event_x) vnc_w in
  let y := clamp_coordinate (int_of_float event_y) vnc_h in
  (* Buttons and wheel *)
  let buttons := 0 in
  let buttons := or_if (negb (Z.land (pe_buttons e) (PTR_BUTTON1 B) =? 0)) (rfbButton1Mask B) buttons in
  let buttons := or_if (negb (Z.land (pe_buttons e) (PTR_BUTTON2 B) =? 0)) (rfbButton2Mask B) buttons in
  let buttons := or_if (negb (Z.land (pe_buttons e) (PTR_BUTTON3 B) =? 0)) (rfbButton3Mask B) buttons in
  let buttons := or_if ((pe_xAxis e >? 0) || (pe_yAxis e >? 0)) (rfbWheelUpMask B) buttons in
  let buttons := or_if ((pe_xAxis e <? 0) || (pe_yAxis e <? 0)) (rfbWheelDownMask B) buttons in
  (x, y, buttons).

(** ** eq_config::handleEvent *)

Inductive event_type :=
| KEY_PRESS | KEY_RELEASE
| CHANNEL_POINTER_MOTION | CHANNEL_POINTER_BUTTON_PRESS
| CHANNEL_POINTER_BUTTON_RELEASE | CHANNEL_POINTER_WHEEL
| OTHER_EVENT.

(** [event->data]: the type, the key of a key event, the pointer data of
    a pointer event, and the pixel viewport and viewport of the channel
    ([context.pvp], [context.vp]). *)
Record ConfigEvent := {
  ce_type : event_type;
  ce_key : Z;
  ce_pointer : PointerEvent;
  ce_pvp : PixelViewport;
  ce_vp : Viewport }.

(** What the viewer sends to the VNC server. *)
Inductive vnc_message :=
| SendKeyEvent (key : Z) (down : bool)
| SendPointerEvent (x y buttons : Z).

Definition send_pointer (B : button_constants) (fd : eq_frame_data) (ev : ConfigEvent)
  : list vnc_message :=
  let '(vnc_x, vnc_y, vnc_buttons) :=
    eqptr_to_rfbptr B (ce_pointer ev) (ce_pvp ev) (ce_vp ev)
                    (canvas fd) (vnc_width fd) (vnc_height fd) in
  [SendPointerEvent vnc_x vnc_y vnc_buttons].

(** [handled_by_base]: the result of [eq::Config::handleEvent];
    [have_client]: whether [vnc_client] is set.  The result is the
    return value with the messages sent. *)
Definition handleEvent (K : key_constants) (B : button_constants)
    (handled_by_base have_client : bool) (view_only_flag : bool) (scr : screen_t)
    (fd : eq_frame_data) (ev : ConfigEvent) : bool * list vnc_message :=
  if handled_by_base then (true, [])
  else if view_only_flag then (false, [])
  else if negb have_client then (false, [])
  else match ce_type ev with
       | KEY_PRESS => (true, [SendKeyEvent (eqkey_to_rfbkey K (ce_key ev)) true])
       | KEY_RELEASE => (true, [SendKeyEvent (eqkey_to_rfbkey K (ce_key ev)) false])
       | CHANNEL_POINTER_MOTION | CHANNEL_POINTER_BUTTON_PRESS
       | CHANNEL_POINTER_BUTTON_RELEASE | CHANNEL_POINTER_WHEEL =>
           match scr with
           | screen_canvas => (false, send_pointer B fd ev)
           | _ => (false, [])
           end
       | OTHER_EVENT => (false, [])
       end.

(** ** Little helpers *)

(** [static_cast<float>(M_PI)]: the binary32 value nearest to pi. *)
Definition M_PI_f : float := S754_finite false 13176795 (-22).

Definition deg_to_rad (deg : float) : float := fmul (fdiv M_PI_f f180) deg.
Definition rad_to_deg (rad : float) : float := fmul (fdiv f180 M_PI_f) rad.

(** [float v[3]] *)
Definition vec3 : Type := float * float * float.

Definition v0 (v : vec3) : float := fst (fst v).
Definition v1 (v : vec3) : float := snd (fst v).
Definition v2 (v : vec3) : float := snd v.

Definition dot (v w : vec3) : float :=
  fadd (fadd (fmul (v0 v) (v0 w)) (fmul (v1 v) (v1 w))) (fmul (v2 v) (v2 w)).

Definition cross (v w : vec3) : vec3 :=
  (fsub (fmul (v1 v) (v2 w)) (fmul (v2 v) (v1 w)),
   fsub (fmul (v2 v) (v0 w)) (fmul (v0 v) (v2 w)),
   fsub (fmul (v0 v) (v1 w)) (fmul (v1 v) (v0 w))).

Definition length3 (v : vec3) : float := fsqrt (dot v v).

(** ** eq_init_data *)

(** [a[i]] on a fixed-size float array. *)
Definition arr (a : list float) (i : nat) : float := nth i a f0.

Record eq_init_data := {
  frame_data_id : Z;
  view_only : bool;
  screen : screen_t;
  wall : list float;        (* bottom left, bottom right, top left *)
  cylinder : list float;    (* center, up vector, radius, azimuth center,
                               azimuth range, polar range *)
  head_matrix : list float }.

(** ** eq_channel::frameDraw

    The function draws through OpenGL; the model returns the sequence of
    calls it makes. *)

Inductive gl_enum :=
| GL_LIGHTING | GL_DEPTH_TEST | GL_TEXTURE_2D | GL_TEXTURE_ENV
| GL_TEXTURE_ENV_MODE | GL_REPLACE | GL_PROJECTION | GL_MODELVIEW
| GL_QUADS | GL_TRIANGLE_STRIP.

Inductive gl_call :=
| eq_Channel_frameDraw
| glDisable (cap : gl_enum)
| glEnable (cap : gl_enum)
| glBindTexture (target : gl_enum) (texture : Z)
| glTexEnvf (target pname param : gl_enum)
| glMatrixMode (mode : gl_enum)
| glLoadIdentity
| glBegin (mode : gl_enum)
| glEnd
| glTexCoord2f (s t : float)
| glVertex2f (x y : float)
| glVertex3fv (v : vec3)
| glVertex3f (x y z : float)
| glRotatef (angle x y z : float)
| glTranslatef (x y z : float).

(** The functions of the C math library used by the cylinder screen. *)
Record libm := {
  m_tan : float -> float;
  m_acos : float -> float;
  m_cos : float -> float;
  m_sin : float -> float }.

(** [for (int x = lo; x < lo + n; x++) body], collecting the calls. *)
Fixpoint draw_loop (n : nat) (x : Z) (body : Z -> list gl_call) : list gl_call :=
  match n with
  | O => []
  | Datatypes.S n' => body x ++ draw_loop n' (x + 1) body
  end.

Definition draw_canvas (fd : eq_frame_data) (canvas_channel_area : Viewport) : list gl_call :=
  let cv := canvas fd in
  let quad_x := fmul (fsub (fdiv (fsub (canvas2 cv) (vp_x canvas_channel_area)) (vp_w canvas_channel_area)) f0_5) f2 in
  let quad_y := fmul (fsub (fdiv (fsub (canvas3 cv) (vp_y canvas_channel_area)) (vp_h canvas_channel_area)) f0_5) f2 in
  let quad_w := fdiv (fmul f2 (canvas4 cv)) (vp_w canvas_channel_area) in
  let quad_h := fdiv (fmul f2 (canvas5 cv)) (vp_h canvas_channel_area) in
  [ glMatrixMode GL_PROJECTION; glLoadIdentity;
    glMatrixMode GL_MODELVIEW; glLoadIdentity;
    glBegin GL_QUADS;
    glTexCoord2f f0 f1; glVertex2f quad_x quad_y;
    glTexCoord2f f1 f1; glVertex2f (fadd quad_x quad_w) quad_y;
    glTexCoord2f f1 f0; glVertex2f (fadd quad_x quad_w) (fadd quad_y quad_h);
    glTexCoord2f f0 f0; glVertex2f quad_x (fadd quad_y quad_h);
    glEnd ].

Definition wall_tr (bl br tl : vec3) : vec3 :=
  (fadd (v0 br) (fsub (v0 tl) (v0 bl)),
   fadd (v1 br) (fsub (v1 tl) (v1 bl)),
   fadd (v2 br) (fsub (v2 tl) (v2 bl))).

Definition draw_wall (init : eq_init_data) : list gl_call :=
  let w := wall init in
  let bl := (arr w 0, arr w 1, arr w 2) in
  let br := (arr w 3, arr w 4, arr w 5) in
  let tl := (arr w 6, arr w 7, arr w 8) in
  let tr := wall_tr bl br tl in
  [ glBegin GL_QUADS;
    glTexCoord2f f0 f1; glVertex3fv bl;
    glTexCoord2f f1 f1; glVertex3fv br;
    glTexCoord2f f1 f0; glVertex3fv tr;
    glTexCoord2f f0 f0; glVertex3fv tl;
    glEnd ].

Definition cylinder_N : Z := 1000.

(** The body of the loop over [x] in the cylinder branch. *)
Definition cylinder_slice (M : libm) (radius phi_center phi_range py : float) (x : Z) : list gl_call :=
  let xf := fdiv (float_of_int x) (float_of_int cylinder_N) in
  let phi := fadd phi_center (fmul (fsub xf f0_5) phi_range) in
  let px := fmul radius (m_cos M phi) in
  let pz := fmul radius (m_sin M phi) in
  [ glTexCoord2f xf f0; glVertex3f px py pz;
    glTexCoord2f xf f1; glVertex3f px (fneg py) pz ].

Definition draw_cylinder (M : libm) (init : eq_init_data) : list gl_call :=
  let c := cylinder init in
  let center := (arr c 0, arr c 1, arr c 2) in
  let up := (arr c 3, arr c 4, arr c 5) in
  let radius := arr c 6 in
  let phi_center := arr c 7 in
  let phi_range := arr c 8 in
  let theta_range := arr c 9 in
  let py := fmul radius (m_tan M (fdiv theta_range f2)) in
  let default_up := (f0, f1, f0) in
  let rot_axis := cross default_up up in
  let rot_angle :=
    m_acos M (fdiv (dot default_up up)
                   (fsqrt (fmul (dot default_up default_up) (dot up up)))) in
  [ glRotatef f90 f0 f1 f0;
    glRotatef (rad_to_deg rot_angle) (v0 rot_axis) (v1 rot_axis) (v2 rot_axis);
    glTranslatef (v0 center) (v1 center) (v2 center);
    glBegin GL_TRIANGLE_STRIP ]
  ++ draw_loop (Z.to_nat (cylinder_N + 1)) 0
       (cylinder_slice M radius phi_center phi_range py)
  ++ [ glEnd ].

Definition frameDraw (M : libm) (init : eq_init_data) (fd : eq_frame_data)
    (viewport : Viewport) (tex : Z) : list gl_call :=
  [ eq_Channel_frameDraw;
    glDisable GL_LIGHTING; glDisable GL_DEPTH_TEST; glEnable GL_TEXTURE_2D;
    glBindTexture GL_TEXTURE_2D tex;
    glTexEnvf GL_TEXTURE_ENV GL_TEXTURE_ENV_MODE GL_REPLACE ]
  ++ match screen init with
     | screen_canvas => draw_canvas fd viewport
     | screen_wall => draw_wall init
     | screen_cylinder => draw_cylinder M init
     end.

(** ** Vocabulary of the frame-data statements *)

(** [lo, lo+1, ..., lo+n-1] *)
Definition zseq (lo : Z) (n : nat) : list Z := map (fun k => lo + Z.of_nat k) (seq 0 n).

Definition rect_is_int (r : rectangle_t) : Prop :=
  int_range (r_x r) /\ int_range (r_y r) /\ int_range (r_w r) /\ int_range (r_h r).

(** The rectangle lies within a [width] x [height] desktop. *)
Definition rect_in_bounds (width height : Z) (r : rectangle_t) : Prop :=
  0 <= r_x r /\ 0 <= r_y r /\ r_x r + r_w r <= width /\ r_y r + r_h r <= height.

(** Pixel [(x, y)] is covered by the rectangle. *)
Definition covers (r : rectangle_t) (x y : Z) : Prop :=
  r_x r <= x < r_x r + r_w r /\ r_y r <= y < r_y r + r_h r.

(** A frame state whose buffer has [width * height] pixels, the product
    being representable as an [int]. *)
Definition frame_wf (fd : eq_frame_data) : Prop :=
  0 <= vnc_width fd <= int_max /\ 0 <= vnc_height fd <= int_max /\
  vnc_width fd * vnc_height fd <= int_max /\
  length (vnc_framebuffer fd) = Z.to_nat (vnc_width fd * vnc_height fd) /\
  Forall rect_is_int (vnc_dirty_rectangles fd).

Definition dirty_in_bounds (fd : eq_frame_data) : Prop :=
  Forall (rect_in_bounds (vnc_width fd) (vnc_height fd)) (vnc_dirty_rectangles fd).

(** The pixel of the buffer at column [x], row [y] (row-major layout). *)
Definition pixel_at (width : Z) (fb : list Z) (x y : Z) : option Z :=
  vec_get fb (y * width + x).

(** Buffer positions of a rectangle, row by row, each row left to right. *)
Definition rect_indices (width : Z) (r : rectangle_t) : list nat :=
  flat_map (fun y => map (fun x => Z.to_nat (y * width + x)) (zseq (r_x r) (Z.to_nat (r_w r))))
           (zseq (r_y r) (Z.to_nat (r_h r))).

(** The pixels of a rectangle in row-major order. *)
Definition rect_pixels (fd : eq_frame_data) (r : rectangle_t) : list Z :=
  flat_map (fun y => map (fun x => nth (Z.to_nat (y * vnc_width fd + x)) (vnc_framebuffer fd) 0)
                         (zseq (r_x r) (Z.to_nat (r_w r))))
           (zseq (r_y r) (Z.to_nat (r_h r))).

Definition encode_rect (fd : eq_frame_data) (r : rectangle_t) : stream :=
  [d_int (r_x r); d_int (r_y r); d_int (r_w r); d_int (r_h r)]
  ++ map d_uint (rect_pixels fd r).

(** The layout the specification gives for a serialized frame state. *)
Definition encode_frame (fd : eq_frame_data) : stream :=
  [d_int (vnc_width fd); d_int (vnc_height fd)] ++ write_canvas (canvas fd)
  ++ [d_size (length (vnc_dirty_rectangles fd))]
  ++ flat_map (encode_rect fd) (vnc_dirty_rectangles fd).

(** Copying the positions [idx] of [src] into [fb], one after the other. *)
Definition copy_indices (src : list Z) (idx : list nat) (fb : list Z) : list Z :=
  fold_left (fun fb i => <[i := nth i src 0]> fb) idx fb.

(** Rectangles of non-negative extent. *)
Definition rect_nonneg (r : rectangle_t) : Prop := 0 <= r_w r /\ 0 <= r_h r.

(** ** Sample frame states *)

Definition blank_canvas : canvas_t :=
  {| canvas0 := f0; canvas1 := f0; canvas2 := f0;
     canvas3 := f0; canvas4 := f0; canvas5 := f0 |}.

(** A 100x100 desktop whose pixel at buffer position [i] has value [i],
    with the single dirty rectangle [{10, 20, 5, 5}]. *)
Definition delta_example : eq_frame_data :=
  {| vnc_width := 100; vnc_height := 100; canvas := blank_canvas;
     vnc_framebuffer := map Z.of_nat (seq 0 (Z.to_nat 10000));
     vnc_dirty_rectangles := [ {| r_x := 10; r_y := 20; r_w := 5; r_h := 5 |} ] |}.

(** A 4x3 desktop with two overlapping dirty rectangles. *)
Definition small_frame : eq_frame_data :=
  {| vnc_width := 4; vnc_height := 3; canvas := blank_canvas;
     vnc_framebuffer := [11; 12; 13; 14; 21; 22; 23; 24; 31; 32; 33; 34];
     vnc_dirty_rectangles :=
       [ {| r_x := 1; r_y := 0; r_w := 2; r_h := 2 |};
         {| r_x := 2; r_y := 1; r_w := 2; r_h := 2 |} ] |}.

(** A replica of the same dimensions holding other pixels. *)
Definition small_replica : eq_frame_data :=
  {| vnc_width := 4; vnc_height := 3; canvas := blank_canvas;
     vnc_framebuffer := [1; 2; 3; 4; 5; 6; 7; 8; 9; 10; 11; 12];
     vnc_dirty_rectangles := [] |}.

(** ** Vocabulary of the viewer-loop statements *)



(** The full-extent rectangle of a [width] x [height] desktop. *)
Definition full_rectangle (width height : Z) : rectangle_t :=
  {| r_x := 0; r_y := 0; r_w := width; r_h := height |}.


(** Every update of the sequence reports a rectangle within the desktop
    dimensions current when it arrives, [width] x [height] at the start. *)
Fixpoint updates_in_bounds (evs : list event) (width height : Z) : Prop :=
  match evs with
  | [] => True
  | ev_resize w h :: evs' => updates_in_bounds evs' w h
  | ev_update x y w h :: evs' =>
      rect_in_bounds width height {| r_x := x; r_y := y; r_w := w; r_h := h |}
      /\ updates_in_bounds evs' width height
  | ev_frame _ _ :: evs' => updates_in_bounds evs' width height
  end.

(** ** Vocabulary of the input and drawing statements *)

(** The local key codes the [switch] names. *)
Definition special_keys (K : key_constants) : list Z := map fst (key_cases K).

(** Sample constants in the style of the two headers: local key codes
    counted from 256 in the order of the table, X11 keysym values. *)
Definition sample_keys : key_constants :=
  {| KC_ESCAPE := 256; KC_BACKSPACE := 257; KC_RETURN := 258; KC_TAB := 259;
     KC_HOME := 260; KC_LEFT := 261; KC_UP := 262; KC_RIGHT := 263;
     KC_DOWN := 264; KC_PAGE_UP := 265; KC_PAGE_DOWN := 266; KC_END := 267;
     KC_F1 := 268; KC_F2 := 269; KC_F3 := 270; KC_F4 := 271; KC_F5 := 272;
     KC_F6 := 273; KC_F7 := 274; KC_F8 := 275; KC_F9 := 276; KC_F10 := 277;
     KC_F11 := 278; KC_F12 := 279; KC_F13 := 280; KC_F14 := 281;
     KC_F15 := 282; KC_F16 := 283; KC_F17 := 284; KC_F18 := 285;
     KC_F19 := 286; KC_F20 := 287; KC_F21 := 288; KC_F22 := 289;
     KC_F23 := 290; KC_F24 := 291;
     XK_Escape := 0xff1b; XK_BackSpace := 0xff08; XK_Return := 0xff0d;
     XK_Tab := 0xff09; XK_Home := 0xff50; XK_Left := 0xff51; XK_Up := 0xff52;
     XK_Right := 0xff53; XK_Down := 0xff54; XK_Page_Up := 0xff55;
     XK_Page_Down := 0xff56; XK_End := 0xff57;
     XK_F1 := 0xffbe; XK_F2 := 0xffbf; XK_F3 := 0xffc0; XK_F4 := 0xffc1;
     XK_F5 := 0xffc2; XK_F6 := 0xffc3; XK_F7 := 0xffc4; XK_F8 := 0xffc5;
     XK_F9 := 0xffc6; XK_F10 := 0xffc7; XK_F11 := 0xffc8; XK_F12 := 0xffc9;
     XK_F13 := 0xffca; XK_F14 := 0xffcb; XK_F15 := 0xffcc; XK_F16 := 0xffcd;
     XK_F17 := 0xffce; XK_F18 := 0xffcf; XK_F19 := 0xffd0; XK_F20 := 0xffd1;
     XK_F21 := 0xffd2; XK_F22 := 0xffd3; XK_F23 := 0xffd4; XK_F24 := 0xffd5 |}.

(** The initialisation data of a wall screen with the given corners. *)
Definition wall_init (bl br tl : vec3) : eq_init_data :=
  {| frame_data_id := 0; view_only := false; screen := screen_wall;
     wall := [v0 bl; v1 bl; v2 bl; v0 br; v1 br; v2 br; v0 tl; v1 tl; v2 tl];
     cylinder := []; head_matrix := [] |}.

(** The initialisation data of a cylinder screen. *)
Definition cylinder_init (center up : vec3) (radius phi_center phi_range theta_range : float)
  : eq_init_data :=
  {| frame_data_id := 0; view_only := false; screen := screen_cylinder;
     wall := [];
     cylinder := [v0 center; v1 center; v2 center; v0 up; v1 up; v2 up;
                  radius; phi_center; phi_range; theta_range];
     head_matrix := [] |}.

(** The calls of a drawing that change the model-view transform. *)
Definition is_transform (c : gl_call) : bool :=
  match c with
  | glRotatef _ _ _ _ | glTranslatef _ _ _ | glLoadIdentity => true
  | _ => false
  end.

Definition gl_transforms (calls : list gl_call) : list gl_call :=
  List.filter is_transform calls.

(** The positions of the vertices of a drawing, in order. *)
Definition gl_vertices (calls : list gl_call) : list vec3 :=
  flat_map (fun c => match c with
                     | glVertex3fv v => [v]
                     | glVertex3f x y z => [(x, y, z)]
                     | _ => []
                     end) calls.

(** The rotation of the cylinder branch that takes [(0,1,0)] onto [up]:
    its angle in radians and its axis. *)
Definition up_rotation_angle (M : libm) (up : vec3) : float :=
  m_acos M (fdiv (dot (f0, f1, f0) up)
                 (fsqrt (fmul (dot (f0, f1, f0) (f0, f1, f0)) (dot up up)))).

Definition up_rotation_axis (up : vec3) : vec3 := cross (f0, f1, f0) up.

(** A math library for evaluating examples whose result does not depend
    on it. *)
Definition any_libm : libm :=
  {| m_tan := fun x => x; m_acos := fun x => x; m_cos := fun x => x; m_sin := fun x => x |}.

(** ** The pointer mapping, step by step, as the specification words it *)

(** (1) Position relative to the channel: the pixel position divided by
    the channel's pixel dimension. *)
Definition channel_fraction (pos size : Z) : float :=
  fdiv (float_of_int pos) (float_of_int size).

(** (2) Position relative to the canvas, from the channel's viewport
    offset and extent; the vertical axis is flipped. *)
Definition canvas_fraction_x (vp : Viewport) (cx : float) : float :=
  fadd (vp_x vp) (fmul cx (vp_w vp)).

Definition canvas_fraction_y (vp : Viewport) (cy : float) : float :=
  fsub f1 (fadd (vp_y vp) (fmul (fsub f1 cy) (vp_h vp))).

(** (3) Position relative to the drawing area of the canvas. *)
Definition area_fraction (pos origin extent : float) : float :=
  fdiv (fsub pos origin) extent.

(** (4) Scaling by the desktop dimension. *)
Definition desktop_position (fraction : float) (size : Z) : float :=
  fmul fraction (float_of_int size).

(** (1)-(4) together, for either axis. *)
Definition mapped_x (e : PointerEvent) (pvp : PixelViewport) (vp : Viewport)
    (cv : canvas_t) (vnc_w : Z) : float :=
  desktop_position
    (area_fraction (canvas_fraction_x vp (channel_fraction (pe_x e) (pvp_w pvp)))
                   (canvas2 cv) (canvas4 cv)) vnc_w.

Definition mapped_y (e : PointerEvent) (pvp : PixelViewport) (vp : Viewport)
    (cv : canvas_t) (vnc_h : Z) : float :=
  desktop_position
    (area_fraction (canvas_fraction_y vp (channel_fraction (pe_y e) (pvp_h pvp)))
                   (canvas3 cv) (canvas5 cv)) vnc_h.

(** (5) Clamping into [[lo, hi]]. *)
Definition clamp (lo hi v : Z) : Z := Z.min hi (Z.max lo v).

(** Sample constants of the two button interfaces. *)
Definition sample_buttons : button_constants :=
  {| PTR_BUTTON1 := 1; PTR_BUTTON2 := 2; PTR_BUTTON3 := 4;
     rfbButton1Mask := 1; rfbButton2Mask := 2; rfbButton3Mask := 4;
     rfbWheelUpMask := 8; rfbWheelDownMask := 16 |}.

(** A pointer event in the middle of an 800x600 channel that shows the
    whole canvas, on which an 800x600 desktop is fitted with extent
    1 x 0.75. *)
Definition sample_pointer : PointerEvent :=
  {| pe_x := 400; pe_y := 300; pe_buttons := 1; pe_xAxis := 0; pe_yAxis := 0 |}.

Definition sample_pvp : PixelViewport := {| pvp_x := 0; pvp_y := 0; pvp_w := 800; pvp_h := 600 |}.

Definition sample_vp : Viewport := {| vp_x := f0; vp_y := f0; vp_w := f1; vp_h := f1 |}.

Definition sample_canvas : canvas_t :=
  {| canvas0 := f1; canvas1 := f1; canvas2 := f0;
     canvas3 := S754_finite false 8388608 (-26);
     canvas4 := f1;
     canvas5 := S754_finite false 12582912 (-24) |}.

(** ** Vocabulary of the rounding arguments *)

(** [y] is [x] shifted right by [k] binary digits, together with the
    record of what was shifted out. *)
Definition shifted (k : Z) (x y : shr_record) : Prop :=
  shr_m y = shr_m x / 2 ^ k /\
  (loc_of_shr_record y = loc_Exact <->
   loc_of_shr_record x = loc_Exact /\ shr_m x mod 2 ^ k = 0).

(** The mantissa [m] at exponent [e], with what rounding still has to
    add described by [l], denotes a value of at most one. *)
Definition below_one (m e : Z) (l : location) : Prop :=
  0 <= m /\ e <= -23 /\ m <= 2 ^ (- e) /\ (l <> loc_Exact -> m < 2 ^ (- e)).

(** The aspect ratios of the canvas-fit example: an 800x600 desktop on
    a 16:9 canvas. *)
Definition ar_800_600 : float := fdiv (float_of_int 800) (float_of_int 600).
Definition ar_16_9 : float := fdiv (float_of_int 16) (float_of_int 9).

(** * Further parts of the program *)

(** ** eq_init_data: getInstanceData and applyInstanceData

    The stream of the initialisation data also carries an object
    identifier and a [bool]. *)

Inductive init_value :=
| iv_id (id : Z)
| iv_bool (b : bool)
| iv_datum (d : datum).

Definition init_stream := list init_value.

(** [static_cast<int>(screen)] and back.  An [int] other than 0, 1, 2
    names no enumerator of [screen_t]; the model stops there. *)
Definition int_of_screen (s : screen_t) : Z :=
  match s with screen_canvas => 0 | screen_wall => 1 | screen_cylinder => 2 end.

Definition screen_of_int (x : Z) : option screen_t :=
  if x =? 0 then Some screen_canvas
  else if x =? 1 then Some screen_wall
  else if x =? 2 then Some screen_cylinder
  else None.

(** [os << co::Array<float>(a, n)] *)
Definition write_floats (a : list float) (n : nat) : init_stream :=
  map (fun i => iv_datum (d_float (arr a i))) (seq 0 n).

(** [ins >> co::Array<float>(a, n)] *)
Fixpoint read_floats (n : nat) (ins : init_stream) : option (list float * init_stream) :=
  match n with
  | O => Some ([], ins)
  | Datatypes.S n' =>
      match ins with
      | iv_datum (d_float f) :: ins' =>
          '(fs, rest) ← read_floats n' ins'; Some (f :: fs, rest)
      | _ => None
      end
  end.

Definition init_getInstanceData (init : eq_init_data) (os : init_stream) : init_stream :=
  os ++ [iv_id (frame_data_id init); iv_bool (view_only init);
         iv_datum (d_int (int_of_screen (screen init)))]
     ++ write_floats (wall init) 9
     ++ write_floats (cylinder init) 10
     ++ write_floats (head_matrix init) 16.

Definition init_applyInstanceData (ins : init_stream) : option (eq_init_data * init_stream) :=
  match ins with
  | iv_id id :: iv_bool vo :: iv_datum (d_int x) :: ins =>
      scr ← screen_of_int x;
      '(w, ins) ← read_floats 9 ins;
      '(c, ins) ← read_floats 10 ins;
      '(hm, ins) ← read_floats 16 ins;
      Some ({| frame_data_id := id; view_only := vo; screen := scr;
               wall := w; cylinder := c; head_matrix := hm |}, ins)
  | _ => None
  end.

(** ** eq_config::init *)

(** [for (int i = 0; i < n; i++) dst[i] = src[i];] *)
Definition copy_array (n : nat) (src dst : list float) : list float :=
  fold_left (fun d i => <[i := arr src i]> d) (seq 0 n) dst.

(** [frame_id]: the identifier the frame data got when registered;
    [n_canvases]: [getCanvases().size()]; [base_init]: the result of
    [eq::Config::init].  The result is the return value with the
    initialisation data as the function leaves it. *)
Definition eq_config_init (frame_id : Z) (n_canvases : nat) (base_init : bool)
    (view_only_flag : bool) (scr : screen_t) (screen_def head : list float)
    (init0 : eq_init_data) : bool * eq_init_data :=
  let with_head w c :=
    (base_init,
     {| frame_data_id := frame_id; view_only := view_only_flag; screen := scr;
        wall := w; cylinder := c;
        head_matrix := copy_array 16 head (head_matrix init0) |}) in
  match scr with
  | screen_canvas =>
      if (n_canvases =? 0)%nat
      then (false,
            {| frame_data_id := frame_id; view_only := view_only_flag; screen := scr;
               wall := wall init0; cylinder := cylinder init0;
               head_matrix := head_matrix init0 |})
      else with_head (wall init0) (cylinder init0)
  | screen_wall => with_head (copy_array 9 screen_def (wall init0)) (cylinder init0)
  | screen_cylinder => with_head (wall init0) (copy_array 10 screen_def (cylinder init0))
  end.

(** ** get_lookat *)

(** The head matrix built from the eye and center points and the up
    vector. *)
Definition lookat_matrix (eye center up : vec3) : list float :=
  let view := (fsub (v0 center) (v0 eye), fsub (v1 center) (v1 eye), fsub (v2 center) (v2 eye)) in
  let view_len := length3 view in
  let view := (fdiv (v0 view) view_len, fdiv (v1 view) view_len, fdiv (v2 view) view_len) in
  let s := cross view up in
  let s_len := length3 s in
  let s := (fdiv (v0 s) s_len, fdiv (v1 s) s_len, fdiv (v2 s) s_len) in
  let u := cross s view in
  [ v0 s; v0 u; fneg (v0 view); f0;
    v1 s; v1 u; fneg (v1 view); f0;
    v2 s; v2 u; fneg (v2 view); f0;
    v0 eye; v1 eye; v2 eye; f1 ].

(** [converted]: the values [sscanf] converted from the option, in
    order; the function succeeds when there are nine of them. *)
Definition get_lookat (converted : list float) (head : list float) : bool * list float :=
  match converted with
  | [e0; e1; e2; c0; c1; c2; u0; u1; u2] =>
      (true, lookat_matrix (e0, e1, e2) (c0, c1, c2) (u0, u1, u2))
  | _ => (false, head)
  end.

(** ** eq_window: the texture of a window *)

Record eq_window := { tex : Z; tex_w : Z; tex_h : Z; tex_updated : bool }.

(** [eq_window()]: no texture yet; the size fields are uninitialised. *)
Definition new_window (w h : Z) : eq_window :=
  {| tex := 0; tex_w := w; tex_h := h; tex_updated := false |}.

Inductive tex_pname := GL_TEXTURE_MIN_FILTER | GL_TEXTURE_MAG_FILTER
                     | GL_TEXTURE_WRAP_S | GL_TEXTURE_WRAP_T.
Inductive tex_param := GL_LINEAR | GL_CLAMP_TO_EDGE.

(** The calls of [frameStart], with the arguments that vary. *)
Inductive window_call :=
| w_glGenTextures
| w_glBindTexture (texture : Z)
| w_glTexParameteri (pname : tex_pname) (param : tex_param)
| w_glTexImage2D (width height : Z)
| w_glTexSubImage2D (width height : Z) (pixels : list Z)
| w_eq_Window_frameStart.

(** [gen]: the texture name [glGenTextures] hands out when asked.  The
    upload passes [&(frame_data.vnc_framebuffer[0])], a subscript that is
    out of range when the buffer is empty. *)
Definition eq_window_frameStart (gen : Z) (fd : eq_frame_data) (win : eq_window)
  : option (eq_window * list window_call) :=
  let '(win, calls) :=
    if (tex win =? 0) || negb (tex_w win =? vnc_width fd) || negb (tex_h win =? vnc_height fd)
    then
      let '(t, calls) := if tex win =? 0 then (gen, [w_glGenTextures]) else (tex win, []) in
      ({| tex := t; tex_w := vnc_width fd; tex_h := vnc_height fd; tex_updated := false |},
       calls ++ [ w_glBindTexture t;
                  w_glTexParameteri GL_TEXTURE_MIN_FILTER GL_LINEAR;
                  w_glTexParameteri GL_TEXTURE_MAG_FILTER GL_LINEAR;
                  w_glTexParameteri GL_TEXTURE_WRAP_S GL_CLAMP_TO_EDGE;
                  w_glTexParameteri GL_TEXTURE_WRAP_T GL_CLAMP_TO_EDGE;
                  w_glTexImage2D (vnc_width fd) (vnc_height fd) ])
    else (win, []) in
  let calls := calls ++ [w_glBindTexture (tex win)] in
  '(win, calls) ←
    (if negb (tex_updated win)
     then _ ← vec_get (vnc_framebuffer fd) 0;
          Some ({| tex := tex win; tex_w := tex_w win; tex_h := tex_h win;
                   tex_updated := true |},
                calls ++ [w_glTexSubImage2D (vnc_width fd) (vnc_height fd)
                            (vnc_framebuffer fd)])
     else Some (win, calls));
  Some (win, calls ++ [w_eq_Window_frameStart]).

Definition eq_window_frameFinish (win : eq_window) : eq_window :=
  {| tex := tex win; tex_w := tex_w win; tex_h := tex_h win; tex_updated := false |}.

(** ** Vocabulary of the further statements *)

Definition is_upload (c : window_call) : bool :=
  match c with w_glTexSubImage2D _ _ _ => true | _ => false end.

Definition is_allocation (c : window_call) : bool :=
  match c with w_glTexImage2D _ _ | w_glGenTextures => true | _ => false end.

Definition is_pointer_message (m : vnc_message) : bool :=
  match m with SendPointerEvent _ _ _ => true | _ => false end.

Definition is_zero (x : float) : Prop :=
  match x with S754_zero _ => True | _ => False end.

(** Neither an infinity nor a NaN. *)
Definition is_finite (x : float) : Prop :=
  match x with S754_zero _ | S754_finite _ _ _ => True | _ => False end.

(** The five button masks share no bit. *)
Definition disjoint_masks (B : button_constants) : Prop :=
  let ms := [rfbButton1Mask B; rfbButton2Mask B; rfbButton3Mask B;
             rfbWheelUpMask B; rfbWheelDownMask B] in
  forall i j, (i < j < 5)%nat -> Z.land (nth i ms 0) (nth j ms 0) = 0.

(** Events a remote-desktop source with a desktop of representable size
    produces: resizes to positive dimensions whose product is an [int]
    (a desktop of at least one pixel), updates with [int] fields. *)
Definition event_wf (ev : event) : Prop :=
  match ev with
  | ev_resize w h => 1 <= w <= int_max /\ 1 <= h <= int_max /\ w * h <= int_max
  | ev_update x y w h => rect_is_int {| r_x := x; r_y := y; r_w := w; r_h := h |}
  | ev_frame _ _ => True
  end.

(** The number of values of a snapshot: nine for the header, four and
    the pixels for each rectangle. *)
Definition snapshot_size (rs : list rectangle_t) : nat :=
  9 + list_sum (map (fun r => 4 + Z.to_nat (r_w r * r_h r))%nat rs).

(** A 4x4 frame state whose dirty rectangle reaches below the desktop. *)
Definition overhanging_frame : eq_frame_data :=
  {| vnc_width := 4; vnc_height := 4; canvas := blank_canvas;
     vnc_framebuffer := repeat 0 16;
     vnc_dirty_rectangles := [ {| r_x := 2; r_y := 2; r_w := 5; r_h := 5 |} ] |}.

(** The 4x3 sample right after a resize: the whole desktop is dirty. *)
Definition resized_frame : eq_frame_data :=
  {| vnc_width := 4; vnc_height := 3; canvas := blank_canvas;
     vnc_framebuffer := [11; 12; 13; 14; 21; 22; 23; 24; 31; 32; 33; 34];
     vnc_dirty_rectangles := [ full_rectangle 4 3; {| r_x := 1; r_y := 1; r_w := 2; r_h := 1 |} ] |}.

(** A replica of other dimensions. *)
Definition stale_replica : eq_frame_data :=
  {| vnc_width := 2; vnc_height := 2; canvas := blank_canvas;
     vnc_framebuffer := [1; 2; 3; 4];
     vnc_dirty_rectangles := [] |}.

(** Initialisation data with arrays of the right sizes, and a screen
    definition: the unit wall, read as a cylinder its center is the
    origin. *)
Definition blank_init : eq_init_data :=
  {| frame_data_id := 0; view_only := false; screen := screen_canvas;
     wall := repeat f0 9; cylinder := repeat f0 10; head_matrix := repeat f0 16 |}.

Definition sample_screen_def : list float := [f0; f0; f0; f1; f0; f0; f0; f1; f0; f2].

(** A pointer event with the first button down and the wheel turned
    both ways at once. *)
Definition wheel_pointer : PointerEvent :=
  {| pe_x := 1000; pe_y := -3; pe_buttons := 1; pe_xAxis := 1; pe_yAxis := -1 |}.

Definition pointer_event_sample : ConfigEvent :=
  {| ce_type := CHANNEL_POINTER_WHEEL; ce_key := 0; ce_pointer := wheel_pointer;
     ce_pvp := sample_pvp; ce_vp := sample_vp |}.

(** An 800x600 frame state with the canvas fit of [sample_canvas]. *)
Definition pointer_frame : eq_frame_data :=
  {| vnc_width := 800; vnc_height := 600; canvas := sample_canvas;
     vnc_framebuffer := []; vnc_dirty_rectangles := [] |}.

(** Zero, a positive finite value or positive infinity: not negative, not
    NaN. *)
Definition nonneg_float (x : float) : Prop :=
  match x with
  | S754_zero false | S754_finite false _ _ | S754_infinity false => True
  | _ => False
  end.

(** Zero or a positive finite value of at most one, read on mantissa and
    exponent. *)
Definition unit_float (x : float) : Prop :=
  match x with
  | S754_zero false => True
  | S754_finite false m e => e <= -23 /\ Zpos m <= 2 ^ (- e)
  | _ => False
  end.

(** The remote symbols of the key table, in source order. *)
Definition remote_symbols (K : key_constants) : list Z := map snd (key_cases K).

(** A key code the translation is meant for: a special key, or a code
    that is not itself the value of a remote symbol of the table. *)
Definition plain_or_special (K : key_constants) (key : Z) : Prop :=
  In key (special_keys K) \/ ~ In key (remote_symbols K).

(** The positions of the two-dimensional vertices of a drawing, in order. *)
Definition gl_vertices2 (calls : list gl_call) : list (float * float) :=
  flat_map (fun c => match c with glVertex2f x y => [(x, y)] | _ => [] end) calls.

(** The viewport of a channel that shows the whole canvas. *)
Definition whole_canvas : Viewport := {| vp_x := f0; vp_y := f0; vp_w := f1; vp_h := f1 |}.

(** * Theorems *)

(** ** Integers *)

Lemma wrap32_id z : int_range z -> wrap32 z = z.
Proof.
  unfold int_range, int_min, int_max, wrap32. intros Hz.
  rewrite Z.mod_small; lia.
Qed.

Lemma int_add_id a b : int_range (a + b) -> int_add a b = a + b.
Proof. apply wrap32_id. Qed.

Lemma int_mul_id a b : int_range (a * b) -> int_mul a b = a * b.
Proof. apply wrap32_id. Qed.

Lemma int_sub_id a b : int_range (a - b) -> int_sub a b = a - b.
Proof. apply wrap32_id. Qed.

(** The buffer index of an in-range pixel needs no wrap-around. *)
Lemma pixel_index_range width height x y :
  0 <= width -> width * height <= int_max ->
  0 <= x < width -> 0 <= y < height ->
  0 <= y * width + x < width * height /\ int_range (y * width) /\ int_range (y * width + x).
Proof.
  intros Hw Hwh Hx Hy.
  assert (0 <= y * width) by nia.
  assert (y * width + x < width * height) by nia.
  unfold int_range, int_min, int_max in *. lia.
Qed.

Lemma pixel_index_id width height x y :
  0 <= width -> width * height <= int_max ->
  0 <= x < width -> 0 <= y < height ->
  int_add (int_mul y width) x = y * width + x.
Proof.
  intros Hw Hwh Hx Hy.
  destruct (pixel_index_range width height x y) as (_ & H1 & H2); try assumption.
  rewrite int_mul_id by assumption. now rewrite int_add_id.
Qed.

(** ** Counted loops *)

Lemma zseq_S lo n : zseq lo (S n) = lo :: zseq (lo + 1) n.
Proof.
  unfold zseq. cbn [seq map]. f_equal; [lia|].
  rewrite <- seq_shift, map_map. apply map_ext. intros k. lia.
Qed.

Lemma in_zseq lo n z : In z (zseq lo n) <-> lo <= z < lo + Z.of_nat n.
Proof.
  unfold zseq. rewrite in_map_iff. split.
  - intros (k & <- & Hk). apply in_seq in Hk. lia.
  - intros Hz. exists (Z.to_nat (z - lo)). split; [lia|]. apply in_seq. lia.
Qed.

Lemma length_zseq lo n : length (zseq lo n) = n.
Proof. unfold zseq. now rewrite length_map, length_seq. Qed.

(** A loop whose body appends to an output stream appends the
    concatenation of what the iterations append. *)
Lemma for_loop_append {A} (f : Z -> list A) body n : forall lo os,
  (forall i os', lo <= i < lo + Z.of_nat n -> body i os' = Some (os' ++ f i)) ->
  for_loop n lo body os = Some (os ++ flat_map f (zseq lo n)).
Proof.
  induction n as [|n IH]; intros lo os Hbody.
  - cbn. now rewrite app_nil_r.
  - rewrite zseq_S. cbn [for_loop flat_map]. rewrite Hbody by lia.
    rewrite IH.
    + now rewrite <- app_assoc.
    + intros i os' Hi. apply Hbody. lia.
Qed.

(** ** List and loop facts used by both directions *)

Lemma flat_map_single {A B} (g : A -> B) l : flat_map (fun a => [g a]) l = map g l.
Proof. induction l; cbn; congruence. Qed.

Lemma map_flat_map {A B C} (g : B -> C) (f : A -> list B) l :
  map g (flat_map f l) = flat_map (fun a => map g (f a)) l.
Proof. induction l as [|a l IH]; cbn; [reflexivity|]. now rewrite map_app, IH. Qed.

Lemma fold_left_flat_map {A B C} (f : A -> B -> A) (g : C -> list B) l : forall a,
  fold_left f (flat_map g l) a = fold_left (fun a c => fold_left f (g c) a) l a.
Proof.
  induction l as [|c l IH]; intros a; cbn; [reflexivity|].
  now rewrite fold_left_app, IH.
Qed.

Lemma fold_left_map {A B C} (f : A -> B -> A) (g : C -> B) l : forall a,
  fold_left f (map g l) a = fold_left (fun a c => f a (g c)) l a.
Proof. induction l as [|c l IH]; intros a; cbn; [reflexivity|]. apply IH. Qed.

Lemma fold_left_ext {A B} (f g : A -> B -> A) l :
  (forall a b, f a b = g a b) -> forall a, fold_left f l a = fold_left g l a.
Proof.
  intros Hfg. induction l as [|b l IH]; intros a; cbn; [reflexivity|].
  now rewrite Hfg, IH.
Qed.

(** A loop whose body consumes a segment of the input and updates the
    state runs as the fold of the updates over the consumed segments. *)
Lemma for_loop_consume {A T} (g : Z -> list T) (h : Z -> A -> A) (Inv : A -> Prop)
    (body : Z -> A * list T -> option (A * list T)) n : forall lo a rest,
  Inv a ->
  (forall i a' rest', lo <= i < lo + Z.of_nat n -> Inv a' ->
     body i (a', g i ++ rest') = Some (h i a', rest') /\ Inv (h i a')) ->
  for_loop n lo body (a, flat_map g (zseq lo n) ++ rest)
  = Some (fold_left (fun a i => h i a) (zseq lo n) a, rest)
  /\ Inv (fold_left (fun a i => h i a) (zseq lo n) a).
Proof.
  induction n as [|n IH]; intros lo a rest Ha Hbody.
  - cbn. auto.
  - rewrite zseq_S. cbn [for_loop flat_map fold_left].
    destruct (Hbody lo a (flat_map g (zseq (lo + 1) n) ++ rest)) as [E Ha']; [lia|assumption|].
    rewrite <- app_assoc, E. apply IH; [assumption|].
    intros i a' rest' Hi. apply Hbody. lia.
Qed.

Lemma vec_get_nth (v : list Z) i :
  0 <= i < Z.of_nat (length v) -> vec_get v i = Some (nth (Z.to_nat i) v 0).
Proof.
  intros Hi. unfold vec_get.
  destruct (i <? 0) eqn:E; [lia|].
  destruct (lookup_lt_is_Some_2 v (Z.to_nat i)) as [p Hp]; [lia|].
  rewrite Hp. f_equal. symmetry. now apply nth_lookup_Some.
Qed.

Lemma rect_loop_bounds width height r :
  0 <= width <= int_max -> 0 <= height <= int_max ->
  rect_is_int r -> rect_in_bounds width height r ->
  int_add (r_x r) (r_w r) = r_x r + r_w r /\ int_add (r_y r) (r_h r) = r_y r + r_h r.
Proof.
  intros Hw Hh (Hx & Hy & Hrw & Hrh) (Hx0 & Hy0 & Hxw & Hyh).
  unfold int_range, int_min, int_max in *.
  split; apply int_add_id; unfold int_range, int_min, int_max; lia.
Qed.

Lemma get_pixel_ok width height src fb rest x y :
  0 <= width -> width * height <= int_max ->
  0 <= x < width -> 0 <= y < height ->
  length fb = Z.to_nat (width * height) ->
  let i := Z.to_nat (y * width + x) in
  get_pixel width y x (fb, [d_uint (nth i src 0)] ++ rest)
  = Some (<[i := nth i src 0]> fb, rest).
Proof.
  intros Hw Hwh Hx Hy Hlen i. unfold get_pixel. cbn.
  rewrite (pixel_index_id _ height) by lia.
  destruct (pixel_index_range width height x y) as (Hi & _); try lia.
  unfold vec_set.
  replace ((0 <=? y * width + x) && (y * width + x <? Z.of_nat (length fb))) with true.
  - reflexivity.
  - symmetry. apply andb_true_iff. split; [apply Z.leb_le|apply Z.ltb_lt]; lia.
Qed.

(** ** Snapshots of a well-formed frame state *)

Section Snapshot.

(** The authoritative frame state at commit time. *)
Variable src : eq_frame_data.
Hypothesis src_wf : frame_wf src.

(** *** Serialization: [getInstanceData] *)

Lemma put_pixel_ok y x os :
  0 <= x < vnc_width src -> 0 <= y < vnc_height src ->
  put_pixel src y x os
  = Some (os ++ [d_uint (nth (Z.to_nat (y * vnc_width src + x)) (vnc_framebuffer src) 0)]).
Proof.
  destruct src_wf as (Hw & Hh & Hwh & Hlen & _). intros Hx Hy. unfold put_pixel.
  rewrite (pixel_index_id _ (vnc_height src)) by lia.
  destruct (pixel_index_range (vnc_width src) (vnc_height src) x y) as (Hi & _); try lia.
  rewrite vec_get_nth by lia. reflexivity.
Qed.

Lemma put_rectangle_ok os r :
  rect_is_int r -> rect_in_bounds (vnc_width src) (vnc_height src) r ->
  put_rectangle src os r = Some (os ++ encode_rect src r).
Proof.
  intros Hint Hin.
  destruct (rect_loop_bounds (vnc_width src) (vnc_height src) r) as [Ex Ey];
    try assumption; try apply src_wf.
  destruct Hin as (Hx0 & Hy0 & Hxw & Hyh).
  unfold put_rectangle, for_range. rewrite Ex, Ey.
  replace (r_y r + r_h r - r_y r) with (r_h r) by lia.
  replace (r_x r + r_w r - r_x r) with (r_w r) by lia.
  rewrite (for_loop_append
             (fun y => map d_uint
                (map (fun x => nth (Z.to_nat (y * vnc_width src + x)) (vnc_framebuffer src) 0)
                     (zseq (r_x r) (Z.to_nat (r_w r)))))).
  - unfold encode_rect, rect_pixels. rewrite <- app_assoc. do 2 f_equal.
    now rewrite map_flat_map.
  - intros y os' Hy.
    rewrite (for_loop_append
               (fun x => [d_uint (nth (Z.to_nat (y * vnc_width src + x)) (vnc_framebuffer src) 0)])).
    + now rewrite flat_map_single, map_map.
    + intros x os'' Hx. apply put_pixel_ok; lia.
Qed.

Lemma put_rectangles_ok rs : forall os,
  Forall rect_is_int rs ->
  Forall (rect_in_bounds (vnc_width src) (vnc_height src)) rs ->
  put_rectangles src rs os = Some (os ++ flat_map (encode_rect src) rs).
Proof.
  induction rs as [|r rs IH]; intros os Hint Hin; cbn [put_rectangles flat_map].
  - now rewrite app_nil_r.
  - inversion Hint; inversion Hin; subst.
    rewrite put_rectangle_ok by assumption.
    rewrite IH by assumption. now rewrite <- app_assoc.
Qed.

Lemma getInstanceData_ok os :
  dirty_in_bounds src -> getInstanceData src os = Some (os ++ encode_frame src).
Proof.
  intros Hin. unfold getInstanceData.
  rewrite put_rectangles_ok; try assumption; [|apply src_wf].
  unfold encode_frame. now rewrite <- !app_assoc.
Qed.

(** *** Deserialization: [applyInstanceData] *)

Lemma get_rectangle_ok fb rest r :
  rect_is_int r -> rect_in_bounds (vnc_width src) (vnc_height src) r ->
  length fb = length (vnc_framebuffer src) ->
  get_rectangle (vnc_width src) (fb, encode_rect src r ++ rest)
  = Some (copy_indices (vnc_framebuffer src) (rect_indices (vnc_width src) r) fb, rest)
  /\ length (copy_indices (vnc_framebuffer src) (rect_indices (vnc_width src) r) fb)
     = length (vnc_framebuffer src).
Proof.
  intros Hint Hin Hlen.
  destruct (rect_loop_bounds (vnc_width src) (vnc_height src) r) as [Ex Ey];
    try assumption; try apply src_wf.
  destruct src_wf as (Hw & Hh & Hwh & Hsrc & _).
  destruct Hin as (Hx0 & Hy0 & Hxw & Hyh).
  set (W := vnc_width src) in *. set (sfb := vnc_framebuffer src) in *.
  set (ins1 := fun (i : nat) (a : list Z) => <[i := nth i sfb 0]> a).
  set (row := fun (y : Z) (a : list Z) =>
                fold_left (fun a x => ins1 (Z.to_nat (y * W + x)) a)
                          (zseq (r_x r) (Z.to_nat (r_w r))) a).
  assert (Hcopy : forall a, copy_indices sfb (rect_indices W r) a
                 = fold_left (fun a y => row y a) (zseq (r_y r) (Z.to_nat (r_h r))) a).
  { intros a. unfold copy_indices, rect_indices. rewrite fold_left_flat_map.
    apply fold_left_ext. intros a' y. now rewrite fold_left_map. }
  rewrite !Hcopy.
  unfold get_rectangle, encode_rect, rect_pixels, for_range.
  cbn [app read_int mbind option_bind].
  rewrite Ex, Ey.
  replace (r_y r + r_h r - r_y r) with (r_h r) by lia.
  replace (r_x r + r_w r - r_x r) with (r_w r) by lia.
  rewrite map_flat_map.
  apply (for_loop_consume _ row (fun a => length a = length sfb)); [assumption|].
  intros y a rest' Hy Ha.
  rewrite map_map, <- flat_map_single.
  apply (for_loop_consume (fun x => [d_uint (nth (Z.to_nat (y * W + x)) sfb 0)])
           (fun x a => ins1 (Z.to_nat (y * W + x)) a)
           (fun a => length a = length sfb)); [assumption|].
  intros x a' rest'' Hx Ha'. split.
  - apply (get_pixel_ok W (vnc_height src)); lia.
  - unfold ins1. now rewrite length_insert.
Qed.

Lemma get_rectangles_ok rs : forall fb rest,
  Forall rect_is_int rs ->
  Forall (rect_in_bounds (vnc_width src) (vnc_height src)) rs ->
  length fb = length (vnc_framebuffer src) ->
  get_rectangles (vnc_width src) (length rs) (fb, flat_map (encode_rect src) rs ++ rest)
  = Some (copy_indices (vnc_framebuffer src)
            (flat_map (rect_indices (vnc_width src)) rs) fb, rest).
Proof.
  induction rs as [|r rs IH]; intros fb rest Hint Hin Hlen.
  - reflexivity.
  - inversion Hint; inversion Hin; subst.
    cbn [length get_rectangles flat_map]. rewrite <- app_assoc.
    destruct (get_rectangle_ok fb (flat_map (encode_rect src) rs ++ rest) r)
      as [E Hlen']; try assumption.
    rewrite E, IH by assumption.
    unfold copy_indices. now rewrite fold_left_app.
Qed.

(** A replica applies the snapshot: it takes over the dimensions and the
    canvas, reallocates its buffer when the dimensions differ from its
    own, and copies the transmitted positions. *)
Lemma applyInstanceData_ok rep rest :
  dirty_in_bounds src ->
  (vnc_width src = vnc_width rep -> vnc_height src = vnc_height rep ->
   length (vnc_framebuffer rep) = length (vnc_framebuffer src)) ->
  exists fb0,
    length fb0 = length (vnc_framebuffer src) /\
    (vnc_width src = vnc_width rep -> vnc_height src = vnc_height rep ->
     fb0 = vnc_framebuffer rep) /\
    applyInstanceData rep (encode_frame src ++ rest)
    = Some ({| vnc_width := vnc_width src; vnc_height := vnc_height src;
               canvas := canvas src;
               vnc_framebuffer :=
                 copy_indices (vnc_framebuffer src)
                   (flat_map (rect_indices (vnc_width src)) (vnc_dirty_rectangles src)) fb0;
               vnc_dirty_rectangles := vnc_dirty_rectangles rep |}, rest).
Proof.
  intros Hin Hsame.
  pose proof src_wf as (Hw & Hh & Hwh & Hlen & Hint).
  assert (Hmul : int_mul (vnc_width src) (vnc_height src) = vnc_width src * vnc_height src).
  { apply int_mul_id. unfold int_range, int_min. nia. }
  set (differ := negb (vnc_width src =? vnc_width rep) || negb (vnc_height src =? vnc_height rep)).
  exists (if differ
          then resize (Z.to_nat (vnc_width src * vnc_height src)) 0 (vnc_framebuffer rep)
          else vnc_framebuffer rep).
  assert (Hlen0 : length (if differ
          then resize (Z.to_nat (vnc_width src * vnc_height src)) 0 (vnc_framebuffer rep)
          else vnc_framebuffer rep) = length (vnc_framebuffer src)).
  { destruct differ eqn:E.
    - now rewrite length_resize.
    - apply orb_false_elim in E as [E1 E2].
      apply negb_false_iff, Z.eqb_eq in E1, E2. auto. }
  split; [exact Hlen0|]. split.
  - intros E1 E2. subst differ. rewrite E1, E2, !Z.eqb_refl. reflexivity.
  - unfold applyInstanceData, encode_frame.
    cbn [app read_int mbind option_bind]. fold differ.
    rewrite Hmul. unfold vec_resize.
    destruct (vnc_width src * vnc_height src <? 0) eqn:En; [nia|].
    destruct (canvas src) as [a0 a1 a2 a3 a4 a5].
    destruct differ;
      cbn [write_canvas canvas0 canvas1 canvas2 canvas3 canvas4 canvas5 app
           read_canvas read_float read_size mbind option_bind];
      rewrite get_rectangles_ok by assumption; reflexivity.
Qed.

End Snapshot.

(** ** Positions written by a snapshot *)

Lemma length_copy_indices src idx : forall fb,
  length (copy_indices src idx fb) = length fb.
Proof.
  unfold copy_indices. induction idx as [|i idx IH]; intros fb; cbn; [reflexivity|].
  now rewrite IH, length_insert.
Qed.

Lemma copy_indices_other src idx j : forall fb,
  ~ In j idx -> copy_indices src idx fb !! j = fb !! j.
Proof.
  unfold copy_indices. induction idx as [|i idx IH]; intros fb Hj; cbn; [reflexivity|].
  rewrite IH by (intros ?; apply Hj; now right).
  apply list_lookup_insert_ne. intros ->. apply Hj. now left.
Qed.

Lemma copy_indices_stable src idx j : forall fb,
  fb !! j = Some (nth j src 0) ->
  copy_indices src idx fb !! j = Some (nth j src 0).
Proof.
  unfold copy_indices. induction idx as [|i idx IH]; intros fb Hj; cbn; [assumption|].
  apply IH. destruct (Nat.eq_dec i j) as [->|Hne].
  - apply list_lookup_insert_eq. now apply lookup_lt_Some in Hj.
  - now rewrite list_lookup_insert_ne.
Qed.

Lemma copy_indices_written src idx j : forall fb,
  In j idx -> (j < length fb)%nat ->
  copy_indices src idx fb !! j = Some (nth j src 0).
Proof.
  induction idx as [|i idx IH]; intros fb Hin Hj; [destruct Hin|].
  destruct (Nat.eq_dec i j) as [->|Hne].
  - change (copy_indices src (j :: idx) fb) with (copy_indices src idx (<[j := nth j src 0]> fb)).
    apply copy_indices_stable. now apply list_lookup_insert_eq.
  - destruct Hin as [->|Hin]; [congruence|].
    change (copy_indices src (i :: idx) fb) with (copy_indices src idx (<[i := nth i src 0]> fb)).
    apply IH; [assumption|]. now rewrite length_insert.
Qed.

Lemma in_rect_indices width r i :
  In i (rect_indices width r) <->
  exists x y, r_x r <= x < r_x r + Z.max 0 (r_w r) /\
              r_y r <= y < r_y r + Z.max 0 (r_h r) /\ i = Z.to_nat (y * width + x).
Proof.
  unfold rect_indices. rewrite in_flat_map. split.
  - intros (y & Hy & Hi). apply in_map_iff in Hi as (x & <- & Hx).
    apply in_zseq in Hy, Hx. exists x, y. repeat split; lia.
  - intros (x & y & Hx & Hy & ->). exists y. split.
    + apply in_zseq. lia.
    + apply in_map_iff. exists x. split; [reflexivity|]. apply in_zseq. lia.
Qed.

Lemma covers_in_rect_indices width r x y :
  covers r x y -> In (Z.to_nat (y * width + x)) (rect_indices width r).
Proof.
  intros [Hx Hy]. apply in_rect_indices. exists x, y. repeat split; lia.
Qed.

(** Distinct pixels of the desktop have distinct buffer positions. *)
Lemma pixel_index_inj width x y x' y' :
  0 <= x < width -> 0 <= x' < width -> 0 <= y -> 0 <= y' ->
  Z.to_nat (y * width + x) = Z.to_nat (y' * width + x') -> x = x' /\ y = y'.
Proof.
  intros Hx Hx' Hy Hy' E.
  assert (E' : y * width + x = y' * width + x') by nia.
  assert (y = y') by nia. subst. lia.
Qed.

Lemma vec_get_lookup {A} (v : list A) i : 0 <= i -> vec_get v i = v !! Z.to_nat i.
Proof. intros Hi. unfold vec_get. destruct (i <? 0) eqn:E; [lia|reflexivity]. Qed.

(** ** Row-major order *)



Lemma length_rows {A B} (f : A -> list B) n ys :
  (forall y, length (f y) = n) -> length (flat_map f ys) = (length ys * n)%nat.
Proof.
  intros Hf. induction ys as [|y ys IH]; cbn; [reflexivity|].
  now rewrite length_app, Hf, IH.
Qed.

Lemma length_rect_pixels fd r :
  rect_nonneg r -> length (rect_pixels fd r) = Z.to_nat (r_w r * r_h r).
Proof.
  intros [Hw Hh]. unfold rect_pixels.
  rewrite (length_rows _ (Z.to_nat (r_w r))).
  - rewrite length_zseq. nia.
  - intros y. now rewrite length_map, length_zseq.
Qed.



(** Closes the side conditions of the statements at a concrete frame state. *)
Ltac frame_facts :=
  unfold frame_wf, dirty_in_bounds, rect_is_int, rect_in_bounds, rect_nonneg, int_range;
  repeat first [ split | apply List.Forall_cons | apply List.Forall_nil ];
  vm_compute; first [ reflexivity | discriminate ].


(** ** Replication *)

Lemma covered_pixel_range fd r x y :
  rect_in_bounds (vnc_width fd) (vnc_height fd) r -> covers r x y ->
  0 <= x < vnc_width fd /\ 0 <= y < vnc_height fd.
Proof. unfold rect_in_bounds, covers. lia. Qed.

(** C1: a fresh replica that applies the snapshot of a frame state whose
    dirty rectangles lie within the desktop takes over its dimensions and
    agrees with the authoritative buffer on every pixel covered by a
    transmitted rectangle. *)
Theorem replicate_round_trip (fd : eq_frame_data) (c : canvas_t) :
  frame_wf fd -> dirty_in_bounds fd ->
  exists bytes rep,
    getInstanceData fd [] = Some bytes /\
    applyInstanceData (new_frame_data c) bytes = Some (rep, []) /\
    vnc_width rep = vnc_width fd /\ vnc_height rep = vnc_height fd /\
    length (vnc_framebuffer rep) = length (vnc_framebuffer fd) /\
    forall r x y, In r (vnc_dirty_rectangles fd) -> covers r x y ->
      exists p, pixel_at (vnc_width fd) (vnc_framebuffer fd) x y = Some p /\
                pixel_at (vnc_width rep) (vnc_framebuffer rep) x y = Some p.
Proof.
  intros Hwf Hin.
  destruct (applyInstanceData_ok fd Hwf (new_frame_data c) [] Hin) as (fb0 & Hlen0 & _ & Happly).
  { cbn. intros E1 E2. destruct Hwf as (_ & _ & _ & Hl & _). rewrite Hl, E1, E2. reflexivity. }
  rewrite app_nil_r in Happly.
  eexists. eexists. split; [apply getInstanceData_ok; assumption|].
  split; [exact Happly|]. cbn [vnc_width vnc_height vnc_framebuffer].
  split; [reflexivity|]. split; [reflexivity|].
  split; [now rewrite length_copy_indices|].
  intros r x y Hr Hc.
  pose proof (proj1 (List.Forall_forall _ _) Hin r Hr) as Hr_in. cbv beta in Hr_in.
  destruct (covered_pixel_range fd r x y Hr_in Hc) as [Hx Hy].
  pose proof Hwf as (HW & HH & HWH & Hlen & _).
  destruct (pixel_index_range (vnc_width fd) (vnc_height fd) x y) as (Hi & _); try lia.
  exists (nth (Z.to_nat (y * vnc_width fd + x)) (vnc_framebuffer fd) 0).
  unfold pixel_at. split; [apply vec_get_nth; lia|].
  rewrite vec_get_lookup by lia.
  apply copy_indices_written.
  - apply in_flat_map. exists r. split; [assumption|]. now apply covers_in_rect_indices.
  - lia.
Qed.

Lemma replicate_round_trip_witness :
  frame_wf small_frame /\ dirty_in_bounds small_frame /\
  exists bytes rep,
    getInstanceData small_frame [] = Some bytes /\
    applyInstanceData (new_frame_data blank_canvas) bytes = Some (rep, []) /\
    vnc_width rep = 4 /\ vnc_height rep = 3 /\
    length (vnc_framebuffer rep) = 12%nat /\
    forall r x y, In r (vnc_dirty_rectangles small_frame) -> covers r x y ->
      exists p, pixel_at 4 (vnc_framebuffer small_frame) x y = Some p /\
                pixel_at (vnc_width rep) (vnc_framebuffer rep) x y = Some p.
Proof.
  assert (H1 : frame_wf small_frame) by frame_facts.
  assert (H2 : dirty_in_bounds small_frame) by frame_facts.
  split; [exact H1|]. split; [exact H2|].
  exact (replicate_round_trip small_frame blank_canvas H1 H2).
Defined.

(** C10: when the snapshot has the dimensions of the replica and its
    rectangles lie within them, [applyInstanceData] keeps the length of
    the replica's buffer and every pixel that no transmitted rectangle
    covers. *)
Theorem applyInstanceData_frame (rep src : eq_frame_data) :
  frame_wf src -> dirty_in_bounds src ->
  vnc_width src = vnc_width rep -> vnc_height src = vnc_height rep ->
  length (vnc_framebuffer rep) = Z.to_nat (vnc_width rep * vnc_height rep) ->
  exists snapshot rep',
    getInstanceData src [] = Some snapshot /\
    applyInstanceData rep snapshot = Some (rep', []) /\
    length (vnc_framebuffer rep') = length (vnc_framebuffer rep) /\
    forall x y, 0 <= x < vnc_width rep -> 0 <= y < vnc_height rep ->
      (forall r, In r (vnc_dirty_rectangles src) -> ~ covers r x y) ->
      pixel_at (vnc_width rep') (vnc_framebuffer rep') x y
      = pixel_at (vnc_width rep) (vnc_framebuffer rep) x y.
Proof.
  intros Hwf Hin EW EH Hlen.
  pose proof Hwf as (HW & HH & HWH & Hsrc & _).
  assert (Hsame : length (vnc_framebuffer rep) = length (vnc_framebuffer src))
    by (rewrite Hlen, Hsrc, EW, EH; reflexivity).
  destruct (applyInstanceData_ok src Hwf rep [] Hin) as (fb0 & Hlen0 & Hfb0 & Happly);
    [auto|].
  rewrite app_nil_r, (Hfb0 EW EH) in Happly.
  eexists. eexists. split; [apply getInstanceData_ok; assumption|].
  split; [exact Happly|]. cbn [vnc_width vnc_framebuffer].
  split; [now rewrite length_copy_indices|].
  intros x y Hx Hy Hout. rewrite <- EW in *. rewrite <- EH in *.
  destruct (pixel_index_range (vnc_width src) (vnc_height src) x y) as (Hi & _); try lia.
  unfold pixel_at. rewrite !vec_get_lookup by lia.
  apply copy_indices_other. intros Hi_in.
  apply in_flat_map in Hi_in as (r & Hr & Hi_in).
  apply in_rect_indices in Hi_in as (x' & y' & Hx' & Hy' & E).
  pose proof (proj1 (List.Forall_forall _ _) Hin r Hr) as (Hx0 & Hy0 & Hxw & Hyh).
  destruct (pixel_index_inj (vnc_width src) x y x' y') as [-> ->]; try lia.
  apply (Hout r Hr). unfold covers. lia.
Qed.

Lemma applyInstanceData_frame_witness :
  frame_wf small_frame /\ dirty_in_bounds small_frame /\
  exists snapshot rep',
    getInstanceData small_frame [] = Some snapshot /\
    applyInstanceData small_replica snapshot = Some (rep', []) /\
    length (vnc_framebuffer rep') = 12%nat /\
    forall x y, 0 <= x < 4 -> 0 <= y < 3 ->
      (forall r, In r (vnc_dirty_rectangles small_frame) -> ~ covers r x y) ->
      pixel_at (vnc_width rep') (vnc_framebuffer rep') x y
      = pixel_at 4 (vnc_framebuffer small_replica) x y.
Proof.
  assert (H1 : frame_wf small_frame) by frame_facts.
  assert (H2 : dirty_in_bounds small_frame) by frame_facts.
  split; [exact H1|]. split; [exact H2|].
  exact (applyInstanceData_frame small_replica small_frame H1 H2
           eq_refl eq_refl eq_refl).
Defined.

(** ** The viewer loop: dirty rectangles *)

Lemma startFrame_fields screen ww wh fd :
  vnc_width (startFrame screen ww wh fd) = vnc_width fd /\
  vnc_height (startFrame screen ww wh fd) = vnc_height fd /\
  vnc_framebuffer (startFrame screen ww wh fd) = vnc_framebuffer fd /\
  vnc_dirty_rectangles (startFrame screen ww wh fd) = vnc_dirty_rectangles fd.
Proof.
  unfold startFrame. destruct screen; repeat split; reflexivity.
Qed.


Lemma vec_get_resize_0 (fb : list Z) (n : Z) :
  0 < n -> is_Some (vec_get (resize (Z.to_nat n) 0 fb) 0).
Proof.
  intros Hn. unfold vec_get. cbn.
  destruct (Z.to_nat n) as [|k] eqn:E; [lia|]. destruct fb; cbn; now eexists.
Qed.

(** A resize to a positive number of pixels succeeds, with the old
    buffer cut or zero-filled and the full rectangle as the only dirty
    one. *)
Lemma vnc_resize_positive fd width height :
  0 < int_mul width height ->
  vnc_resize fd width height
  = Some {| vnc_width := width; vnc_height := height; canvas := canvas fd;
            vnc_framebuffer := resize (Z.to_nat (int_mul width height)) 0 (vnc_framebuffer fd);
            vnc_dirty_rectangles := [full_rectangle width height] |}.
Proof.
  intros Hpos. unfold vnc_resize, vec_resize.
  destruct (int_mul width height <? 0) eqn:E; [lia|]. cbn [mbind option_bind].
  destruct (vec_get_resize_0 (vnc_framebuffer fd) _ Hpos) as [p ->]. reflexivity.
Qed.

Lemma vnc_resize_fields fd width height fd' :
  vnc_resize fd width height = Some fd' ->
  vnc_width fd' = width /\ vnc_height fd' = height /\
  vnc_dirty_rectangles fd' = [full_rectangle width height].
Proof.
  unfold vnc_resize. intros H.
  destruct (vec_resize _ _) as [fb|]; [|discriminate]. cbn [mbind option_bind] in H.
  destruct (vec_get fb 0); [|discriminate].
  injection H as <-. repeat split; reflexivity.
Qed.





Lemma step_dirty_in_bounds screen fd ev fd' commits :
  dirty_in_bounds fd ->
  updates_in_bounds [ev] (vnc_width fd) (vnc_height fd) ->
  step screen fd ev = Some (fd', commits) ->
  dirty_in_bounds fd' /\ Forall dirty_in_bounds commits.
Proof.
  intros Hfd Hev Hstep. destruct ev as [w h|x y w h|ww wh]; cbn in Hstep.
  - destruct (vnc_resize fd w h) as [fd1|] eqn:Hres; [|discriminate].
    injection Hstep as <- <-. split; [|constructor].
    destruct (vnc_resize_fields _ _ _ _ Hres) as (EW & EH & ER).
    unfold dirty_in_bounds. rewrite EW, EH, ER. constructor; [|constructor].
    unfold rect_in_bounds. cbn. lia.
  - injection Hstep as <- <-. split; [|constructor].
    unfold dirty_in_bounds in *. cbn in *.
    apply Forall_app. split; [assumption|]. constructor; [tauto|constructor].
  - destruct (startFrame_fields screen ww wh fd) as (FW & FH & _ & FR).
    injection Hstep as <- <-. split.
    + unfold dirty_in_bounds. cbn. constructor.
    + constructor; [|constructor]. unfold dirty_in_bounds. now rewrite FW, FH, FR.
Qed.

Lemma step_dimensions screen fd ev fd' commits :
  step screen fd ev = Some (fd', commits) ->
  match ev with
  | ev_resize w h => vnc_width fd' = w /\ vnc_height fd' = h
  | _ => vnc_width fd' = vnc_width fd /\ vnc_height fd' = vnc_height fd
  end.
Proof.
  intros Hstep. destruct ev as [w h|x y w h|ww wh]; cbn in Hstep.
  - destruct (vnc_resize fd w h) as [fd1|] eqn:Hres; [|discriminate].
    injection Hstep as <- <-.
    destruct (vnc_resize_fields _ _ _ _ Hres) as (EW & EH & _). now split.
  - injection Hstep as <- <-. split; reflexivity.
  - destruct (startFrame_fields screen ww wh fd) as (FW & FH & _).
    injection Hstep as <- <-. cbn. now rewrite FW, FH.
Qed.





(** ** Key mapping *)

Lemma switch_default cases default key :
  ~ In key (map fst cases) -> switch cases default key = default.
Proof.
  induction cases as [|[label k] cases IH]; intros Hkey; cbn; [reflexivity|].
  destruct (key =? label) eqn:E.
  - apply Z.eqb_eq in E. exfalso. apply Hkey. cbn. auto.
  - apply IH. intros Hin. apply Hkey. cbn. auto.
Qed.

Lemma switch_case cases default label k :
  List.NoDup (map fst cases) -> In (label, k) cases -> switch cases default label = k.
Proof.
  induction cases as [|[label' k'] cases IH]; intros Hnd Hin; [destruct Hin|].
  cbn in Hnd. inversion Hnd as [|? ? Hfresh Hnd']; subst. cbn.
  destruct Hin as [E|Hin].
  - injection E as -> ->. now rewrite Z.eqb_refl.
  - destruct (label =? label') eqn:E.
    + apply Z.eqb_eq in E. subst. exfalso. apply Hfresh.
      apply in_map_iff. now exists (label', k).
    + now apply IH.
Qed.

(** C7: [eqkey_to_rfbkey] is a function on all key codes.  It sends
    each of the 36 special local codes (escape, backspace, return, tab,
    home, the arrows, page up and down, end, F1 to F24) to the remote
    symbol of the same key, each named here, and every other code to
    itself; the local escape code goes to the remote escape symbol, and
    code 97, not being one of the special codes, stays 97. *)
Theorem eqkey_to_rfbkey_total (K : key_constants) :
  let codes :=
    [ KC_ESCAPE K; KC_BACKSPACE K; KC_RETURN K; KC_TAB K; KC_HOME K;
      KC_LEFT K; KC_UP K; KC_RIGHT K; KC_DOWN K; KC_PAGE_UP K;
      KC_PAGE_DOWN K; KC_END K; KC_F1 K; KC_F2 K; KC_F3 K; KC_F4 K; KC_F5 K;
      KC_F6 K; KC_F7 K; KC_F8 K; KC_F9 K; KC_F10 K; KC_F11 K; KC_F12 K;
      KC_F13 K; KC_F14 K; KC_F15 K; KC_F16 K; KC_F17 K; KC_F18 K; KC_F19 K;
      KC_F20 K; KC_F21 K; KC_F22 K; KC_F23 K; KC_F24 K ] in
  let symbols :=
    [ XK_Escape K; XK_BackSpace K; XK_Return K; XK_Tab K; XK_Home K;
      XK_Left K; XK_Up K; XK_Right K; XK_Down K; XK_Page_Up K;
      XK_Page_Down K; XK_End K; XK_F1 K; XK_F2 K; XK_F3 K; XK_F4 K; XK_F5 K;
      XK_F6 K; XK_F7 K; XK_F8 K; XK_F9 K; XK_F10 K; XK_F11 K; XK_F12 K;
      XK_F13 K; XK_F14 K; XK_F15 K; XK_F16 K; XK_F17 K; XK_F18 K; XK_F19 K;
      XK_F20 K; XK_F21 K; XK_F22 K; XK_F23 K; XK_F24 K ] in
  List.NoDup codes ->
  ~ In 97 codes ->
  length codes = 36%nat /\
  map (eqkey_to_rfbkey K) codes = symbols /\
  (forall key, ~ In key codes -> eqkey_to_rfbkey K key = key) /\
  eqkey_to_rfbkey K (KC_ESCAPE K) = XK_Escape K /\
  eqkey_to_rfbkey K 97 = 97.
Proof.
  intros codes symbols Hnd H97.
  change codes with (map fst (key_cases K)) in *.
  change symbols with (map snd (key_cases K)).
  split; [reflexivity|]. split; [|split; [|split]].
  - rewrite List.map_map. apply List.map_ext_in. intros [label k] Hin.
    unfold eqkey_to_rfbkey. cbn [fst snd]. now apply switch_case.
  - intros key Hkey. unfold eqkey_to_rfbkey. now apply switch_default.
  - unfold eqkey_to_rfbkey. cbn. now rewrite Z.eqb_refl.
  - unfold eqkey_to_rfbkey. now apply switch_default.
Qed.

Lemma eqkey_to_rfbkey_total_witness :
  let codes :=
    [ 256; 257; 258; 259; 260; 261; 262; 263; 264; 265; 266; 267; 268; 269;
      270; 271; 272; 273; 274; 275; 276; 277; 278; 279; 280; 281; 282; 283;
      284; 285; 286; 287; 288; 289; 290; 291 ] in
  length codes = 36%nat /\
  map (eqkey_to_rfbkey sample_keys) codes
  = [ 0xff1b; 0xff08; 0xff0d; 0xff09; 0xff50; 0xff51; 0xff52; 0xff53; 0xff54;
      0xff55; 0xff56; 0xff57; 0xffbe; 0xffbf; 0xffc0; 0xffc1; 0xffc2; 0xffc3;
      0xffc4; 0xffc5; 0xffc6; 0xffc7; 0xffc8; 0xffc9; 0xffca; 0xffcb; 0xffcc;
      0xffcd; 0xffce; 0xffcf; 0xffd0; 0xffd1; 0xffd2; 0xffd3; 0xffd4; 0xffd5 ] /\
  (forall key, ~ In key codes -> eqkey_to_rfbkey sample_keys key = key) /\
  eqkey_to_rfbkey sample_keys 256 = 0xff1b /\
  eqkey_to_rfbkey sample_keys 97 = 97.
Proof.
  apply (eqkey_to_rfbkey_total sample_keys).
  - vm_compute. repeat (constructor; [cbn; intuition discriminate|]). constructor.
  - vm_compute. intuition discriminate.
Defined.

(** ** Screen geometry *)

(** C8: for a wall given by its corners [bl], [br], [tl] the fourth
    corner is [br + (tl - bl)] componentwise, and the quad drawn has the
    four positions bottom-left, bottom-right, top-right, top-left in this
    order, each preceded by its texture coordinate; the corners
    [(0,0,0)], [(1,0,0)], [(0,1,0)] give the fourth corner [(1,1,0)]. *)
Theorem wall_quad (M : libm) (fd : eq_frame_data) (viewport : Viewport) (tex : Z)
    (bl br tl : vec3) :
  let tr := (fadd (v0 br) (fsub (v0 tl) (v0 bl)),
             fadd (v1 br) (fsub (v1 tl) (v1 bl)),
             fadd (v2 br) (fsub (v2 tl) (v2 bl))) in
  let bl' := (v0 bl, v1 bl, v2 bl) in
  let br' := (v0 br, v1 br, v2 br) in
  let tl' := (v0 tl, v1 tl, v2 tl) in
  draw_wall (wall_init bl br tl)
  = [ glBegin GL_QUADS;
      glTexCoord2f f0 f1; glVertex3fv bl';
      glTexCoord2f f1 f1; glVertex3fv br';
      glTexCoord2f f1 f0; glVertex3fv tr;
      glTexCoord2f f0 f0; glVertex3fv tl';
      glEnd ] /\
  gl_vertices (frameDraw M (wall_init bl br tl) fd viewport tex) = [bl'; br'; tr; tl'] /\
  gl_transforms (frameDraw M (wall_init bl br tl) fd viewport tex) = [] /\
  wall_tr (f0, f0, f0) (f1, f0, f0) (f0, f1, f0) = (f1, f1, f0).
Proof.
  destruct bl as [[b0 b1] b2], br as [[r0 r1] r2], tl as [[t0 t1] t2].
  repeat split; reflexivity.
Qed.

Lemma draw_loop_flat_map body n : forall x,
  draw_loop n x body = flat_map body (zseq x n).
Proof.
  induction n as [|n IH]; intros x; [reflexivity|].
  rewrite zseq_S. cbn [draw_loop flat_map]. now rewrite IH.
Qed.



Lemma draw_cylinder_unfold M center up radius phi_center phi_range theta_range :
  draw_cylinder M (cylinder_init center up radius phi_center phi_range theta_range)
  = [ glRotatef f90 f0 f1 f0;
      glRotatef (rad_to_deg (up_rotation_angle M up))
                (v0 (up_rotation_axis up)) (v1 (up_rotation_axis up)) (v2 (up_rotation_axis up));
      glTranslatef (v0 center) (v1 center) (v2 center);
      glBegin GL_TRIANGLE_STRIP ]
    ++ flat_map (cylinder_slice M radius phi_center phi_range
                   (fmul radius (m_tan M (fdiv theta_range f2)))) (zseq 0 1001)
    ++ [ glEnd ].
Proof.
  destruct center as [[c0 c1] c2], up as [[u0 u1] u2].
  unfold draw_cylinder. rewrite draw_loop_flat_map. reflexivity.
Qed.





(** ** Pointer mapping *)

Lemma clamp_coordinate_spec t size :
  1 <= size <= int_max ->
  clamp_coordinate t size = clamp 0 (size - 1) t.
Proof.
  intros Hs. unfold clamp_coordinate, clamp.
  rewrite int_sub_id by (unfold int_range, int_min, int_max in *; lia).
  destruct (t <? 0) eqn:E1.
  - destruct (0 >? size - 1) eqn:E2; lia.
  - destruct (t >? size - 1) eqn:E2; lia.
Qed.

(** C6: the desktop coordinate of a pointer event is obtained by the
    five steps: division by the channel's pixel dimensions, the viewport
    offset and extent with the vertical axis flipped, subtraction of the
    canvas origin and division by the canvas extent, scaling by the
    desktop dimensions, and, after the conversion to [int], clamping
    into [[0, width-1] x [0, height-1]].  The result lies in that range;
    a converted coordinate already in range is returned unchanged, one
    below it becomes 0 and one above it becomes the upper end.  In
    canvas mode this is the position sent for every pointer event. *)
Theorem eqptr_to_rfbptr_steps (B : button_constants) (e : PointerEvent)
    (pvp : PixelViewport) (vp : Viewport) (cv : canvas_t) (vnc_w vnc_h : Z) :
  1 <= vnc_w <= int_max -> 1 <= vnc_h <= int_max ->
  let tx := int_of_float (mapped_x e pvp vp cv vnc_w) in
  let ty := int_of_float (mapped_y e pvp vp cv vnc_h) in
  let x := fst (fst (eqptr_to_rfbptr B e pvp vp cv vnc_w vnc_h)) in
  let y := snd (fst (eqptr_to_rfbptr B e pvp vp cv vnc_w vnc_h)) in
  x = clamp 0 (vnc_w - 1) tx /\ y = clamp 0 (vnc_h - 1) ty /\
  0 <= x <= vnc_w - 1 /\ 0 <= y <= vnc_h - 1 /\
  (0 <= tx <= vnc_w - 1 -> x = tx) /\ (0 <= ty <= vnc_h - 1 -> y = ty) /\
  (tx < 0 -> x = 0) /\ (vnc_w - 1 < tx -> x = vnc_w - 1) /\
  (ty < 0 -> y = 0) /\ (vnc_h - 1 < ty -> y = vnc_h - 1) /\
  forall K fd ty' key,
    canvas fd = cv -> vnc_width fd = vnc_w -> vnc_height fd = vnc_h ->
    In ty' [CHANNEL_POINTER_MOTION; CHANNEL_POINTER_BUTTON_PRESS;
            CHANNEL_POINTER_BUTTON_RELEASE; CHANNEL_POINTER_WHEEL] ->
    exists buttons,
      handleEvent K B false true false screen_canvas fd
        {| ce_type := ty'; ce_key := key; ce_pointer := e; ce_pvp := pvp; ce_vp := vp |}
      = (false, [SendPointerEvent x y buttons]).
Proof.
  intros Hw Hh tx ty x y.
  assert (Ex : x = clamp 0 (vnc_w - 1) tx).
  { subst x tx. unfold eqptr_to_rfbptr. cbn [fst snd].
    rewrite clamp_coordinate_spec by assumption. reflexivity. }
  assert (Ey : y = clamp 0 (vnc_h - 1) ty).
  { subst y ty. unfold eqptr_to_rfbptr. cbn [fst snd].
    rewrite clamp_coordinate_spec by assumption. reflexivity. }
  assert (Hsend : forall K fd ty' key,
    canvas fd = cv -> vnc_width fd = vnc_w -> vnc_height fd = vnc_h ->
    In ty' [CHANNEL_POINTER_MOTION; CHANNEL_POINTER_BUTTON_PRESS;
            CHANNEL_POINTER_BUTTON_RELEASE; CHANNEL_POINTER_WHEEL] ->
    exists buttons,
      handleEvent K B false true false screen_canvas fd
        {| ce_type := ty'; ce_key := key; ce_pointer := e; ce_pvp := pvp; ce_vp := vp |}
      = (false, [SendPointerEvent x y buttons])).
  { intros K fd ty' key Ec EW EH Hty. subst x y.
    unfold handleEvent, send_pointer. cbn [negb ce_type ce_pointer ce_pvp ce_vp].
    rewrite Ec, EW, EH.
    destruct (eqptr_to_rfbptr B e pvp vp cv vnc_w vnc_h) as [[px py] pb]. cbn [fst snd].
    exists pb. cbn in Hty.
    destruct Hty as [<-|[<-|[<-|[<-|[]]]]]; reflexivity. }
  clearbody x y tx ty. subst x y. unfold clamp.
  repeat split; try lia. exact Hsend.
Qed.

Lemma eqptr_to_rfbptr_steps_witness :
  1 <= 800 <= int_max /\ 1 <= 600 <= int_max /\
  eqptr_to_rfbptr sample_buttons sample_pointer sample_pvp sample_vp sample_canvas 800 600
  = (400, 300, 1) /\
  int_of_float (mapped_x sample_pointer sample_pvp sample_vp sample_canvas 800) = 400 /\
  int_of_float (mapped_y sample_pointer sample_pvp sample_vp sample_canvas 600) = 300 /\
  (0 <= 400 <= 800 - 1 ->
   fst (fst (eqptr_to_rfbptr sample_buttons sample_pointer sample_pvp sample_vp
               sample_canvas 800 600)) = 400).
Proof.
  assert (H1 : 1 <= 800 <= int_max) by (unfold int_max; lia).
  assert (H2 : 1 <= 600 <= int_max) by (unfold int_max; lia).
  split; [exact H1|]. split; [exact H2|].
  split; [vm_compute; reflexivity|].
  split; [vm_compute; reflexivity|].
  split; [vm_compute; reflexivity|].
  pose proof (eqptr_to_rfbptr_steps sample_buttons sample_pointer sample_pvp sample_vp
                sample_canvas 800 600 H1 H2) as (_ & _ & _ & _ & Hx & _).
  replace (int_of_float (mapped_x sample_pointer sample_pvp sample_vp sample_canvas 800))
    with 400 in Hx by (vm_compute; reflexivity).
  exact Hx.
Defined.

(** * Rounding of binary32 quotients *)

(** ** Binary digits *)

Lemma digits2_pos_bounds p :
  2 ^ (Zpos (digits2_pos p) - 1) <= Zpos p < 2 ^ Zpos (digits2_pos p).
Proof.
  induction p as [p IH|p IH|]; cbn [digits2_pos]; [| |cbn; lia];
    rewrite Pos2Z.inj_succ;
    replace (Z.succ (Zpos (digits2_pos p)) - 1) with (Z.succ (Zpos (digits2_pos p) - 1)) by lia;
    rewrite !Z.pow_succ_r by lia; lia.
Qed.

Lemma Zdigits2_le_pow m k : 0 <= k -> 0 <= m <= 2 ^ k -> Zdigits2 m <= k + 1.
Proof.
  intros Hk Hm. destruct m as [|p|p]; cbn [Zdigits2]; [lia| |lia].
  pose proof (digits2_pos_bounds p) as [Hlo _].
  assert (H : Zpos (digits2_pos p) - 1 <= k); [|lia].
  apply (Z.pow_le_mono_r_iff 2); lia.
Qed.

Lemma digits2_pos_mono p q : Zpos p <= Zpos q -> Zpos (digits2_pos p) <= Zpos (digits2_pos q).
Proof.
  intros Hpq.
  pose proof (digits2_pos_bounds p) as [Hlo _].
  pose proof (digits2_pos_bounds q) as [_ Hhi].
  assert (H : Zpos (digits2_pos p) - 1 < Zpos (digits2_pos q)); [|lia].
  apply (Z.pow_lt_mono_r_iff 2); lia.
Qed.

(** ** Right shifts *)

Lemma loc_of_shr_record_of_loc m l : loc_of_shr_record (shr_record_of_loc m l) = l.
Proof. destruct l as [|[]]; reflexivity. Qed.

Lemma shr_m_record_of_loc m l : shr_m (shr_record_of_loc m l) = m.
Proof. destruct l as [|[]]; reflexivity. Qed.

Lemma loc_exact_iff x :
  loc_of_shr_record x = loc_Exact <-> shr_r x = false /\ shr_s x = false.
Proof. destruct x as [m [] []]; cbn; intuition discriminate. Qed.

Lemma shr_1_shifted x : 0 <= shr_m x -> shifted 1 x (shr_1 x).
Proof.
  intros Hm. unfold shifted. rewrite !loc_exact_iff.
  assert (Hmod : shr_m x mod 2 ^ 1 = if Z.odd (shr_m x) then 1 else 0) by apply Zmod_odd.
  assert (Hfields : shr_m (shr_1 x) = Z.div2 (shr_m x) /\
                    shr_r (shr_1 x) = Z.odd (shr_m x) /\
                    shr_s (shr_1 x) = shr_r x || shr_s x).
  { destruct x as [m r s]. cbn [shr_m shr_r shr_s] in *.
    destruct m as [|[p|p|]|p]; cbn; auto; lia. }
  destruct Hfields as (-> & -> & ->). rewrite Z.div2_div. split; [reflexivity|].
  rewrite Hmod. destruct (Z.odd (shr_m x)), (shr_r x), (shr_s x); cbn; intuition (discriminate || lia).
Qed.

Lemma shifted_nonneg k x y : 0 <= k -> 0 <= shr_m x -> shifted k x y -> 0 <= shr_m y.
Proof.
  intros Hk Hx [-> _]. apply Z.div_pos; [assumption|]. apply Z.pow_pos_nonneg; lia.
Qed.

Lemma shifted_trans a b x y z :
  0 <= a -> 0 <= b -> shifted a x y -> shifted b y z -> shifted (a + b) x z.
Proof.
  intros Ha Hb [Ey Hy] [Ez Hz].
  assert (Pa : 0 < 2 ^ a) by (apply Z.pow_pos_nonneg; lia).
  assert (Pb : 0 < 2 ^ b) by (apply Z.pow_pos_nonneg; lia).
  unfold shifted. rewrite Z.pow_add_r by assumption. split.
  - rewrite Ez, Ey. apply Z.div_div; lia.
  - rewrite Hz, Hy, Ey. clear - Pa Pb.
    split.
    + intros [[Hx Hma] Hmb]. split; [assumption|].
      pose proof (Z.div_mod (shr_m x) (2 ^ a) ltac:(lia)) as E1.
      pose proof (Z.div_mod (shr_m x / 2 ^ a) (2 ^ b) ltac:(lia)) as E2.
      rewrite Hma in E1. rewrite Hmb in E2.
      rewrite E1, E2 at 1.
      replace (2 ^ a * (2 ^ b * (shr_m x / 2 ^ a / 2 ^ b) + 0) + 0)
        with ((shr_m x / 2 ^ a / 2 ^ b) * (2 ^ a * 2 ^ b)) by ring.
      apply Z.mod_mul. lia.
    + intros [Hx Hm].
      rewrite Z.rem_mul_r in Hm by lia.
      pose proof (Z.mod_pos_bound (shr_m x) (2 ^ a) Pa).
      pose proof (Z.mod_pos_bound (shr_m x / 2 ^ a) (2 ^ b) Pb).
      repeat split; try assumption; nia.
Qed.

Lemma iter_pos_shifted p : forall x,
  0 <= shr_m x -> shifted (Zpos p) x (SpecFloat.iter_pos shr_1 p x).
Proof.
  induction p as [p IH|p IH|]; intros x Hx; cbn [SpecFloat.iter_pos].
  - pose proof (shr_1_shifted x Hx) as H1.
    pose proof (shifted_nonneg 1 _ _ ltac:(lia) Hx H1) as Hx1.
    pose proof (IH _ Hx1) as H2.
    pose proof (shifted_nonneg (Zpos p) _ _ ltac:(lia) Hx1 H2) as Hx2.
    pose proof (IH _ Hx2) as H3.
    replace (Zpos p~1) with (1 + Zpos p + Zpos p) by lia.
    eapply shifted_trans; [lia|lia| |exact H3].
    eapply shifted_trans; [lia|lia|exact H1|exact H2].
  - pose proof (IH _ Hx) as H2.
    pose proof (shifted_nonneg (Zpos p) _ _ ltac:(lia) Hx H2) as Hx2.
    pose proof (IH _ Hx2) as H3.
    replace (Zpos p~0) with (Zpos p + Zpos p) by lia.
    eapply shifted_trans; [lia|lia|exact H2|exact H3].
  - now apply shr_1_shifted.
Qed.

Lemma shr_shifted m l e n :
  0 <= m ->
  snd (shr (shr_record_of_loc m l) e n) = e + Z.max 0 n /\
  shifted (Z.max 0 n) (shr_record_of_loc m l) (fst (shr (shr_record_of_loc m l) e n)).
Proof.
  intros Hm. destruct n as [|p|p]; cbn [shr fst snd].
  - split; [lia|]. unfold shifted. cbn. rewrite Z.div_1_r, Z.mod_1_r. tauto.
  - split; [lia|]. replace (Z.max 0 (Zpos p)) with (Zpos p) by lia.
    apply iter_pos_shifted. now rewrite shr_m_record_of_loc.
  - split; [lia|]. unfold shifted. cbn. rewrite Z.div_1_r, Z.mod_1_r. tauto.
Qed.

(** ** Quotients below one *)

Lemma fexp_unfold x : fexp f_prec f_emax x = Z.max (x - 24) (-149).
Proof. reflexivity. Qed.

Lemma shr_fexp_below_one m e l :
  below_one m e l ->
  below_one (shr_m (fst (shr_fexp f_prec f_emax m e l)))
            (snd (shr_fexp f_prec f_emax m e l))
            (loc_of_shr_record (fst (shr_fexp f_prec f_emax m e l))).
Proof.
  intros (Hm & He & Hle & Hlt). unfold shr_fexp. rewrite fexp_unfold.
  set (n := Z.max (Zdigits2 m + e - 24) (-149) - e).
  destruct (shr_shifted m l e n Hm) as [Ee [Em Hl]].
  rewrite shr_m_record_of_loc in Em, Hl. rewrite loc_of_shr_record_of_loc in Hl.
  rewrite Ee, Em.
  pose proof (Zdigits2_le_pow m (- e) ltac:(lia) ltac:(lia)) as Hd.
  assert (He1 : e + Z.max 0 n <= -23) by lia.
  assert (Hsplit : 2 ^ (- e) = 2 ^ Z.max 0 n * 2 ^ (- (e + Z.max 0 n))).
  { rewrite <- Z.pow_add_r by lia. f_equal. lia. }
  assert (Pn : 0 < 2 ^ Z.max 0 n) by (apply Z.pow_pos_nonneg; lia).
  repeat split.
  - apply Z.div_pos; lia.
  - exact He1.
  - apply Z.div_le_upper_bound; [assumption|]. now rewrite <- Hsplit.
  - intros Hinexact. apply Z.div_lt_upper_bound; [assumption|]. rewrite <- Hsplit.
    destruct (Z.eq_dec m (2 ^ (- e))) as [Emax|]; [|lia].
    exfalso. apply Hinexact, Hl. split.
    + destruct l as [|c]; [reflexivity|]. exfalso.
      assert (m < 2 ^ (- e)) by (apply Hlt; discriminate). lia.
    + rewrite Emax, Hsplit, Z.mul_comm. apply Z.mod_mul. lia.
Qed.

Lemma round_below_one m e l :
  below_one m e l -> below_one (round_nearest_even m l) e loc_Exact.
Proof.
  intros (Hm & He & Hle & Hlt). unfold below_one.
  assert (Hr : round_nearest_even m l = m \/
               (round_nearest_even m l = m + 1 /\ l <> loc_Exact)).
  { destruct l as [|[]]; cbn; try (left; reflexivity);
      try destruct (Z.even m); try (left; reflexivity);
      right; (split; [reflexivity|discriminate]). }
  destruct Hr as [->|[-> Hl]].
  - repeat split; try assumption. intros H. now contradiction H.
  - specialize (Hlt Hl). repeat split; try lia. intros H. now contradiction H.
Qed.

Lemma f1_unfold : f1 = S754_finite false 8388608 (-23).
Proof. reflexivity. Qed.

Lemma fle_finite_intro m1 e1 m2 e2 :
  e1 < e2 \/ (e1 = e2 /\ Zpos m1 <= Zpos m2) ->
  fle (S754_finite false m1 e1) (S754_finite false m2 e2) = true.
Proof.
  intros H. unfold fle, SFleb, SFcompare.
  destruct (Z.compare_spec e1 e2) as [E|Hlt|Hgt]; [|reflexivity|lia].
  destruct H as [H|[_ H]]; [lia|].
  pose proof (Pos.compare_spec m1 m2) as Hc. unfold Pos.compare in Hc.
  destruct Hc as [Ep|Hp|Hp]; [reflexivity|reflexivity|lia].
Qed.

Lemma binary_round_aux_le_one m e l :
  below_one m e l -> fle (binary_round_aux f_prec f_emax false m e l) f1 = true.
Proof.
  intros H. unfold binary_round_aux.
  pose proof (shr_fexp_below_one m e l H) as H1.
  destruct (shr_fexp f_prec f_emax m e l) as [mrs1 e1]. cbn [fst snd] in H1.
  apply round_below_one in H1.
  pose proof (shr_fexp_below_one _ _ _ H1) as H2.
  destruct (shr_fexp f_prec f_emax (round_nearest_even (shr_m mrs1) (loc_of_shr_record mrs1))
              e1 loc_Exact) as [mrs2 e2].
  cbn [fst snd] in H2. destruct H2 as (Hm & He & Hle & _).
  destruct (shr_m mrs2) as [|p|p]; [reflexivity| |lia].
  replace (e2 <=? f_emax - f_prec) with true
    by (symmetry; apply Z.leb_le; unfold f_emax, f_prec; lia).
  rewrite f1_unfold. apply fle_finite_intro.
  destruct (Z.eq_dec e2 (-23)) as [->|Hne]; [right|left; lia].
  split; [reflexivity|]. exact Hle.
Qed.

Lemma bounded_canonical m e :
  bounded f_prec f_emax m e = true ->
  e = Z.max (Zpos (digits2_pos m) + e - 24) (-149) /\ e <= 104.
Proof.
  unfold bounded, canonical_mantissa. rewrite fexp_unfold.
  intros H. apply andb_true_iff in H as [H1 H2].
  apply Z.eqb_eq in H1. apply Z.leb_le in H2. unfold f_emax, f_prec in H2. lia.
Qed.

(** The order of two positive floats, read on mantissas and exponents. *)
Lemma fle_finite m1 e1 m2 e2 :
  fle (S754_finite false m1 e1) (S754_finite false m2 e2) = true ->
  e1 < e2 \/ (e1 = e2 /\ Zpos m1 <= Zpos m2).
Proof.
  unfold fle, SFleb, SFcompare.
  destruct (Z.compare_spec e1 e2) as [->|Hlt|Hgt]; [|auto|discriminate].
  change (Pos.compare_cont Eq m1 m2) with (Pos.compare m1 m2).
  destruct (Pos.compare_spec m1 m2) as [->|Hp|Hp]; [right; lia|right; lia|discriminate].
Qed.

Lemma new_location_exact n r : r = 0 -> new_location n r = loc_Exact.
Proof.
  intros ->. unfold new_location, new_location_even, new_location_odd.
  destruct (Z.even n); reflexivity.
Qed.

Lemma div_core_below_one m1 e1 m2 e2 :
  bounded f_prec f_emax m1 e1 = true -> bounded f_prec f_emax m2 e2 = true ->
  e1 < e2 \/ (e1 = e2 /\ Zpos m1 <= Zpos m2) ->
  below_one (fst (fst (SFdiv_core_binary f_prec f_emax (Zpos m1) e1 (Zpos m2) e2)))
            (snd (fst (SFdiv_core_binary f_prec f_emax (Zpos m1) e1 (Zpos m2) e2)))
            (snd (SFdiv_core_binary f_prec f_emax (Zpos m1) e1 (Zpos m2) e2)).
Proof.
  intros B1 B2 Hle.
  apply bounded_canonical in B1 as [C1 _]. apply bounded_canonical in B2 as [C2 _].
  pose proof (digits2_pos_bounds m1) as [L1 U1].
  pose proof (digits2_pos_bounds m2) as [L2 U2].
  set (d1 := Zpos (digits2_pos m1)) in *. set (d2 := Zpos (digits2_pos m2)) in *.
  assert (Hd1 : d1 <= 24) by lia.
  (* the dividend is at most the divisor scaled by the exponent gap *)
  assert (Hratio : Zpos m1 <= Zpos m2 * 2 ^ (e2 - e1) /\ d1 + e1 <= d2 + e2).
  { destruct Hle as [Hlt|[-> Hm]].
    - assert (Ed2 : d2 = 24) by lia.
      assert (U1' : Zpos m1 < 2 ^ 24).
      { eapply Z.lt_le_trans; [exact U1|]. apply Z.pow_le_mono_r; lia. }
      rewrite Ed2 in L2. change (2 ^ (24 - 1)) with 8388608 in L2.
      change (2 ^ 24) with 16777216 in U1'.
      assert (2 ^ 1 <= 2 ^ (e2 - e1)) by (apply Z.pow_le_mono_r; lia).
      change (2 ^ 1) with 2 in *. split; [nia|lia].
    - rewrite Z.sub_diag. change (2 ^ 0) with 1. split; [lia|].
      pose proof (digits2_pos_mono m1 m2 Hm). unfold d1, d2. lia. }
  destruct Hratio as [Hratio Hmag].
  unfold SFdiv_core_binary. rewrite fexp_unfold. cbn [Zdigits2]. fold d1 d2.
  set (e' := Z.min (Z.max (d1 + e1 - (d2 + e2) - 24) (-149)) (e1 - e2)).
  set (s := e1 - e2 - e').
  assert (He' : e' <= -24) by lia.
  assert (Hs : 0 <= s) by lia.
  set (m' := match s with Zpos _ => Z.shiftl (Zpos m1) s | 0 => Zpos m1 | Zneg _ => 0 end).
  assert (Em' : m' = Zpos m1 * 2 ^ s).
  { unfold m'. destruct s as [|p|p] eqn:Es; [cbn; lia| |lia].
    apply Z.shiftl_mul_pow2. lia. }
  assert (Ps : 0 < 2 ^ s) by (apply Z.pow_pos_nonneg; lia).
  assert (Hm' : 0 <= m' <= Zpos m2 * 2 ^ (- e')).
  { rewrite Em'. split; [lia|].
    replace (- e') with (e2 - e1 + s) by lia.
    rewrite Z.pow_add_r by lia. nia. }
  pose proof (Z_div_mod m' (Zpos m2) ltac:(lia)) as Hdm.
  destruct (Z.div_eucl m' (Zpos m2)) as [q r]. destruct Hdm as [Edm Hr].
  cbn [fst snd].
  assert (Pe : 0 < 2 ^ (- e')) by (apply Z.pow_pos_nonneg; lia).
  repeat split.
  - nia.
  - lia.
  - nia.
  - intros Hinexact.
    assert (r <> 0) by (intros ->; apply Hinexact, new_location_exact; reflexivity).
    nia.
Qed.

(** A positive float divided by one at least as large is at most one. *)
Lemma fdiv_le_one a b :
  fpositive a -> fpositive b -> fle a b = true -> fle (fdiv a b) f1 = true.
Proof.
  intros Ha Hb Hab.
  destruct a as [| | |[] m1 e1]; try contradiction.
  destruct b as [| | |[] m2 e2]; try contradiction.
  cbn in Ha, Hb. apply fle_finite in Hab.
  pose proof (div_core_below_one m1 e1 m2 e2 Ha Hb Hab) as H.
  unfold fdiv, SFdiv.
  destruct (SFdiv_core_binary f_prec f_emax (Zpos m1) e1 (Zpos m2) e2) as [[q e'] l].
  cbn [fst snd xorb] in *. now apply binary_round_aux_le_one.
Qed.

(** On positive floats [>=] and [<=] leave no third case. *)
Lemma fge_false_fle a b :
  fpositive a -> fpositive b -> fge a b = false -> fle a b = true.
Proof.
  intros Ha Hb.
  destruct a as [| | |[] m1 e1]; try contradiction.
  destruct b as [| | |[] m2 e2]; try contradiction.
  unfold fge, fle, SFleb, SFcompare.
  rewrite (Z.compare_antisym e1 e2).
  destruct (Z.compare e1 e2); cbn; try reflexivity; try discriminate.
  change (Pos.compare_cont Eq m2 m1) with (Pos.compare m2 m1).
  change (Pos.compare_cont Eq m1 m2) with (Pos.compare m1 m2).
  rewrite (Pos.compare_antisym m1 m2).
  destruct (Pos.compare m1 m2); cbn; try reflexivity; discriminate.
Qed.

(** ** Canvas fit *)

(** C5: for positive aspect ratios the canvas fit sets the extent to
    [(1, canvas_ar / ar)] when [ar >= canvas_ar] and to
    [(ar / canvas_ar, 1)] otherwise, and the origin to
    [((1 - extentW) / 2, (1 - extentH) / 2)]; both extents are at most 1
    and one of them is 1.  [startFrame] stores this fit for the aspect
    ratios of the desktop and of the canvas wall. *)
Theorem canvas_fit_extent (c : canvas_t) (ar canvas_ar : float) :
  fpositive ar -> fpositive canvas_ar ->
  let fit := canvas_fit c ar canvas_ar in
  (fge ar canvas_ar = true ->
   canvas4 fit = f1 /\ canvas5 fit = fdiv canvas_ar ar) /\
  (fge ar canvas_ar = false ->
   canvas4 fit = fdiv ar canvas_ar /\ canvas5 fit = f1) /\
  canvas2 fit = fdiv (fsub f1 (canvas4 fit)) f2 /\
  canvas3 fit = fdiv (fsub f1 (canvas5 fit)) f2 /\
  fle (canvas4 fit) f1 = true /\ fle (canvas5 fit) f1 = true /\
  (canvas4 fit = f1 \/ canvas5 fit = f1) /\
  forall fd wall_w wall_h,
    fdiv (float_of_int (vnc_width fd)) (float_of_int (vnc_height fd)) = ar ->
    fdiv wall_w wall_h = canvas_ar ->
    let cv := canvas (startFrame screen_canvas wall_w wall_h fd) in
    canvas0 cv = wall_w /\ canvas1 cv = wall_h /\
    canvas2 cv = canvas2 fit /\ canvas3 cv = canvas3 fit /\
    canvas4 cv = canvas4 fit /\ canvas5 cv = canvas5 fit.
Proof.
  intros Har Hcar fit.
  assert (H11 : fle f1 f1 = true) by reflexivity.
  assert (Hfit : forall c', canvas_fit c' ar canvas_ar
            = let '(c4, c5) :=
                if fge ar canvas_ar then (f1, fdiv canvas_ar ar) else (fdiv ar canvas_ar, f1) in
              {| canvas0 := canvas0 c'; canvas1 := canvas1 c';
                 canvas2 := fdiv (fsub f1 c4) f2; canvas3 := fdiv (fsub f1 c5) f2;
                 canvas4 := c4; canvas5 := c5 |}) by reflexivity.
  subst fit. split; [|split; [|split; [|split; [|split; [|split; [|split]]]]]].
  - intros E. rewrite Hfit, E. split; reflexivity.
  - intros E. rewrite Hfit, E. split; reflexivity.
  - rewrite Hfit. destruct (fge ar canvas_ar); reflexivity.
  - rewrite Hfit. destruct (fge ar canvas_ar); reflexivity.
  - rewrite Hfit. destruct (fge ar canvas_ar) eqn:E; cbn [canvas4]; [exact H11|].
    apply fdiv_le_one; try assumption. now apply fge_false_fle.
  - rewrite Hfit. destruct (fge ar canvas_ar) eqn:E; cbn [canvas5]; [|exact H11].
    apply fdiv_le_one; assumption.
  - rewrite Hfit. destruct (fge ar canvas_ar); cbn [canvas4 canvas5]; auto.
  - intros fd wall_w wall_h Ear Ecar cv. subst cv. unfold startFrame.
    cbn [canvas canvas0 canvas1]. rewrite Ear, Ecar, !Hfit.
    destruct (fge ar canvas_ar); repeat split; reflexivity.
Qed.

(** The example of the specification: an 800x600 desktop on a 16:9
    canvas has the smaller aspect ratio, so the extent is 0.75 x 1 and
    the origin (0.125, 0). *)
Lemma canvas_fit_extent_witness :
  fpositive ar_800_600 /\ fpositive ar_16_9 /\
  fge ar_800_600 ar_16_9 = false /\
  canvas_fit blank_canvas ar_800_600 ar_16_9
  = {| canvas0 := f0; canvas1 := f0;
       canvas2 := S754_finite false 8388608 (-26); canvas3 := f0;
       canvas4 := S754_finite false 12582912 (-24); canvas5 := f1 |} /\
  fle (canvas4 (canvas_fit blank_canvas ar_800_600 ar_16_9)) f1 = true /\
  fle (canvas5 (canvas_fit blank_canvas ar_800_600 ar_16_9)) f1 = true.
Proof.
  assert (H1 : fpositive ar_800_600) by (vm_compute; reflexivity).
  assert (H2 : fpositive ar_16_9) by (vm_compute; reflexivity).
  split; [exact H1|]. split; [exact H2|].
  split; [vm_compute; reflexivity|]. split; [vm_compute; reflexivity|].
  pose proof (canvas_fit_extent blank_canvas ar_800_600 ar_16_9 H1 H2)
    as (_ & _ & _ & _ & H4 & H5 & _).
  split; [exact H4|exact H5].
Defined.

(** * Evaluations of the model on small inputs *)

Example wrap32_past_int_max : wrap32 (int_max + 1) = int_min.
Proof. reflexivity. Qed.

Example int_mul_wraps : int_mul 65536 65536 = 0.
Proof. reflexivity. Qed.

(** 3.75 is truncated to 3, -0.5 to 0; an infinity has no integral part. *)
Example int_of_float_truncates :
  int_of_float (S754_finite false 15728640 (-22)) = 3 /\
  int_of_float (S754_finite true 8388608 (-24)) = 0 /\
  int_of_float (S754_infinity false) = int_min.
Proof. repeat split; reflexivity. Qed.

Example clamp_coordinate_cases :
  clamp_coordinate (-5) 800 = 0 /\ clamp_coordinate 17 800 = 17 /\
  clamp_coordinate 800 800 = 799 /\ clamp_coordinate 0 0 = -1.
Proof. repeat split; reflexivity. Qed.

(** Without the bounds of its dirty rectangles a frame state has no
    snapshot: serializing the rectangle [{2, 2, 5, 5}] of a 4x4 desktop
    reads beyond the buffer. *)
Example getInstanceData_out_of_bounds :
  getInstanceData
    {| vnc_width := 4; vnc_height := 4; canvas := blank_canvas;
       vnc_framebuffer := repeat 0 16;
       vnc_dirty_rectangles := [ {| r_x := 2; r_y := 2; r_w := 5; r_h := 5 |} ] |} []
  = None.
Proof. vm_compute. reflexivity. Qed.

(** The snapshot of the 4x3 sample and what a fresh replica makes of it. *)
Example small_frame_snapshot :
  getInstanceData small_frame []
  = Some ([d_int 4; d_int 3] ++ write_canvas blank_canvas
          ++ [d_size 2;
              d_int 1; d_int 0; d_int 2; d_int 2;
              d_uint 12; d_uint 13; d_uint 22; d_uint 23;
              d_int 2; d_int 1; d_int 2; d_int 2;
              d_uint 23; d_uint 24; d_uint 33; d_uint 34]).
Proof. vm_compute. reflexivity. Qed.

Example small_frame_replica :
  (bytes ← getInstanceData small_frame [];
   applyInstanceData (new_frame_data blank_canvas) bytes)
  = Some ({| vnc_width := 4; vnc_height := 3; canvas := blank_canvas;
             vnc_framebuffer := [0; 12; 13; 0; 0; 22; 23; 24; 0; 0; 33; 34];
             vnc_dirty_rectangles := [] |}, []).
Proof. vm_compute. reflexivity. Qed.

Example small_replica_update :
  (bytes ← getInstanceData small_frame [];
   applyInstanceData small_replica bytes)
  = Some ({| vnc_width := 4; vnc_height := 3; canvas := blank_canvas;
             vnc_framebuffer := [1; 12; 13; 4; 5; 22; 23; 24; 9; 10; 33; 34];
             vnc_dirty_rectangles := [] |}, []).
Proof. vm_compute. reflexivity. Qed.

(** A resize whose pixel count wraps to a negative [int] throws. *)
Example vnc_resize_overflow :
  vnc_resize (new_frame_data blank_canvas) 65536 32768 = None.
Proof. reflexivity. Qed.

(** 1000 / 1000 and 500 / 1000 in binary32. *)
Example cylinder_fractions :
  fdiv (float_of_int 1000) (float_of_int cylinder_N) = f1 /\
  fdiv (float_of_int 500) (float_of_int cylinder_N) = f0_5.
Proof. split; vm_compute; reflexivity. Qed.

(** * Further properties of the frame data *)

Lemma length_encode_rects fd rs :
  Forall rect_nonneg rs ->
  length (flat_map (encode_rect fd) rs)
  = list_sum (map (fun r => 4 + Z.to_nat (r_w r * r_h r))%nat rs).
Proof.
  induction rs as [|r rs IH]; intros Hnn; [reflexivity|].
  inversion Hnn as [|? ? Hr Hrs]; subst. cbn [flat_map map list_sum].
  rewrite length_app, IH by assumption. unfold encode_rect.
  rewrite length_app, length_map, length_rect_pixels by assumption. reflexivity.
Qed.

(** X1: the number of values of a snapshot depends on the dirty
    rectangles only: nine values and, for each rectangle, four bounds
    and [w * h] pixels, whatever the size of the desktop. *)
Theorem snapshot_length (fd : eq_frame_data) :
  frame_wf fd -> dirty_in_bounds fd -> Forall rect_nonneg (vnc_dirty_rectangles fd) ->
  exists snapshot,
    getInstanceData fd [] = Some snapshot /\
    length snapshot = snapshot_size (vnc_dirty_rectangles fd).
Proof.
  intros Hwf Hin Hnn. exists (encode_frame fd). split.
  - now apply getInstanceData_ok.
  - unfold encode_frame, snapshot_size.
    rewrite !length_app, length_encode_rects by assumption. reflexivity.
Qed.

Lemma snapshot_length_witness :
  exists snapshot,
    getInstanceData delta_example [] = Some snapshot /\ length snapshot = 38%nat.
Proof.
  apply (snapshot_length delta_example); frame_facts.
Defined.

(** Every position of a non-empty row-major buffer is a pixel. *)
Lemma index_is_pixel width height j :
  0 <= width -> 0 <= height -> (j < Z.to_nat (width * height))%nat ->
  exists x y, 0 <= x < width /\ 0 <= y < height /\ j = Z.to_nat (y * width + x).
Proof.
  intros Hw Hh Hj.
  assert (Hpos : 0 < width) by nia.
  exists (Z.of_nat j mod width), (Z.of_nat j / width).
  pose proof (Z.mod_pos_bound (Z.of_nat j) width Hpos).
  pose proof (Z.div_mod (Z.of_nat j) width ltac:(lia)) as Hdm.
  assert (0 <= Z.of_nat j / width) by (apply Z.div_pos; lia).
  assert (Z.of_nat j / width < height) by (apply Z.div_lt_upper_bound; lia).
  repeat split; lia.
Qed.

Lemma copy_full_rectangle (src : eq_frame_data) (fb0 : list Z) :
  frame_wf src ->
  In (full_rectangle (vnc_width src) (vnc_height src)) (vnc_dirty_rectangles src) ->
  length fb0 = length (vnc_framebuffer src) ->
  copy_indices (vnc_framebuffer src)
    (flat_map (rect_indices (vnc_width src)) (vnc_dirty_rectangles src)) fb0
  = vnc_framebuffer src.
Proof.
  intros (HW & HH & HWH & Hlen & _) Hfull Hlen0.
  apply list_eq. intros j.
  destruct (Nat.lt_ge_cases j (length (vnc_framebuffer src))) as [Hj|Hj].
  - rewrite Hlen in Hj.
    destruct (index_is_pixel (vnc_width src) (vnc_height src) j (proj1 HW) (proj1 HH) Hj)
      as (x & y & Hx & Hy & ->).
    rewrite copy_indices_written.
    + symmetry. rewrite <- vec_get_lookup by nia. apply vec_get_nth. nia.
    + apply in_flat_map. eexists. split; [exact Hfull|].
      apply covers_in_rect_indices. unfold covers, full_rectangle. cbn. lia.
    + lia.
  - rewrite !lookup_ge_None_2; [reflexivity|lia|].
    rewrite length_copy_indices. lia.
Qed.

(** X2: a snapshot that contains the full-extent rectangle (as every
    first snapshot after a resize does) makes the buffer of any replica
    equal to the authoritative buffer, whatever the replica held and
    whatever its dimensions were. *)
Theorem full_snapshot_synchronises (src rep : eq_frame_data) :
  frame_wf src -> dirty_in_bounds src ->
  In (full_rectangle (vnc_width src) (vnc_height src)) (vnc_dirty_rectangles src) ->
  length (vnc_framebuffer rep) = Z.to_nat (vnc_width rep * vnc_height rep) ->
  exists snapshot rep',
    getInstanceData src [] = Some snapshot /\
    applyInstanceData rep snapshot = Some (rep', []) /\
    vnc_width rep' = vnc_width src /\ vnc_height rep' = vnc_height src /\
    vnc_framebuffer rep' = vnc_framebuffer src.
Proof.
  intros Hwf Hin Hfull Hrep.
  pose proof Hwf as (HW & HH & HWH & Hlen & _).
  destruct (applyInstanceData_ok src Hwf rep [] Hin) as (fb0 & Hlen0 & _ & Happly).
  { intros EW EH. rewrite Hrep, Hlen, EW, EH. reflexivity. }
  rewrite app_nil_r in Happly.
  eexists. eexists. split; [apply getInstanceData_ok; assumption|].
  split; [exact Happly|]. cbn [vnc_width vnc_height vnc_framebuffer].
  split; [reflexivity|]. split; [reflexivity|].
  now apply copy_full_rectangle.
Qed.

Lemma full_snapshot_synchronises_witness :
  exists snapshot rep',
    getInstanceData resized_frame [] = Some snapshot /\
    applyInstanceData stale_replica snapshot = Some (rep', []) /\
    vnc_width rep' = 4 /\ vnc_height rep' = 3 /\
    vnc_framebuffer rep' = [11; 12; 13; 14; 21; 22; 23; 24; 31; 32; 33; 34].
Proof.
  apply (full_snapshot_synchronises resized_frame stale_replica).
  - frame_facts.
  - frame_facts.
  - left. reflexivity.
  - reflexivity.
Defined.

Lemma copy_indices_idempotent src idx fb :
  copy_indices src idx (copy_indices src idx fb) = copy_indices src idx fb.
Proof.
  apply list_eq. intros j.
  destruct (in_dec Nat.eq_dec j idx) as [Hin|Hout].
  - destruct (Nat.lt_ge_cases j (length fb)) as [Hj|Hj].
    + rewrite !copy_indices_written; try assumption; [reflexivity|].
      now rewrite length_copy_indices.
    + rewrite !lookup_ge_None_2; [reflexivity| |]; rewrite ?length_copy_indices; lia.
  - now rewrite copy_indices_other.
Qed.

(** X3: applying a snapshot a second time changes nothing: the replica
    a snapshot produces is a fixed point of that snapshot. *)
Theorem applyInstanceData_idempotent (src rep : eq_frame_data) :
  frame_wf src -> dirty_in_bounds src ->
  length (vnc_framebuffer rep) = Z.to_nat (vnc_width rep * vnc_height rep) ->
  exists snapshot rep',
    getInstanceData src [] = Some snapshot /\
    applyInstanceData rep snapshot = Some (rep', []) /\
    applyInstanceData rep' snapshot = Some (rep', []).
Proof.
  intros Hwf Hin Hrep.
  pose proof Hwf as (HW & HH & HWH & Hlen & _).
  destruct (applyInstanceData_ok src Hwf rep [] Hin) as (fb0 & Hlen0 & _ & Happly).
  { intros EW EH. rewrite Hrep, Hlen, EW, EH. reflexivity. }
  rewrite app_nil_r in Happly.
  match type of Happly with _ = Some (?r, _) => set (rep1 := r) in * end.
  exists (encode_frame src), rep1.
  split; [apply getInstanceData_ok; assumption|].
  split; [exact Happly|].
  destruct (applyInstanceData_ok src Hwf rep1 [] Hin) as (fb1 & _ & Hfb1 & Happly1).
  { intros _ _. unfold rep1. cbn. now rewrite length_copy_indices. }
  rewrite app_nil_r in Happly1. rewrite Happly1.
  rewrite (Hfb1 eq_refl eq_refl). unfold rep1. cbn [vnc_framebuffer vnc_dirty_rectangles].
  rewrite copy_indices_idempotent. reflexivity.
Qed.

Lemma applyInstanceData_idempotent_witness :
  exists snapshot rep',
    getInstanceData small_frame [] = Some snapshot /\
    applyInstanceData stale_replica snapshot = Some (rep', []) /\
    applyInstanceData rep' snapshot = Some (rep', []).
Proof.
  apply (applyInstanceData_idempotent small_frame stale_replica).
  - frame_facts.
  - frame_facts.
  - reflexivity.
Defined.

Lemma applyInstanceData_resized src rep rest :
  frame_wf src -> dirty_in_bounds src ->
  vnc_width src <> vnc_width rep \/ vnc_height src <> vnc_height rep ->
  applyInstanceData rep (encode_frame src ++ rest)
  = Some ({| vnc_width := vnc_width src; vnc_height := vnc_height src;
             canvas := canvas src;
             vnc_framebuffer :=
               copy_indices (vnc_framebuffer src)
                 (flat_map (rect_indices (vnc_width src)) (vnc_dirty_rectangles src))
                 (resize (length (vnc_framebuffer src)) 0 (vnc_framebuffer rep));
             vnc_dirty_rectangles := vnc_dirty_rectangles rep |}, rest).
Proof.
  intros Hwf Hin Hdiff.
  pose proof Hwf as (Hw & Hh & Hwh & Hlen & Hint).
  assert (Hmul : int_mul (vnc_width src) (vnc_height src) = vnc_width src * vnc_height src).
  { apply int_mul_id. unfold int_range, int_min. nia. }
  unfold applyInstanceData, encode_frame. cbn [app read_int mbind option_bind].
  replace (negb (vnc_width src =? vnc_width rep) || negb (vnc_height src =? vnc_height rep))
    with true.
  2:{ symmetry. apply orb_true_iff.
      destruct Hdiff as [H|H]; [left|right]; apply negb_true_iff, Z.eqb_neq; exact H. }
  rewrite Hmul. unfold vec_resize.
  destruct (vnc_width src * vnc_height src <? 0) eqn:En; [nia|].
  rewrite <- Hlen.
  destruct (canvas src) as [a0 a1 a2 a3 a4 a5].
  cbn [write_canvas canvas0 canvas1 canvas2 canvas3 canvas4 canvas5 app
       read_canvas read_float read_size mbind option_bind].
  rewrite (get_rectangles_ok src Hwf) by (try assumption; now rewrite length_resize).
  reflexivity.
Qed.

(** X4: when the dimensions of the snapshot differ from those of the
    replica, the buffer is resized, not cleared: a position that no
    transmitted rectangle covers keeps the value the old buffer had at
    the same position, and is zero where the old buffer was shorter. *)
Theorem applyInstanceData_stale_pixels (src rep : eq_frame_data) (j : nat) :
  frame_wf src -> dirty_in_bounds src ->
  vnc_width src <> vnc_width rep \/ vnc_height src <> vnc_height rep ->
  (j < length (vnc_framebuffer src))%nat ->
  ~ In j (flat_map (rect_indices (vnc_width src)) (vnc_dirty_rectangles src)) ->
  exists snapshot rep',
    getInstanceData src [] = Some snapshot /\
    applyInstanceData rep snapshot = Some (rep', []) /\
    length (vnc_framebuffer rep') = length (vnc_framebuffer src) /\
    vnc_framebuffer rep' !! j = Some (nth j (vnc_framebuffer rep) 0).
Proof.
  intros Hwf Hin Hdiff Hj Hout.
  pose proof (applyInstanceData_resized src rep [] Hwf Hin Hdiff) as Happly.
  rewrite app_nil_r in Happly.
  eexists. eexists. split; [apply getInstanceData_ok; assumption|].
  split; [exact Happly|]. cbn [vnc_framebuffer].
  split; [now rewrite length_copy_indices, length_resize|].
  rewrite copy_indices_other by assumption.
  destruct (Nat.lt_ge_cases j (length (vnc_framebuffer rep))) as [Hold|Hnew].
  - rewrite lookup_resize by assumption.
    destruct (lookup_lt_is_Some_2 _ _ Hold) as [p Hp]. rewrite Hp. f_equal.
    symmetry. now apply nth_lookup_Some.
  - rewrite lookup_resize_new by assumption. f_equal.
    symmetry. now apply nth_overflow.
Qed.

Lemma applyInstanceData_stale_pixels_witness :
  exists snapshot rep',
    getInstanceData small_frame [] = Some snapshot /\
    applyInstanceData stale_replica snapshot = Some (rep', []) /\
    length (vnc_framebuffer rep') = 12%nat /\
    vnc_framebuffer rep' !! 3%nat = Some 4.
Proof.
  apply (applyInstanceData_stale_pixels small_frame stale_replica 3).
  - frame_facts.
  - frame_facts.
  - left. discriminate.
  - cbn. lia.
  - vm_compute. intuition discriminate.
Defined.

(** ** Undefined reads *)

(** A loop stops with [None] when one of its iterations cannot succeed. *)
Lemma for_loop_fails {S} (body : Z -> S -> option S) n : forall lo s i,
  lo <= i < lo + Z.of_nat n -> (forall s', body i s' = None) ->
  for_loop n lo body s = None.
Proof.
  induction n as [|n IH]; intros lo s i Hi Hfail; [lia|].
  cbn [for_loop]. destruct (Z.eq_dec i lo) as [->|Hne].
  - now rewrite Hfail.
  - destruct (body lo s) as [s'|]; [|reflexivity].
    apply (IH _ _ i); [lia|assumption].
Qed.

Lemma put_rectangles_fails fd rs r : forall os,
  In r rs -> (forall os', put_rectangle fd os' r = None) ->
  put_rectangles fd rs os = None.
Proof.
  induction rs as [|r' rs IH]; intros os Hin Hfail; [destruct Hin|].
  cbn [put_rectangles]. destruct Hin as [->|Hin].
  - now rewrite Hfail.
  - destruct (put_rectangle fd os r'); [now apply IH|reflexivity].
Qed.

(** X5: a frame state with a dirty rectangle that covers a pixel below
    the last row of the desktop has no snapshot: serializing it reads
    beyond the buffer, whatever the other rectangles are. *)
Theorem getInstanceData_reads_beyond_buffer
    (fd : eq_frame_data) (r : rectangle_t) (x y : Z) (os : stream) :
  frame_wf fd -> In r (vnc_dirty_rectangles fd) -> rect_is_int r ->
  int_range (r_x r + r_w r) -> int_range (r_y r + r_h r) ->
  covers r x y -> 0 <= x -> vnc_height fd <= y ->
  y * vnc_width fd + x <= int_max ->
  getInstanceData fd os = None.
Proof.
  intros (HW & HH & HWH & Hlen & _) Hr Hint Hxw Hyh [Hx Hy] Hx0 Hy0 Hidx.
  unfold getInstanceData. apply (put_rectangles_fails fd _ r); [assumption|].
  intros os'. unfold put_rectangle, for_range.
  rewrite !int_add_id by assumption.
  apply (for_loop_fails _ _ _ _ y); [lia|]. intros s1.
  apply (for_loop_fails _ _ _ _ x); [lia|]. intros s2.
  unfold put_pixel.
  assert (0 <= y * vnc_width fd) by nia.
  rewrite int_mul_id by (unfold int_range, int_min, int_max in *; lia).
  rewrite int_add_id by (unfold int_range, int_min, int_max in *; lia).
  rewrite vec_get_lookup by lia.
  rewrite lookup_ge_None_2; [reflexivity|]. rewrite Hlen. nia.
Qed.

Lemma getInstanceData_reads_beyond_buffer_witness :
  getInstanceData overhanging_frame [] = None.
Proof.
  apply (getInstanceData_reads_beyond_buffer overhanging_frame
           {| r_x := 2; r_y := 2; r_w := 5; r_h := 5 |} 2 4 []).
  - frame_facts.
  - left. reflexivity.
  - frame_facts.
  - frame_facts.
  - frame_facts.
  - unfold covers. cbn. lia.
  - lia.
  - cbn. lia.
  - cbn. unfold int_max. lia.
Defined.

(** ** The viewer loop: every commit can be serialized *)

Lemma vnc_resize_wf fd w h :
  1 <= w <= int_max -> 1 <= h <= int_max -> w * h <= int_max ->
  exists fd', vnc_resize fd w h = Some fd' /\ frame_wf fd' /\
              vnc_width fd' = w /\ vnc_height fd' = h /\
              vnc_dirty_rectangles fd' = [full_rectangle w h].
Proof.
  intros Hw Hh Hwh.
  assert (Hid : int_mul w h = w * h)
    by (apply int_mul_id; unfold int_range, int_min; nia).
  rewrite vnc_resize_positive by (rewrite Hid; nia). rewrite Hid.
  eexists. split; [reflexivity|].
  split; [|repeat split; reflexivity].
  unfold frame_wf. cbn. repeat split; try lia.
  - now rewrite length_resize.
  - constructor; [|constructor]. unfold rect_is_int, int_range, int_min, int_max in *. cbn. lia.
Qed.

Lemma step_wf screen fd ev :
  frame_wf fd -> event_wf ev ->
  exists fd' commits, step screen fd ev = Some (fd', commits) /\
                      frame_wf fd' /\ Forall frame_wf commits.
Proof.
  intros Hwf Hev. destruct ev as [w h|x y w h|ww wh]; cbn [step].
  - destruct Hev as (Hw & Hh & Hwh).
    destruct (vnc_resize_wf fd w h Hw Hh Hwh) as (fd' & -> & Hwf' & _).
    exists fd', []. split; [reflexivity|]. split; [assumption|constructor].
  - eexists. eexists. split; [reflexivity|]. split; [|constructor].
    destruct Hwf as (HW & HH & HWH & Hlen & Hint). unfold frame_wf. cbn.
    repeat split; try assumption; try lia.
    apply Forall_app. split; [assumption|]. constructor; [exact Hev|constructor].
  - eexists. eexists. split; [reflexivity|].
    destruct (startFrame_fields screen ww wh fd) as (FW & FH & FB & FR).
    destruct Hwf as (HW & HH & HWH & Hlen & Hint).
    split; [|constructor; [|constructor]]; unfold frame_wf; cbn;
      rewrite ?FW, ?FH, ?FB, ?FR; repeat split; try assumption; try lia; constructor.
Qed.

(** X6: starting from a well-formed frame state, a viewer whose
    resizes are to desktops of at least one pixel and of representable
    size and whose updates lie within the desktop never stops, and each
    frame data it commits is well formed and has a snapshot: no commit
    reads outside the buffer. *)
Theorem commits_are_serializable
    (screen : screen_t) (evs : list event) (fd : eq_frame_data) :
  frame_wf fd -> dirty_in_bounds fd ->
  Forall event_wf evs ->
  updates_in_bounds evs (vnc_width fd) (vnc_height fd) ->
  exists fd' commits,
    run screen evs fd = Some (fd', commits) /\
    frame_wf fd' /\ dirty_in_bounds fd' /\
    Forall (fun c => frame_wf c /\ dirty_in_bounds c /\
                     getInstanceData c [] = Some (encode_frame c)) commits.
Proof.
  revert fd. induction evs as [|ev evs IH]; intros fd Hwf Hin Hevs Hup.
  - exists fd, []. split; [reflexivity|]. split; [assumption|]. split; [assumption|constructor].
  - inversion Hevs as [|? ? Hev Hevs']; subst.
    destruct (step_wf screen fd ev Hwf Hev) as (fd1 & c1 & Hstep & Hwf1 & Hc1).
    pose proof (step_dimensions _ _ _ _ _ Hstep) as Hdim.
    destruct (step_dirty_in_bounds screen fd ev fd1 c1 Hin) as [Hin1 Hb1]; [|assumption|].
    { destruct ev; cbn in *; tauto. }
    destruct (IH fd1 Hwf1 Hin1 Hevs') as (fd2 & c2 & Hrun & Hwf2 & Hin2 & Hc2).
    { destruct ev; cbn in Hup; destruct Hdim as [-> ->]; tauto. }
    exists fd2, (c1 ++ c2). cbn [run]. rewrite Hstep. cbn [mbind option_bind].
    rewrite Hrun. split; [reflexivity|]. split; [assumption|]. split; [assumption|].
    apply Forall_app. split; [|assumption].
    apply List.Forall_forall. intros c Hc.
    pose proof (proj1 (List.Forall_forall _ _) Hc1 c Hc) as Hcwf.
    pose proof (proj1 (List.Forall_forall _ _) Hb1 c Hc) as Hcin.
    split; [assumption|]. split; [assumption|]. now apply getInstanceData_ok.
Qed.

Lemma commits_are_serializable_witness :
  exists fd' commits,
    run screen_canvas
        [ev_resize 4 4; ev_update 1 1 2 2; ev_frame f1 f1; ev_update 0 0 4 4; ev_frame f1 f1]
        (new_frame_data blank_canvas)
    = Some (fd', commits) /\
    frame_wf fd' /\ dirty_in_bounds fd' /\
    Forall (fun c => frame_wf c /\ dirty_in_bounds c /\
                     getInstanceData c [] = Some (encode_frame c)) commits.
Proof.
  apply (commits_are_serializable screen_canvas
           [ev_resize 4 4; ev_update 1 1 2 2; ev_frame f1 f1; ev_update 0 0 4 4; ev_frame f1 f1]
           (new_frame_data blank_canvas)).
  - frame_facts.
  - frame_facts.
  - unfold event_wf, rect_is_int, int_range.
    repeat first [ split | apply List.Forall_cons | apply List.Forall_nil ];
      vm_compute; first [ reflexivity | discriminate ].
  - unfold updates_in_bounds, rect_in_bounds. cbn. lia.
Defined.

(** ** Idle frames *)




(** ** Streams of snapshots *)

Lemma read_int_app s t z r : read_int s = Some (z, r) -> read_int (s ++ t) = Some (z, r ++ t).
Proof. destruct s as [|[]]; cbn; intros E; try discriminate. now injection E as <- <-. Qed.

Lemma read_uint_app s t z r : read_uint s = Some (z, r) -> read_uint (s ++ t) = Some (z, r ++ t).
Proof. destruct s as [|[]]; cbn; intros E; try discriminate. now injection E as <- <-. Qed.

Lemma read_size_app s t z r : read_size s = Some (z, r) -> read_size (s ++ t) = Some (z, r ++ t).
Proof. destruct s as [|[]]; cbn; intros E; try discriminate. now injection E as <- <-. Qed.

Lemma read_float_app s t z r : read_float s = Some (z, r) -> read_float (s ++ t) = Some (z, r ++ t).
Proof. destruct s as [|[]]; cbn; intros E; try discriminate. now injection E as <- <-. Qed.

Lemma read_canvas_app s t c r :
  read_canvas s = Some (c, r) -> read_canvas (s ++ t) = Some (c, r ++ t).
Proof.
  unfold read_canvas. intros H.
  do 6 (let E := fresh "E" in
        match type of H with
        | context [read_float ?s0] =>
            destruct (read_float s0) as [[? ?]|] eqn:E; [|discriminate H];
            rewrite (read_float_app _ t _ _ E); cbn [mbind option_bind] in H |- *
        end).
  now injection H as <- <-.
Qed.

(** A loop over a state and a stream whose body looks only at what it
    consumes does so as well. *)
Lemma for_loop_app {A} (body : Z -> A * stream -> option (A * stream)) t n : forall lo a s a' r,
  (forall i a s a' r, body i (a, s) = Some (a', r) -> body i (a, s ++ t) = Some (a', r ++ t)) ->
  for_loop n lo body (a, s) = Some (a', r) ->
  for_loop n lo body (a, s ++ t) = Some (a', r ++ t).
Proof.
  induction n as [|n IH]; intros lo a s a' r Hbody H; cbn [for_loop] in *.
  - now injection H as <- <-.
  - destruct (body lo (a, s)) as [[a1 s1]|] eqn:E; [|discriminate].
    rewrite (Hbody _ _ _ _ _ E). now apply IH.
Qed.

Lemma get_pixel_app width y x fb s t fb' r :
  get_pixel width y x (fb, s) = Some (fb', r) ->
  get_pixel width y x (fb, s ++ t) = Some (fb', r ++ t).
Proof.
  unfold get_pixel. intros H.
  destruct (read_uint s) as [[p s1]|] eqn:E; [|discriminate].
  rewrite (read_uint_app _ t _ _ E). cbn [mbind option_bind] in *.
  destruct (vec_set fb _ p); [|discriminate]. cbn in *. now injection H as <- <-.
Qed.

Lemma get_rectangle_app width fb s t fb' r :
  get_rectangle width (fb, s) = Some (fb', r) ->
  get_rectangle width (fb, s ++ t) = Some (fb', r ++ t).
Proof.
  unfold get_rectangle. intros H.
  do 4 (let E := fresh "E" in
        match type of H with
        | context [read_int ?s0] =>
            destruct (read_int s0) as [[? ?]|] eqn:E; [|discriminate H];
            rewrite (read_int_app _ t _ _ E); cbn [mbind option_bind] in H |- *
        end).
  unfold for_range in *. revert H. apply for_loop_app.
  intros ? ? ? ? ?. apply for_loop_app.
  intros ? ? ? ? ?. apply get_pixel_app.
Qed.

Lemma get_rectangles_app width t n : forall fb s fb' r,
  get_rectangles width n (fb, s) = Some (fb', r) ->
  get_rectangles width n (fb, s ++ t) = Some (fb', r ++ t).
Proof.
  induction n as [|n IH]; intros fb s fb' r H; cbn [get_rectangles] in *.
  - now injection H as <- <-.
  - destruct (get_rectangle width (fb, s)) as [[fb1 s1]|] eqn:E; [|discriminate].
    rewrite (get_rectangle_app _ _ _ t _ _ E). now apply IH.
Qed.

(** X8: [applyInstanceData] never looks beyond the snapshot it
    consumes: whatever follows in the stream is left for the next read,
    so snapshots written one after the other are applied one after the
    other. *)
Theorem applyInstanceData_leaves_rest
    (rep rep' : eq_frame_data) (s t rest : stream) :
  applyInstanceData rep s = Some (rep', rest) ->
  applyInstanceData rep (s ++ t) = Some (rep', rest ++ t).
Proof.
  unfold applyInstanceData. intros H.
  destruct (read_int s) as [[w s1]|] eqn:E1; [|discriminate].
  rewrite (read_int_app _ t _ _ E1). cbn [mbind option_bind] in *.
  destruct (read_int s1) as [[h s2]|] eqn:E2; [|discriminate].
  rewrite (read_int_app _ t _ _ E2). cbn [mbind option_bind] in *.
  destruct (if negb (w =? vnc_width rep) || negb (h =? vnc_height rep)
            then vec_resize (vnc_framebuffer rep) (int_mul w h)
            else Some (vnc_framebuffer rep)) as [fb|]; [|discriminate].
  cbn [mbind option_bind] in *.
  destruct (read_canvas s2) as [[c s3]|] eqn:E3; [|discriminate].
  rewrite (read_canvas_app _ t _ _ E3). cbn [mbind option_bind] in *.
  destruct (read_size s3) as [[n s4]|] eqn:E4; [|discriminate].
  rewrite (read_size_app _ t _ _ E4). cbn [mbind option_bind] in *.
  destruct (get_rectangles w n (fb, s4)) as [[fb' s5]|] eqn:E5; [|discriminate].
  pose proof (get_rectangles_app _ t _ _ _ _ _ E5) as E5'.
  unfold stream in *. rewrite E5'. cbn [mbind option_bind] in *.
  now injection H as <- <-.
Qed.

Lemma applyInstanceData_leaves_rest_witness :
  applyInstanceData small_replica
    (([d_int 4; d_int 3] ++ write_canvas blank_canvas ++ [d_size 0]) ++ [d_int 7; d_uint 9])
  = Some (small_replica, [] ++ [d_int 7; d_uint 9]).
Proof.
  apply (applyInstanceData_leaves_rest small_replica small_replica). reflexivity.
Defined.

(** * The initialisation data *)

Lemma read_write_floats a rest l :
  read_floats (length l) (map (fun i => iv_datum (d_float (arr a i))) l ++ rest)
  = Some (map (arr a) l, rest).
Proof.
  induction l as [|i l IH]; [reflexivity|].
  cbn [length map app read_floats]. rewrite IH. reflexivity.
Qed.

Lemma read_floats_written a n rest :
  read_floats n (write_floats a n ++ rest) = Some (map (arr a) (seq 0 n), rest).
Proof.
  unfold write_floats.
  pose proof (read_write_floats a rest (seq 0 n)) as E.
  now rewrite length_seq in E.
Qed.

Lemma map_arr_seq a : map (arr a) (seq 0 (length a)) = a.
Proof.
  induction a as [|x a IH]; [reflexivity|].
  cbn [length seq map]. f_equal. rewrite <- seq_shift, map_map. exact IH.
Qed.

Lemma screen_of_int_of_screen s : screen_of_int (int_of_screen s) = Some s.
Proof. destruct s; reflexivity. Qed.

Lemma init_round_trip_gen init rest :
  init_applyInstanceData (init_getInstanceData init [] ++ rest)
  = Some ({| frame_data_id := frame_data_id init; view_only := view_only init;
             screen := screen init;
             wall := map (arr (wall init)) (seq 0 9);
             cylinder := map (arr (cylinder init)) (seq 0 10);
             head_matrix := map (arr (head_matrix init)) (seq 0 16) |}, rest).
Proof.
  unfold init_getInstanceData, init_applyInstanceData.
  cbn [app]. rewrite screen_of_int_of_screen. cbn [mbind option_bind].
  rewrite <- !app_assoc.
  rewrite read_floats_written. cbn [mbind option_bind].
  rewrite read_floats_written. cbn [mbind option_bind].
  rewrite read_floats_written. cbn [mbind option_bind].
  reflexivity.
Qed.

(** X10: the initialisation data survive their distribution: a node
    that applies what [getInstanceData] wrote holds the same identifier,
    view-only flag, screen kind, wall, cylinder and head matrix. *)
Theorem init_data_round_trip (init : eq_init_data) :
  length (wall init) = 9%nat -> length (cylinder init) = 10%nat ->
  length (head_matrix init) = 16%nat ->
  init_applyInstanceData (init_getInstanceData init []) = Some (init, []).
Proof.
  intros Hw Hc Hh.
  rewrite <- (app_nil_r (init_getInstanceData init [])), init_round_trip_gen.
  rewrite <- Hh, <- Hc, <- Hw, !map_arr_seq. destruct init; reflexivity.
Qed.

Lemma init_data_round_trip_witness :
  init_applyInstanceData
    (init_getInstanceData
       {| frame_data_id := 5; view_only := true; screen := screen_cylinder;
          wall := repeat f0 9; cylinder := repeat f1 10; head_matrix := repeat f2 16 |} [])
  = Some ({| frame_data_id := 5; view_only := true; screen := screen_cylinder;
             wall := repeat f0 9; cylinder := repeat f1 10; head_matrix := repeat f2 16 |}, []).
Proof.
  apply (init_data_round_trip
           {| frame_data_id := 5; view_only := true; screen := screen_cylinder;
              wall := repeat f0 9; cylinder := repeat f1 10; head_matrix := repeat f2 16 |});
    reflexivity.
Defined.

Lemma copy_array_lookup src n : forall dst i,
  (n <= length dst)%nat ->
  copy_array n src dst !! i = if (i <? n)%nat then Some (arr src i) else dst !! i.
Proof.
  unfold copy_array. induction n as [|n IH]; intros dst i Hn.
  - reflexivity.
  - rewrite seq_S, fold_left_app. cbn [fold_left Nat.add].
    assert (Hlen : length (fold_left (fun d k => <[k := arr src k]> d) (seq 0 n) dst)
                   = length dst).
    { clear. generalize (seq 0 n). intros l. revert dst.
      induction l as [|k l IH]; intros dst; cbn; [reflexivity|].
      now rewrite IH, length_insert. }
    destruct (Nat.eq_dec i n) as [->|Hne].
    + rewrite list_lookup_insert_eq by lia.
      replace (n <? S n)%nat with true by (symmetry; apply Nat.ltb_lt; lia). reflexivity.
    + rewrite list_lookup_insert_ne by congruence. rewrite IH by lia.
      destruct (Nat.ltb_spec i n), (Nat.ltb_spec i (S n)); try reflexivity; lia.
Qed.

Lemma copy_array_full src n dst :
  length dst = n -> copy_array n src dst = map (arr src) (seq 0 n).
Proof.
  intros Hn. apply list_eq. intros i.
  rewrite copy_array_lookup by lia.
  destruct (Nat.ltb_spec i n) as [Hi|Hi].
  - rewrite list_lookup_fmap, lookup_seq_lt by assumption. reflexivity.
  - rewrite !lookup_ge_None_2; [reflexivity| |lia].
    rewrite length_map, length_seq. lia.
Qed.

(** X11: what a node draws is fixed by the screen definition handed to
    [eq_config::init]: after initialisation, distribution and mapping,
    a wall screen is drawn with the corners [screen_def[0..8]] and a
    cylinder screen with the parameters [screen_def[0..9]]; and the
    initialisation of a canvas screen fails when the configuration has
    no canvas. *)
Theorem node_draws_configured_screen
    (M : libm) (frame_id : Z) (n_canvases : nat) (base_init vo : bool)
    (screen_def head : list float) (init0 : eq_init_data)
    (fd : eq_frame_data) (viewport : Viewport) (texture : Z) :
  length (wall init0) = 9%nat -> length (cylinder init0) = 10%nat ->
  let sd := arr screen_def in
  (exists node,
     init_applyInstanceData
       (init_getInstanceData
          (snd (eq_config_init frame_id n_canvases base_init vo screen_wall
                  screen_def head init0)) [])
     = Some (node, []) /\
     frameDraw M node fd viewport texture
     = frameDraw M (wall_init (sd 0, sd 1, sd 2) (sd 3, sd 4, sd 5) (sd 6, sd 7, sd 8))%nat
                 fd viewport texture) /\
  (exists node,
     init_applyInstanceData
       (init_getInstanceData
          (snd (eq_config_init frame_id n_canvases base_init vo screen_cylinder
                  screen_def head init0)) [])
     = Some (node, []) /\
     frameDraw M node fd viewport texture
     = frameDraw M (cylinder_init (sd 0, sd 1, sd 2) (sd 3, sd 4, sd 5)
                                  (sd 6) (sd 7) (sd 8) (sd 9))%nat
                 fd viewport texture) /\
  fst (eq_config_init frame_id 0 base_init vo screen_canvas screen_def head init0) = false.
Proof.
  intros Hw Hc sd. split; [|split; [|reflexivity]].
  - eexists. split.
    + rewrite <- (app_nil_r (init_getInstanceData _ [])). apply init_round_trip_gen.
    + unfold eq_config_init. cbn [snd wall screen].
      rewrite (copy_array_full screen_def 9) by assumption. reflexivity.
  - eexists. split.
    + rewrite <- (app_nil_r (init_getInstanceData _ [])). apply init_round_trip_gen.
    + unfold eq_config_init. cbn [snd cylinder screen].
      rewrite (copy_array_full screen_def 10) by assumption. reflexivity.
Qed.

Lemma node_draws_configured_screen_witness :
  exists node,
    init_applyInstanceData
      (init_getInstanceData
         (snd (eq_config_init 7 1 true false screen_wall sample_screen_def
                 (repeat f0 16) blank_init)) [])
    = Some (node, []) /\
    frameDraw any_libm node small_frame sample_vp 1
    = frameDraw any_libm (wall_init (f0, f0, f0) (f1, f0, f0) (f0, f1, f0))
                small_frame sample_vp 1.
Proof.
  exact (proj1 (node_draws_configured_screen any_libm 7 1 true false sample_screen_def
                  (repeat f0 16) blank_init small_frame sample_vp 1 eq_refl eq_refl)).
Defined.

(** * Input events *)

Lemma clamp_coordinate_range t size :
  1 <= size <= int_max -> 0 <= clamp_coordinate t size <= size - 1.
Proof.
  intros Hs. rewrite clamp_coordinate_spec by assumption. unfold clamp. lia.
Qed.

(** X12: whatever the event, the screen kind and the flags, a pointer
    position sent to the VNC server lies on the desktop. *)
Theorem sent_pointer_is_on_desktop
    (K : key_constants) (B : button_constants) (handled have_client vo : bool)
    (scr : screen_t) (fd : eq_frame_data) (ev : ConfigEvent) (x y buttons : Z) :
  1 <= vnc_width fd <= int_max -> 1 <= vnc_height fd <= int_max ->
  In (SendPointerEvent x y buttons)
     (snd (handleEvent K B handled have_client vo scr fd ev)) ->
  0 <= x <= vnc_width fd - 1 /\ 0 <= y <= vnc_height fd - 1.
Proof.
  intros HW HH. unfold handleEvent.
  destruct handled; [intros []|]. destruct vo; [intros []|].
  destruct have_client; cbn [negb]; [|intros []].
  assert (Hsend : In (SendPointerEvent x y buttons) (send_pointer B fd ev) ->
                  0 <= x <= vnc_width fd - 1 /\ 0 <= y <= vnc_height fd - 1).
  { unfold send_pointer, eqptr_to_rfbptr. intros [E|[]]. injection E as <- <- _.
    split; now apply clamp_coordinate_range. }
  destruct (ce_type ev), scr; cbn [snd]; try exact Hsend;
    intros Hin; cbn in Hin; intuition discriminate.
Qed.

Lemma sent_pointer_is_on_desktop_witness :
  In (SendPointerEvent 799 0 25)
     (snd (handleEvent sample_keys sample_buttons false true false screen_canvas
             pointer_frame pointer_event_sample)) /\
  0 <= 799 <= 800 - 1 /\ 0 <= 0 <= 600 - 1.
Proof.
  assert (Hin : In (SendPointerEvent 799 0 25)
                  (snd (handleEvent sample_keys sample_buttons false true false screen_canvas
                          pointer_frame pointer_event_sample)))
    by (vm_compute; left; reflexivity).
  split; [exact Hin|].
  apply (sent_pointer_is_on_desktop sample_keys sample_buttons false true false screen_canvas
           pointer_frame pointer_event_sample 799 0 25); [|  |exact Hin];
    cbn; unfold int_max; lia.
Defined.

(** X13: in view-only mode, without a VNC client, or for an event the
    base class handled, nothing is sent; on a wall or cylinder screen no
    pointer event is ever sent; and no event makes the viewer send more
    than one message. *)
Theorem handleEvent_silence
    (K : key_constants) (B : button_constants) (handled have_client vo : bool)
    (scr : screen_t) (fd : eq_frame_data) (ev : ConfigEvent) :
  let sent := snd (handleEvent K B handled have_client vo scr fd ev) in
  (handled = true \/ vo = true \/ have_client = false -> sent = []) /\
  (scr <> screen_canvas -> List.filter is_pointer_message sent = []) /\
  (length sent <= 1)%nat.
Proof.
  unfold handleEvent, send_pointer.
  destruct (eqptr_to_rfbptr B (ce_pointer ev) (ce_pvp ev) (ce_vp ev) (canvas fd)
              (vnc_width fd) (vnc_height fd)) as [[px py] pb].
  destruct handled, vo, have_client, (ce_type ev), scr; cbn;
    repeat split; intros; try reflexivity; try lia; try congruence; intuition discriminate.
Qed.

Lemma handleEvent_silence_witness :
  snd (handleEvent sample_keys sample_buttons false true true screen_canvas
         pointer_frame pointer_event_sample) = [] /\
  List.filter is_pointer_message
    (snd (handleEvent sample_keys sample_buttons false true false screen_wall
            pointer_frame pointer_event_sample)) = [].
Proof.
  split.
  - apply (proj1 (handleEvent_silence sample_keys sample_buttons false true true
                    screen_canvas pointer_frame pointer_event_sample)).
    right. left. reflexivity.
  - apply (proj1 (proj2 (handleEvent_silence sample_keys sample_buttons false true false
                           screen_wall pointer_frame pointer_event_sample))).
    discriminate.
Defined.

Lemma land_or_if c m b k :
  Z.land (or_if c m b) k = if c then Z.lor (Z.land b k) (Z.land m k) else Z.land b k.
Proof. destruct c; cbn; [apply Z.land_lor_distr_l|reflexivity]. Qed.

(** X14: when the five button masks share no bit, each of them is set
    in the mask sent to the server exactly when its own condition holds:
    a button flag when the event has the corresponding button bit, the
    wheel-up flag when an axis is positive, the wheel-down flag when an
    axis is negative (both wheel flags at once when one axis is positive
    and the other negative). *)
Theorem button_mask_flags (B : button_constants) (e : PointerEvent)
    (pvp : PixelViewport) (vp : Viewport) (cv : canvas_t) (vnc_w vnc_h : Z) :
  disjoint_masks B ->
  let buttons := snd (eqptr_to_rfbptr B e pvp vp cv vnc_w vnc_h) in
  let flag (c : bool) (m : Z) := if c then m else 0 in
  Z.land buttons (rfbButton1Mask B)
  = flag (negb (Z.land (pe_buttons e) (PTR_BUTTON1 B) =? 0)) (rfbButton1Mask B) /\
  Z.land buttons (rfbButton2Mask B)
  = flag (negb (Z.land (pe_buttons e) (PTR_BUTTON2 B) =? 0)) (rfbButton2Mask B) /\
  Z.land buttons (rfbButton3Mask B)
  = flag (negb (Z.land (pe_buttons e) (PTR_BUTTON3 B) =? 0)) (rfbButton3Mask B) /\
  Z.land buttons (rfbWheelUpMask B)
  = flag ((pe_xAxis e >? 0) || (pe_yAxis e >? 0)) (rfbWheelUpMask B) /\
  Z.land buttons (rfbWheelDownMask B)
  = flag ((pe_xAxis e <? 0) || (pe_yAxis e <? 0)) (rfbWheelDownMask B).
Proof.
  intros Hd buttons flag. subst buttons flag. unfold eqptr_to_rfbptr. cbn [snd].
  pose proof (Hd 0 1 ltac:(lia))%nat as H12. pose proof (Hd 0 2 ltac:(lia))%nat as H13.
  pose proof (Hd 0 3 ltac:(lia))%nat as H14. pose proof (Hd 0 4 ltac:(lia))%nat as H15.
  pose proof (Hd 1 2 ltac:(lia))%nat as H23. pose proof (Hd 1 3 ltac:(lia))%nat as H24.
  pose proof (Hd 1 4 ltac:(lia))%nat as H25. pose proof (Hd 2 3 ltac:(lia))%nat as H34.
  pose proof (Hd 2 4 ltac:(lia))%nat as H35. pose proof (Hd 3 4 ltac:(lia))%nat as H45.
  cbn [nth] in *.
  pose proof (Z.land_comm (rfbButton1Mask B)) as C1.
  pose proof (Z.land_comm (rfbButton2Mask B)) as C2.
  pose proof (Z.land_comm (rfbButton3Mask B)) as C3.
  pose proof (Z.land_comm (rfbWheelUpMask B)) as C4.
  rewrite C1 in H12, H13, H14, H15. rewrite C2 in H23, H24, H25.
  rewrite C3 in H34, H35. rewrite C4 in H45.
  pose proof (Hd 0 1 ltac:(lia))%nat as G12. pose proof (Hd 0 2 ltac:(lia))%nat as G13.
  pose proof (Hd 0 3 ltac:(lia))%nat as G14. pose proof (Hd 0 4 ltac:(lia))%nat as G15.
  pose proof (Hd 1 2 ltac:(lia))%nat as G23. pose proof (Hd 1 3 ltac:(lia))%nat as G24.
  pose proof (Hd 1 4 ltac:(lia))%nat as G25. pose proof (Hd 2 3 ltac:(lia))%nat as G34.
  pose proof (Hd 2 4 ltac:(lia))%nat as G35. pose proof (Hd 3 4 ltac:(lia))%nat as G45.
  cbn [nth] in *. clear C1 C2 C3 C4 Hd.
  rewrite !land_or_if, !Z.land_0_l, !Z.land_diag.
  rewrite ?H12, ?H13, ?H14, ?H15, ?H23, ?H24, ?H25, ?H34, ?H35, ?H45,
          ?G12, ?G13, ?G14, ?G15, ?G23, ?G24, ?G25, ?G34, ?G35, ?G45.
  destruct (negb (Z.land (pe_buttons e) (PTR_BUTTON1 B) =? 0)),
           (negb (Z.land (pe_buttons e) (PTR_BUTTON2 B) =? 0)),
           (negb (Z.land (pe_buttons e) (PTR_BUTTON3 B) =? 0)),
           ((pe_xAxis e >? 0) || (pe_yAxis e >? 0)),
           ((pe_xAxis e <? 0) || (pe_yAxis e <? 0));
    rewrite ?Z.lor_0_l, ?Z.lor_0_r; repeat split; reflexivity.
Qed.

Lemma button_mask_flags_witness :
  snd (eqptr_to_rfbptr sample_buttons wheel_pointer sample_pvp sample_vp sample_canvas 800 600) = 25 /\
  Z.land 25 8 = 8 /\ Z.land 25 16 = 16 /\ Z.land 25 2 = 0.
Proof.
  assert (Hd : disjoint_masks sample_buttons).
  { intros i j Hij.
    destruct i as [|[|[|[|i]]]]; destruct j as [|[|[|[|[|j]]]]]; try lia; reflexivity. }
  pose proof (button_mask_flags sample_buttons wheel_pointer sample_pvp sample_vp
                sample_canvas 800 600 Hd) as (_ & H2 & _ & H4 & H5).
  assert (E : snd (eqptr_to_rfbptr sample_buttons wheel_pointer sample_pvp sample_vp
                     sample_canvas 800 600) = 25) by (vm_compute; reflexivity).
  rewrite E in H2, H4, H5.
  split; [exact E|]. split; [exact H4|]. split; [exact H5|exact H2].
Defined.

(** * Vectors and degenerate screens *)

Lemma fmul_comm x y : fmul x y = fmul y x.
Proof.
  unfold fmul, SFmul.
  destruct x as [sx|sx| |sx mx ex], y as [sy|sy| |sy my ey];
    try reflexivity; try (now rewrite xorb_comm).
  now rewrite xorb_comm, Pos.mul_comm, Z.add_comm.
Qed.

(** X15: the dot product is symmetric in binary32 arithmetic, for all
    values including infinities and NaN. *)
Theorem dot_symmetric (v w : vec3) : dot v w = dot w v.
Proof.
  unfold dot. now rewrite (fmul_comm (v0 v)), (fmul_comm (v1 v)), (fmul_comm (v2 v)).
Qed.

(** X16: a cylinder whose up vector is parallel to the canonical up
    axis [(0,1,0)] (pointing up or down, of any finite length, or zero)
    is drawn with a rotation about the zero vector: every component of
    the axis handed to [glRotatef] is a zero. *)
Theorem cylinder_parallel_up_has_zero_axis
    (M : libm) (center : vec3) (u radius phi_center phi_range theta_range : float) :
  is_finite u ->
  exists angle ax ay az,
    nth_error (draw_cylinder M (cylinder_init center (f0, u, f0)
                                  radius phi_center phi_range theta_range)) 1
    = Some (glRotatef angle ax ay az) /\
    is_zero ax /\ is_zero ay /\ is_zero az.
Proof.
  intros Hu. rewrite draw_cylinder_unfold. cbn [app nth_error].
  eexists. eexists. eexists. eexists. split; [reflexivity|].
  unfold up_rotation_axis, cross, v0, v1, v2. cbn [fst snd].
  destruct u as [[]| | |[] m e]; try contradiction; vm_compute; auto.
Qed.

Lemma cylinder_parallel_up_has_zero_axis_witness :
  exists angle ax ay az,
    nth_error (draw_cylinder any_libm (cylinder_init (f0, f0, f0) (f0, fneg f2, f0)
                                         f1 f0 f1 f1)) 1
    = Some (glRotatef angle ax ay az) /\
    is_zero ax /\ is_zero ay /\ is_zero az.
Proof.
  apply (cylinder_parallel_up_has_zero_axis any_libm (f0, f0, f0) (fneg f2) f1 f0 f1 f1).
  exact I.
Defined.

Lemma fsub_self x : fsub x x = f0 \/ fsub x x = S754_nan.
Proof.
  destruct x as [[]|[]| |s m e]; cbn; auto.
  left. unfold fsub, SFsub. rewrite Z.min_id, Z.sub_diag. reflexivity.
Qed.

(** X17: [get_lookat] does not guard the case of an eye point equal to
    the center point: it succeeds, and the nine entries of the rotation
    part of the head matrix are NaN, whatever the up vector; the last
    row still holds the eye point. *)
Theorem get_lookat_eye_at_center (e0 e1 e2 u0 u1 u2 : float) (head : list float) :
  exists m,
    get_lookat [e0; e1; e2; e0; e1; e2; u0; u1; u2] head = (true, m) /\
    Forall (fun i => nth i m f0 = S754_nan) [0; 1; 2; 4; 5; 6; 8; 9; 10]%nat /\
    (nth 12 m f0, nth 13 m f0, nth 14 m f0) = (e0, e1, e2) /\
    length m = 16%nat.
Proof.
  eexists. split; [reflexivity|].
  unfold lookat_matrix, v0, v1, v2. cbn [fst snd].
  destruct (fsub_self e0) as [-> | ->], (fsub_self e1) as [-> | ->],
    (fsub_self e2) as [-> | ->];
    (split; [|split; reflexivity]);
    repeat (apply List.Forall_cons; [vm_compute; reflexivity|]); apply List.Forall_nil.
Qed.

(** * More on the canvas fit *)

Lemma fle_refl_positive x : fpositive x -> fle x x = true.
Proof.
  destruct x as [| | |[] m e]; try contradiction. intros _.
  apply fle_finite_intro. right. split; [reflexivity|lia].
Qed.

(** A positive float divided by itself is exactly one. *)
Lemma fdiv_self x : fpositive x -> fdiv x x = f1.
Proof.
  destruct x as [| | |[] m e]; try contradiction. intros _.
  unfold fdiv, SFdiv, SFdiv_core_binary. rewrite fexp_unfold.
  replace (Zdigits2 (Zpos m) + e - (Zdigits2 (Zpos m) + e)) with 0 by lia.
  rewrite Z.sub_diag. cbn [Z.sub Z.max Z.min Z.add Z.opp Z.compare Z.pos_sub Pos.compare
                           Pos.compare_cont].
  change (Z.min (Z.max (0 - 24) (-149)) 0) with (-24).
  change (0 - -24) with 24.
  rewrite Z.shiftl_mul_pow2 by lia.
  pose proof (Z_div_mod (Zpos m * 2 ^ 24) (Zpos m) ltac:(lia)) as Hdm.
  destruct (Z.div_eucl (Zpos m * 2 ^ 24) (Zpos m)) as [q r]. destruct Hdm as [Edm Hr].
  assert (Hq : q = 2 ^ 24) by nia. assert (Hr0 : r = 0) by nia. subst q r.
  rewrite new_location_exact by reflexivity. reflexivity.
Qed.

(** X18: a desktop whose aspect ratio equals that of the canvas wall
    fills the canvas: [startFrame] stores the extent 1 x 1 and the
    origin (0, 0). *)
Theorem startFrame_equal_ratios (fd : eq_frame_data) (wall_w wall_h : float) :
  fpositive (fdiv wall_w wall_h) ->
  fdiv (float_of_int (vnc_width fd)) (float_of_int (vnc_height fd)) = fdiv wall_w wall_h ->
  canvas (startFrame screen_canvas wall_w wall_h fd)
  = {| canvas0 := wall_w; canvas1 := wall_h;
       canvas2 := f0; canvas3 := f0; canvas4 := f1; canvas5 := f1 |}.
Proof.
  intros Har E. unfold startFrame. cbn [canvas canvas0 canvas1]. rewrite E.
  unfold canvas_fit, fge. rewrite fle_refl_positive by assumption.
  rewrite fdiv_self by assumption. reflexivity.
Qed.

Lemma startFrame_equal_ratios_witness :
  canvas (startFrame screen_canvas (float_of_int 4) (float_of_int 3) pointer_frame)
  = {| canvas0 := float_of_int 4; canvas1 := float_of_int 3;
       canvas2 := f0; canvas3 := f0; canvas4 := f1; canvas5 := f1 |}.
Proof.
  apply (startFrame_equal_ratios pointer_frame (float_of_int 4) (float_of_int 3));
    vm_compute; reflexivity.
Defined.

(** * The texture of a window *)

(** A window whose texture has the dimensions of the frame data and is
    marked as updated: [frameStart] binds the texture and nothing else. *)
Lemma frameStart_repeated (gen : Z) (fd : eq_frame_data) (win : eq_window) :
  tex win <> 0 -> tex_w win = vnc_width fd -> tex_h win = vnc_height fd ->
  tex_updated win = true ->
  eq_window_frameStart gen fd win
  = Some (win, [w_glBindTexture (tex win); w_eq_Window_frameStart]).
Proof.
  intros Ht Hw Hh Hu. unfold eq_window_frameStart.
  apply Z.eqb_neq in Ht. rewrite Ht, <- Hw, <- Hh, !Z.eqb_refl. cbn.
  rewrite Hu. reflexivity.
Qed.

(** A first frame: whatever the window was, with a non-empty buffer
    [frameStart] succeeds and leaves a texture of the dimensions of the
    frame data, marked as updated. *)
Lemma frameStart_first (gen : Z) (fd : eq_frame_data) (win : eq_window) :
  gen <> 0 -> vnc_framebuffer fd <> [] ->
  exists w1 calls1,
    eq_window_frameStart gen fd win = Some (w1, calls1) /\
    tex w1 <> 0 /\ tex_w w1 = vnc_width fd /\ tex_h w1 = vnc_height fd /\
    tex_updated w1 = true.
Proof.
  intros Hgen Hfb. unfold eq_window_frameStart.
  destruct (vnc_framebuffer fd) as [|p fb]; [congruence|].
  destruct (tex win =? 0) eqn:E0, (tex_w win =? vnc_width fd) eqn:Ew,
    (tex_h win =? vnc_height fd) eqn:Eh, (tex_updated win) eqn:Eu;
    cbn; rewrite ?Eu; cbn;
    try apply Z.eqb_neq in E0; try apply Z.eqb_eq in Ew; try apply Z.eqb_eq in Eh;
    eexists; eexists; (split; [reflexivity|]); cbn;
    repeat split; try assumption; try reflexivity.
Qed.

(** A later frame, started after [frameFinish] on a window with a
    texture. *)
Lemma frameStart_next (gen : Z) (fd : eq_frame_data) (win : eq_window) :
  tex win <> 0 -> tex_updated win = false ->
  match vnc_framebuffer fd with
  | [] => eq_window_frameStart gen fd win = None
  | _ :: _ =>
      exists w2 calls,
        eq_window_frameStart gen fd win = Some (w2, calls) /\
        tex w2 = tex win /\ tex_w w2 = vnc_width fd /\ tex_h w2 = vnc_height fd /\
        tex_updated w2 = true /\
        List.filter is_upload calls
        = [w_glTexSubImage2D (vnc_width fd) (vnc_height fd) (vnc_framebuffer fd)] /\
        List.filter is_allocation calls
        = (if (tex_w win =? vnc_width fd) && (tex_h win =? vnc_height fd) then []
           else [w_glTexImage2D (vnc_width fd) (vnc_height fd)])
  end.
Proof.
  intros Ht Hu. apply Z.eqb_neq in Ht. unfold eq_window_frameStart.
  destruct (vnc_framebuffer fd) as [|p fb] eqn:Hfb.
  - destruct (tex_w win =? vnc_width fd), (tex_h win =? vnc_height fd);
      rewrite Ht; cbn; rewrite ?Hu; reflexivity.
  - destruct (tex_w win =? vnc_width fd) eqn:Ew, (tex_h win =? vnc_height fd) eqn:Eh;
      rewrite Ht; cbn; rewrite ?Hu; cbn;
      try apply Z.eqb_eq in Ew; try apply Z.eqb_eq in Eh;
      eexists; eexists; (split; [reflexivity|]); cbn; rewrite ?Ht; cbn;
      repeat split; try assumption; try reflexivity.
Qed.

(** X19: the texture follows the frames.  For frame data with
    non-empty pixel buffers, a first [frameStart] succeeds and leaves
    the window with a texture; a later frame, started after
    [frameFinish], keeps that texture, uploads the pixel buffer exactly
    once, and allocates storage only when the desktop dimensions have
    changed; a [frameStart] repeated without [frameFinish] on unchanged
    dimensions only binds the texture and uploads nothing; and a frame started after [frameFinish]
    on frame data with an empty buffer has no defined result, since the
    upload subscripts the buffer at 0. *)
Theorem texture_follows_frames (gen gen' : Z) (fd fd' : eq_frame_data) (win : eq_window) :
  gen <> 0 -> vnc_framebuffer fd <> [] -> vnc_framebuffer fd' <> [] ->
  exists w1 calls1 w2 calls,
    eq_window_frameStart gen fd win = Some (w1, calls1) /\
    eq_window_frameStart gen' fd' (eq_window_frameFinish w1) = Some (w2, calls) /\
    tex w1 <> 0 /\ tex_w w1 = vnc_width fd /\ tex_h w1 = vnc_height fd /\
    tex_updated w1 = true /\
    tex w2 = tex w1 /\ tex_w w2 = vnc_width fd' /\ tex_h w2 = vnc_height fd' /\
    tex_updated w2 = true /\
    List.filter is_upload calls
    = [w_glTexSubImage2D (vnc_width fd') (vnc_height fd') (vnc_framebuffer fd')] /\
    List.filter is_allocation calls
    = (if (vnc_width fd' =? vnc_width fd) && (vnc_height fd' =? vnc_height fd) then []
       else [w_glTexImage2D (vnc_width fd') (vnc_height fd')]) /\
    (vnc_width fd' = vnc_width fd -> vnc_height fd' = vnc_height fd ->
     eq_window_frameStart gen' fd' w1
     = Some (w1, [w_glBindTexture (tex w1); w_eq_Window_frameStart])) /\
    (forall empty, vnc_framebuffer empty = [] ->
       eq_window_frameStart gen' empty (eq_window_frameFinish w1) = None).
Proof.
  intros Hgen Hfb Hfb'.
  destruct (frameStart_first gen fd win Hgen Hfb) as (w1 & calls1 & E1 & Ht & Hw & Hh & Hu).
  pose proof (frameStart_next gen' fd' (eq_window_frameFinish w1) Ht eq_refl) as H2.
  destruct (vnc_framebuffer fd') as [|p fb] eqn:Efb'; [congruence|].
  destruct H2 as (w2 & calls & E2 & Ht2 & Hw2 & Hh2 & Hu2 & Hup & Hal).
  cbn [eq_window_frameFinish tex tex_w tex_h] in Ht2, Hal.
  rewrite Hw, Hh, (Z.eqb_sym (vnc_width fd)), (Z.eqb_sym (vnc_height fd)) in Hal.
  exists w1, calls1, w2, calls.
  split; [exact E1|]. split; [exact E2|].
  split; [exact Ht|]. split; [exact Hw|]. split; [exact Hh|]. split; [exact Hu|].
  split; [exact Ht2|]. split; [exact Hw2|]. split; [exact Hh2|]. split; [exact Hu2|].
  split; [exact Hup|]. split; [exact Hal|]. split.
  - intros EW EH. apply frameStart_repeated; congruence.
  - intros empty Hempty.
    pose proof (frameStart_next gen' empty (eq_window_frameFinish w1) Ht eq_refl) as H3.
    now rewrite Hempty in H3.
Qed.

Lemma texture_follows_frames_witness :
  exists w1 calls1 w2 calls,
    eq_window_frameStart 1 small_frame (new_window 0 0) = Some (w1, calls1) /\
    eq_window_frameStart 2 small_replica (eq_window_frameFinish w1) = Some (w2, calls) /\
    tex w1 <> 0 /\ tex_w w1 = 4 /\ tex_h w1 = 3 /\ tex_updated w1 = true /\
    tex w2 = tex w1 /\ tex_w w2 = 4 /\ tex_h w2 = 3 /\ tex_updated w2 = true /\
    List.filter is_upload calls
    = [w_glTexSubImage2D 4 3 (vnc_framebuffer small_replica)] /\
    List.filter is_allocation calls = [] /\
    (vnc_width small_replica = vnc_width small_frame ->
     vnc_height small_replica = vnc_height small_frame ->
     eq_window_frameStart 2 small_replica w1
     = Some (w1, [w_glBindTexture (tex w1); w_eq_Window_frameStart])) /\
    (forall empty, vnc_framebuffer empty = [] ->
       eq_window_frameStart 2 empty (eq_window_frameFinish w1) = None).
Proof.
  apply (texture_follows_frames 1 2 small_frame small_replica (new_window 0 0));
    discriminate.
Defined.

(** * The origin of the canvas fit *)

Lemma shr_fexp_nonneg m e l :
  0 <= m -> 0 <= shr_m (fst (shr_fexp f_prec f_emax m e l)).
Proof.
  intros Hm. unfold shr_fexp.
  destruct (shr_shifted m l e (fexp f_prec f_emax (Zdigits2 m + e) - e) Hm) as [_ Hs].
  refine (shifted_nonneg _ _ _ _ _ Hs); [lia|now rewrite shr_m_record_of_loc].
Qed.

Lemma round_nearest_even_nonneg m l : 0 <= m -> 0 <= round_nearest_even m l.
Proof. intros Hm. destruct l as [|[]]; cbn; try lia. destruct (Z.even m); lia. Qed.

Lemma binary_round_aux_nonneg m e l :
  0 <= m -> nonneg_float (binary_round_aux f_prec f_emax false m e l).
Proof.
  intros Hm. unfold binary_round_aux.
  pose proof (shr_fexp_nonneg m e l Hm) as H1.
  destruct (shr_fexp f_prec f_emax m e l) as [mrs1 e1]. cbn [fst] in H1.
  pose proof (shr_fexp_nonneg _ e1 loc_Exact
                (round_nearest_even_nonneg _ (loc_of_shr_record mrs1) H1)) as H2.
  destruct (shr_fexp f_prec f_emax _ e1 loc_Exact) as [mrs2 e2]. cbn [fst] in H2.
  destruct (shr_m mrs2) as [|p|p]; [exact I| |lia].
  destruct (e2 <=? f_emax - f_prec); exact I.
Qed.

Lemma binary_round_aux_unit m e l :
  below_one m e l -> unit_float (binary_round_aux f_prec f_emax false m e l).
Proof.
  intros H. unfold binary_round_aux.
  pose proof (shr_fexp_below_one m e l H) as H1.
  destruct (shr_fexp f_prec f_emax m e l) as [mrs1 e1]. cbn [fst snd] in H1.
  apply round_below_one in H1.
  pose proof (shr_fexp_below_one _ _ _ H1) as H2.
  destruct (shr_fexp f_prec f_emax (round_nearest_even (shr_m mrs1) (loc_of_shr_record mrs1))
              e1 loc_Exact) as [mrs2 e2].
  cbn [fst snd] in H2. destruct H2 as (Hm & He & Hle & _).
  destruct (shr_m mrs2) as [|p|p]; [exact I| |lia].
  replace (e2 <=? f_emax - f_prec) with true
    by (symmetry; apply Z.leb_le; unfold f_emax, f_prec; lia).
  split; assumption.
Qed.

Lemma fdiv_unit a b :
  fpositive a -> fpositive b -> fle a b = true -> unit_float (fdiv a b).
Proof.
  intros Ha Hb Hab.
  destruct a as [| | |[] m1 e1]; try contradiction.
  destruct b as [| | |[] m2 e2]; try contradiction.
  cbn in Ha, Hb. apply fle_finite in Hab.
  pose proof (div_core_below_one m1 e1 m2 e2 Ha Hb Hab) as H.
  unfold fdiv, SFdiv.
  destruct (SFdiv_core_binary f_prec f_emax (Zpos m1) e1 (Zpos m2) e2) as [[q e'] l].
  cbn [fst snd xorb] in *. now apply binary_round_aux_unit.
Qed.

Lemma fdiv_nonneg a b : nonneg_float a -> fpositive b -> nonneg_float (fdiv a b).
Proof.
  intros Ha Hb.
  destruct b as [| | |[] m2 e2]; try contradiction.
  destruct a as [[]|[]| |[] m1 e1]; try contradiction; try exact I.
  unfold fdiv, SFdiv, SFdiv_core_binary.
  set (s := e1 - e2 - _).
  set (m' := match s with Zpos _ => Z.shiftl (Zpos m1) s | 0 => Zpos m1 | Zneg _ => 0 end).
  assert (Hm' : 0 <= m').
  { unfold m'. destruct s; try lia. apply Z.shiftl_nonneg. lia. }
  pose proof (Z_div_mod m' (Zpos m2) ltac:(lia)) as Hdm.
  destruct (Z.div_eucl m' (Zpos m2)) as [q r]. destruct Hdm as [Edm Hr].
  cbn [xorb]. apply binary_round_aux_nonneg. nia.
Qed.

Lemma iter_xO_value m d : Zpos (Pos.iter xO m d) = Zpos m * 2 ^ Zpos d.
Proof.
  induction d as [|d IH] using Pos.peano_ind.
  - cbn [Pos.iter]. change (2 ^ 1) with 2. lia.
  - rewrite Pos.iter_succ, Pos2Z.inj_xO, IH, Pos2Z.inj_succ, Z.pow_succ_r by lia. lia.
Qed.

Lemma fsub_one_nonneg c : unit_float c -> nonneg_float (fsub f1 c).
Proof.
  destruct c as [[]| | |[] p e]; try contradiction; intros Hc.
  - exact I.
  - destruct Hc as [He Hp]. rewrite f1_unfold. unfold fsub, SFsub.
    replace (Z.min (-23) e) with e by lia. cbn [cond_Zopp].
    assert (Hp' : fst (shl_align p e e) = p).
    { unfold shl_align. rewrite Z.sub_diag. reflexivity. }
    assert (H1 : Zpos (fst (shl_align 8388608 (-23) e)) = 2 ^ (- e)).
    { unfold shl_align. destruct (e - -23) as [|d|d] eqn:Ed; try lia.
      - cbn [fst]. replace e with (-23) by lia. reflexivity.
      - cbn [fst]. rewrite iter_xO_value.
        change (Zpos 8388608) with (2 ^ 23). rewrite <- Z.pow_add_r by lia.
        f_equal. lia. }
    rewrite Hp', H1. unfold binary_normalize.
    destruct (2 ^ (- e) - Zpos p) as [|D|D] eqn:ED; [exact I| |lia].
    unfold binary_round.
    destruct (shl_align D e _) as [mz ez].
    apply binary_round_aux_nonneg. lia.
Qed.

Lemma fle_zero_nonneg x : nonneg_float x -> fle f0 x = true.
Proof. destruct x as [[]|[]| |[] m e]; try contradiction; reflexivity. Qed.

(** X20: for positive aspect ratios the origin of the canvas fit is
    never negative and never NaN: the fitted rectangle does not start
    outside the canvas. *)
Theorem canvas_fit_origin_nonneg (c : canvas_t) (ar canvas_ar : float) :
  fpositive ar -> fpositive canvas_ar ->
  fle f0 (canvas2 (canvas_fit c ar canvas_ar)) = true /\
  fle f0 (canvas3 (canvas_fit c ar canvas_ar)) = true.
Proof.
  intros Har Hcar.
  assert (H1 : unit_float f1) by (rewrite f1_unfold; cbn; lia).
  assert (H2 : fpositive f2) by reflexivity.
  assert (Hfit : forall x, unit_float x -> fle f0 (fdiv (fsub f1 x) f2) = true).
  { intros x Hx. apply fle_zero_nonneg, fdiv_nonneg; [|exact H2].
    now apply fsub_one_nonneg. }
  unfold canvas_fit. destruct (fge ar canvas_ar) eqn:E; cbn [canvas2 canvas3].
  - split; apply Hfit; [exact H1|]. now apply fdiv_unit.
  - split; apply Hfit; [|exact H1]. apply fdiv_unit; try assumption.
    now apply fge_false_fle.
Qed.

Lemma canvas_fit_origin_nonneg_witness :
  fle f0 (canvas2 (canvas_fit blank_canvas ar_800_600 ar_16_9)) = true /\
  fle f0 (canvas3 (canvas_fit blank_canvas ar_800_600 ar_16_9)) = true.
Proof.
  apply (canvas_fit_origin_nonneg blank_canvas ar_800_600 ar_16_9);
    vm_compute; reflexivity.
Defined.

(** * Key translation keeps keys apart *)

Lemma symbol_determines_label (cases : list (Z * Z)) l1 l2 k :
  List.NoDup (map snd cases) -> In (l1, k) cases -> In (l2, k) cases -> l1 = l2.
Proof.
  induction cases as [|[l0 k0] cases IH]; intros Hnd H1 H2; [destruct H1|].
  cbn in Hnd. inversion Hnd as [|? ? Hfresh Hnd']; subst.
  assert (Hno : forall l, ~ In (l, k0) cases).
  { intros l Hin. apply Hfresh. apply in_map_iff. now exists (l, k0). }
  destruct H1 as [E1|H1], H2 as [E2|H2].
  - congruence.
  - injection E1 as _ ->. now destruct (Hno l2).
  - injection E2 as _ ->. now destruct (Hno l1).
  - now apply IH.
Qed.

Lemma switch_result cases default key :
  List.NoDup (map fst cases) ->
  (In key (map fst cases) /\ In (key, switch cases default key) cases) \/
  (~ In key (map fst cases) /\ switch cases default key = default).
Proof.
  intros Hnd. destruct (in_dec Z.eq_dec key (map fst cases)) as [Hin|Hout].
  - left. split; [assumption|]. apply in_map_iff in Hin as ([l k] & E & Hin).
    cbn in E. subst l. now rewrite (switch_case cases default key k Hnd Hin).
  - right. split; [assumption|]. now apply switch_default.
Qed.

(** X21: with pairwise distinct case labels and pairwise distinct remote
    symbols, [eqkey_to_rfbkey] never sends two different keys to the same
    remote key, as long as each of them is a special key or a code that
    is not itself a remote symbol of the table. *)
Theorem eqkey_to_rfbkey_injective (K : key_constants) (k1 k2 : Z) :
  distinct_labels K ->
  List.NoDup (remote_symbols K) ->
  plain_or_special K k1 -> plain_or_special K k2 ->
  k1 <> k2 ->
  eqkey_to_rfbkey K k1 <> eqkey_to_rfbkey K k2.
Proof.
  unfold distinct_labels, remote_symbols, plain_or_special, special_keys, eqkey_to_rfbkey.
  intros Hl Hs P1 P2 Hne E. apply Hne. clear Hne.
  assert (Hsym : forall l k, In (l, k) (key_cases K) -> In k (map snd (key_cases K))).
  { intros l k Hin. apply in_map_iff. now exists (l, k). }
  destruct (switch_result (key_cases K) k1 k1 Hl) as [[I1 R1]|[O1 R1]],
           (switch_result (key_cases K) k2 k2 Hl) as [[I2 R2]|[O2 R2]].
  - rewrite E in R1. exact (symbol_determines_label _ _ _ _ Hs R1 R2).
  - exfalso. destruct P2 as [P2|P2]; [now apply O2|].
    apply P2. rewrite <- R2, <- E. exact (Hsym _ _ R1).
  - exfalso. destruct P1 as [P1|P1]; [now apply O1|].
    apply P1. rewrite <- R1, E. exact (Hsym _ _ R2).
  - congruence.
Qed.

Lemma eqkey_to_rfbkey_injective_witness :
  eqkey_to_rfbkey sample_keys 256 <> eqkey_to_rfbkey sample_keys 97.
Proof.
  apply (eqkey_to_rfbkey_injective sample_keys 256 97); [| | | |discriminate].
  - unfold distinct_labels. vm_compute.
    repeat (constructor; [cbn; intuition discriminate|]). constructor.
  - unfold remote_symbols. vm_compute.
    repeat (constructor; [cbn; intuition discriminate|]). constructor.
  - left. vm_compute. auto.
  - right. vm_compute. intuition discriminate.
Defined.

(** * From a resize to the textures of the nodes *)

Lemma frameStart_uploads (gen : Z) (fd : eq_frame_data) (win : eq_window) :
  tex_updated win = false -> vnc_framebuffer fd <> [] ->
  exists win' calls,
    eq_window_frameStart gen fd win = Some (win', calls) /\
    List.filter is_upload calls
    = [w_glTexSubImage2D (vnc_width fd) (vnc_height fd) (vnc_framebuffer fd)].
Proof.
  intros Hu Hfb. unfold eq_window_frameStart.
  destruct (vnc_framebuffer fd) as [|p fb]; [congruence|].
  destruct (tex win =? 0), (tex_w win =? vnc_width fd), (tex_h win =? vnc_height fd);
    cbn; rewrite ?Hu; cbn; eexists; eexists; split; reflexivity.
Qed.

(** X22: a resize of the desktop reaches the texture of every node with
    the next frame.  Whatever the viewer state was, a resize to a
    desktop of at least one pixel and of representable size, followed by
    a frame, commits one frame data of the new dimensions whose buffer
    is the old buffer cut or zero-filled to the new number of pixels;
    its snapshot makes the buffer of any replica equal to it, and the
    next [frameStart] of a window succeeds and uploads exactly this
    buffer in the new dimensions. *)
Theorem resize_reaches_texture
    (screen : screen_t) (fd rep : eq_frame_data) (win : eq_window)
    (gen width height : Z) (wall_w wall_h : float) :
  event_wf (ev_resize width height) ->
  length (vnc_framebuffer rep) = Z.to_nat (vnc_width rep * vnc_height rep) ->
  exists fd' committed snapshot rep' win' calls,
    run screen [ev_resize width height; ev_frame wall_w wall_h] fd
    = Some (fd', [committed]) /\
    vnc_framebuffer committed = resize (Z.to_nat (width * height)) 0 (vnc_framebuffer fd) /\
    getInstanceData committed [] = Some snapshot /\
    applyInstanceData rep snapshot = Some (rep', []) /\
    eq_window_frameStart gen rep' (eq_window_frameFinish win) = Some (win', calls) /\
    List.filter is_upload calls
    = [w_glTexSubImage2D width height (vnc_framebuffer committed)].
Proof.
  intros (Hw & Hh & Hwh) Hrep.
  assert (Hid : int_mul width height = width * height)
    by (apply int_mul_id; unfold int_range, int_min; nia).
  assert (Hres : vnc_resize fd width height
                 = Some {| vnc_width := width; vnc_height := height; canvas := canvas fd;
                           vnc_framebuffer :=
                             resize (Z.to_nat (width * height)) 0 (vnc_framebuffer fd);
                           vnc_dirty_rectangles := [full_rectangle width height] |}).
  { rewrite vnc_resize_positive by (rewrite Hid; nia). now rewrite Hid. }
  destruct (vnc_resize_wf fd width height Hw Hh Hwh) as (fd1 & Hres' & Hwf1 & _).
  rewrite Hres in Hres'. injection Hres' as <-.
  set (fd1 := {| vnc_width := width |}) in *.
  set (c := startFrame screen wall_w wall_h fd1).
  destruct (startFrame_fields screen wall_w wall_h fd1) as (FW & FH & FB & FR).
  fold c in FW, FH, FB, FR. cbn in FW, FH, FB, FR.
  assert (Hwfc : frame_wf c).
  { unfold frame_wf. rewrite FW, FH, FB, FR. exact Hwf1. }
  assert (Hinc : dirty_in_bounds c).
  { unfold dirty_in_bounds. rewrite FW, FH, FR.
    constructor; [|constructor]. unfold rect_in_bounds, full_rectangle. cbn. lia. }
  assert (Hfull : In (full_rectangle (vnc_width c) (vnc_height c)) (vnc_dirty_rectangles c)).
  { rewrite FW, FH, FR. left. reflexivity. }
  destruct (applyInstanceData_ok c Hwfc rep [] Hinc) as (fb0 & Hlen0 & _ & Happly).
  { intros EW EH. rewrite Hrep, (proj1 (proj2 (proj2 (proj2 Hwfc)))), EW, EH. reflexivity. }
  rewrite app_nil_r in Happly.
  rewrite (copy_full_rectangle c fb0 Hwfc Hfull Hlen0) in Happly.
  assert (Hne : vnc_framebuffer c <> []).
  { rewrite FB. intros E. apply (f_equal (@length _)) in E.
    rewrite length_resize in E. cbn in E. nia. }
  match type of Happly with _ = Some (?r, _) => set (rep1 := r) in * end.
  destruct (frameStart_uploads gen rep1 (eq_window_frameFinish win) eq_refl Hne)
    as (win' & calls & Estart & Hup).
  exists (clear_dirty c), c, (encode_frame c), rep1, win', calls.
  split; [cbn [run step mbind option_bind]; rewrite Hres; reflexivity|].
  split; [exact FB|].
  split; [apply getInstanceData_ok; assumption|].
  split; [exact Happly|].
  split; [exact Estart|].
  rewrite Hup. subst rep1. cbn [vnc_width vnc_height vnc_framebuffer]. now rewrite FW, FH.
Qed.

Lemma resize_reaches_texture_witness :
  exists fd' committed snapshot rep' win' calls,
    run screen_canvas [ev_resize 3 2; ev_frame f1 f1] stale_replica
    = Some (fd', [committed]) /\
    vnc_framebuffer committed = resize (Z.to_nat (3 * 2)) 0 [1; 2; 3; 4] /\
    getInstanceData committed [] = Some snapshot /\
    applyInstanceData small_replica snapshot = Some (rep', []) /\
    eq_window_frameStart 1 rep' (eq_window_frameFinish (new_window 0 0))
    = Some (win', calls) /\
    List.filter is_upload calls
    = [w_glTexSubImage2D 3 2 (vnc_framebuffer committed)].
Proof.
  apply (resize_reaches_texture screen_canvas stale_replica small_replica (new_window 0 0)
           1 3 2 f1 f1).
  - cbn. unfold int_max. lia.
  - reflexivity.
Defined.

(** * Drawing on a canvas screen *)

(** X23: on a canvas screen, a desktop whose aspect ratio equals that of
    the canvas wall is drawn over the entire viewport of a channel that
    shows the whole canvas: the quad of [frameDraw] for the frame data of
    [startFrame] has the corners (-1,-1), (1,-1), (1,1), (-1,1). *)
Theorem matching_desktop_fills_channel
    (M : libm) (init : eq_init_data) (fd : eq_frame_data)
    (wall_w wall_h : float) (tex : Z) :
  screen init = screen_canvas ->
  fpositive (fdiv wall_w wall_h) ->
  fdiv (float_of_int (vnc_width fd)) (float_of_int (vnc_height fd)) = fdiv wall_w wall_h ->
  gl_vertices2 (frameDraw M init (startFrame screen_canvas wall_w wall_h fd) whole_canvas tex)
  = [ (fneg f1, fneg f1); (f1, fneg f1); (f1, f1); (fneg f1, f1) ].
Proof.
  intros Hscr Har E. unfold frameDraw. rewrite Hscr.
  unfold draw_canvas, startFrame. cbn [canvas canvas0 canvas1]. rewrite E.
  unfold canvas_fit, fge. rewrite fle_refl_positive by assumption.
  rewrite fdiv_self by assumption.
  cbn [canvas2 canvas3 canvas4 canvas5]. vm_compute. reflexivity.
Qed.

Lemma matching_desktop_fills_channel_witness :
  gl_vertices2 (frameDraw any_libm blank_init
                  (startFrame screen_canvas (float_of_int 4) (float_of_int 3) pointer_frame)
                  whole_canvas 1)
  = [ (fneg f1, fneg f1); (f1, fneg f1); (f1, f1); (fneg f1, f1) ].
Proof.
  apply (matching_desktop_fills_channel any_libm blank_init pointer_frame
           (float_of_int 4) (float_of_int 3) 1);
    vm_compute; reflexivity.
Defined.
